(** * Mandarin Photo Captions backend: a shallow embedding of the server code

    The development follows the JavaScript sources of the repository:
    [server.js] (the OpenRouter revision with key rotation) and the later
    OpenAI revision of the same server, which adds the canned fallback
    captions, the pinyin lookup table and the single-call request handler.

    JavaScript strings are sequences of UTF-16 code units, so they are
    modelled as [list N]; [String.length] is [length], [split('')] yields one
    element per code unit.  Calls into the JavaScript runtime whose exact
    behaviour the code does not fix ([toLowerCase], [JSON.parse], the text
    of engine errors, date formatting) are fields of a [Runtime] record; the
    floating point cost estimate is kept as a symbolic sum; the network, the
    clock and the file system are an explicit environment.  One request is
    followed from start to end: [await] is sequencing, and console output is
    not modelled. *)

From Stdlib Require Import ZArith NArith Lia List Bool String Ascii.
From Stdlib Require Import DecimalString.
From Stdlib.Strings Require Import Byte.
From stdpp Require Import base tactics option list numbers gmap.

Set Default Proof Using "Type".
Set Warnings "-register-all".
Local Open Scope Z_scope.

(** ** JavaScript strings *)

Module JS.

Definition jsstring := list N.

(** Decoding of the UTF-8 bytes of a source literal into code points. *)
Fixpoint utf8_decode (bs : list N) : list N :=
  match bs with
  | [] => []
  | b0 :: r =>
    if (b0 <? 128)%N then b0 :: utf8_decode r
    else if (b0 <? 224)%N then
      match r with
      | b1 :: r1 =>
        N.lor (N.shiftl (N.land b0 31) 6) (N.land b1 63) :: utf8_decode r1
      | _ => []
      end
    else if (b0 <? 240)%N then
      match r with
      | b1 :: b2 :: r2 =>
        N.lor (N.shiftl (N.land b0 15) 12)
              (N.lor (N.shiftl (N.land b1 63) 6) (N.land b2 63))
          :: utf8_decode r2
      | _ => []
      end
    else
      match r with
      | b1 :: b2 :: b3 :: r3 =>
        N.lor (N.shiftl (N.land b0 7) 18)
              (N.lor (N.shiftl (N.land b1 63) 12)
                     (N.lor (N.shiftl (N.land b2 63) 6) (N.land b3 63)))
          :: utf8_decode r3
      | _ => []
      end
  end.

(** UTF-16 encoding of one code point: astral code points become a
    surrogate pair. *)
Definition utf16_encode (cp : N) : list N :=
  if (cp <? 65536)%N then [cp]
  else
    let v := (cp - 65536)%N in
    [(55296 + N.shiftr v 10)%N; (56320 + N.land v 1023)%N].

Fixpoint bytes_of_string (s : string) : list N :=
  match s with
  | EmptyString => []
  | String a r => N_of_ascii a :: bytes_of_string r
  end.

(** The JavaScript string denoted by a source literal. *)
Definition js (s : string) : jsstring :=
  flat_map utf16_encode (utf8_decode (bytes_of_string s)).
Global Arguments js : simpl never.

(** [String.prototype.startsWith]. *)
Fixpoint startsWith (p s : jsstring) : bool :=
  match p, s with
  | [], _ => true
  | _ :: _, [] => false
  | a :: p', b :: s' => (a =? b)%N && startsWith p' s'
  end.

(** The first occurrence of [sep] in [s]: the text before it and the text
    after it. *)
Fixpoint breakOn (sep s : jsstring) : option (jsstring * jsstring) :=
  if startsWith sep s then Some ([], drop (length sep) s)
  else
    match s with
    | [] => None
    | c :: s' =>
      match breakOn sep s' with
      | Some (a, b) => Some (c :: a, b)
      | None => None
      end
    end.

(** [String.prototype.indexOf]: the index of the first occurrence, or -1. *)
Definition indexOf (sub s : jsstring) : Z :=
  match breakOn sub s with
  | Some (a, _) => Z.of_nat (length a)
  | None => -1
  end.

(** [String.prototype.includes]. *)
Definition includes (sub s : jsstring) : bool :=
  match breakOn sub s with Some _ => true | None => false end.

(** [String.prototype.lastIndexOf]: the index of the last occurrence, or -1.
    [i] is the index of the head of [s], [best] the last match seen. *)
Fixpoint lastIndexOf_from (sub s : jsstring) (i best : Z) : Z :=
  let best' := if startsWith sub s then i else best in
  match s with
  | [] => best'
  | _ :: s' => lastIndexOf_from sub s' (i + 1) best'
  end.

Definition lastIndexOf (sub s : jsstring) : Z := lastIndexOf_from sub s 0 (-1).

(** [String.prototype.substring(start, end)]: both indices are clamped to
    the string, and swapped when [start] exceeds [end]. *)
Definition substring (s : jsstring) (start stop : Z) : jsstring :=
  let len := Z.of_nat (length s) in
  let a := Z.min (Z.max start 0) len in
  let b := Z.min (Z.max stop 0) len in
  let from := Z.min a b in
  let to := Z.max a b in
  take (Z.to_nat (to - from)) (drop (Z.to_nat from) s).

(** [String.prototype.split(sep)] for a non-empty separator: the pieces
    between successive non-overlapping occurrences, searched left to right.
    Each round consumes at least one code unit, so [fuel] above the length
    of the string is never exhausted. *)
Fixpoint split_fuel (fuel : nat) (sep s : jsstring) : list jsstring :=
  match fuel with
  | O => [s]
  | S fuel' =>
    match breakOn sep s with
    | Some (a, b) => a :: split_fuel fuel' sep b
    | None => [s]
    end
  end.

(** [split('')] yields the code units one by one. *)
Definition split (sep s : jsstring) : list jsstring :=
  match sep with
  | [] => map (fun c => [c]) s
  | _ :: _ => split_fuel (S (length s)) sep s
  end.

(** [Array.prototype.join]. *)
Fixpoint join (sep : jsstring) (l : list jsstring) : jsstring :=
  match l with
  | [] => []
  | [x] => x
  | x :: l' => x ++ sep ++ join sep l'
  end.

(** ECMAScript LineTerminator code units: what [.] does not match. *)
Definition isLineTerminator (c : N) : bool :=
  ((c =? 10) || (c =? 13) || (c =? 8232) || (c =? 8233))%N.

(** ECMAScript WhiteSpace and LineTerminator code units: what [trim]
    strips and what [\s] matches. *)
Definition isWhiteSpace (c : N) : bool :=
  ((c =? 9) || (c =? 10) || (c =? 11) || (c =? 12) || (c =? 13) || (c =? 32)
   || (c =? 160) || (c =? 5760) || ((8192 <=? c) && (c <=? 8202))
   || (c =? 8232) || (c =? 8233) || (c =? 8239) || (c =? 8287)
   || (c =? 12288) || (c =? 65279))%N.

Fixpoint trimStart (s : jsstring) : jsstring :=
  match s with
  | c :: s' => if isWhiteSpace c then trimStart s' else s
  | [] => []
  end.

Definition trimEnd (s : jsstring) : jsstring := rev (trimStart (rev s)).

(** [String.prototype.trim]. *)
Definition trim (s : jsstring) : jsstring := trimEnd (trimStart s).

(** Truthiness of a string value. *)
Definition nonEmpty (s : jsstring) : bool :=
  match s with [] => false | _ :: _ => true end.

End JS.

Import JS.


(** ** JavaScript values, exceptions and the runtime *)

Module Value.

(** Values that reach the code from [JSON.parse] and [response.json()].
    A number is kept as the literal it was read from together with its
    truthiness (whether it is neither zero nor NaN); the code never computes
    with such numbers.  An array can carry named properties next to its
    items, since the code assigns fields to whatever object it parsed. *)
Inductive JsVal :=
| VUndefined
| VNull
| VBool (b : bool)
| VNum (nonzero : bool) (lexeme : jsstring)
| VStr (s : jsstring)
| VArr (items : list JsVal) (props : list (jsstring * JsVal))
| VObj (props : list (jsstring * JsVal)).

(** An [Error] object: the fields the code inspects. *)
Record JsError := mkError {
  err_name : jsstring;
  err_message : jsstring;
  err_code : option jsstring
}.

(** [new Error(message)]. *)
Definition newError (message : jsstring) : JsError :=
  mkError (js "Error") message None.

(** Errors raised by the engine itself rather than by a [throw] of the
    code; their message text is engine specific. *)
Inductive EngineFault :=
| ReadOfNullish (base : JsVal) (prop : jsstring)
| NotAFunction (callee : jsstring)
| NotIterable (what : jsstring)
| NotDefined (ident : jsstring).

(** The result of an evaluation that may throw. *)
Inductive Exc (A : Type) :=
| Ok (a : A)
| Throw (e : JsError).
Arguments Ok {A} a.
Arguments Throw {A} e.

Definition exc_bind {A B} (m : Exc A) (k : A -> Exc B) : Exc B :=
  match m with
  | Ok a => k a
  | Throw e => Throw e
  end.

(** The parts of the JavaScript runtime the code calls into. *)
Record Runtime := {
  toLowerCase : jsstring -> jsstring;
  JSON_parse : jsstring -> Exc JsVal;
  engineError : EngineFault -> JsError;
  isoDate : Z -> jsstring;
  toText : JsVal -> Exc jsstring
}.

Definition string_eqb (a b : jsstring) : bool :=
  bool_decide (a = b).

(** [a === b] for a value and a string literal. *)
Definition isString (v : JsVal) (lit : jsstring) : bool :=
  match v with
  | VStr s => string_eqb s lit
  | _ => false
  end.

Fixpoint assoc {V} (k : jsstring) (props : list (jsstring * V)) : option V :=
  match props with
  | [] => None
  | (k', v) :: rest => if string_eqb k k' then Some v else assoc k rest
  end.

(** Assignment to a property keeps the position of an existing key and
    appends a new one. *)
Fixpoint assoc_set (k : jsstring) (v : JsVal) (props : list (jsstring * JsVal))
  : list (jsstring * JsVal) :=
  match props with
  | [] => [(k, v)]
  | (k', v') :: rest =>
    if string_eqb k k' then (k, v) :: rest else (k', v') :: assoc_set k v rest
  end.

(** ToBoolean. *)
Definition truthy (v : JsVal) : bool :=
  match v with
  | VUndefined | VNull => false
  | VBool b => b
  | VNum nonzero _ => nonzero
  | VStr s => nonEmpty s
  | VArr _ _ | VObj _ => true
  end.

(** [a || b]. *)
Definition orElse (a b : JsVal) : JsVal := if truthy a then a else b.

(** Reading a named, non-index property other than [length]: [None] is the
    TypeError raised for [undefined] and [null]. *)
Definition getProp (v : JsVal) (k : jsstring) : option JsVal :=
  match v with
  | VUndefined | VNull => None
  | VObj props | VArr _ props => Some (default VUndefined (assoc k props))
  | VBool _ | VNum _ _ | VStr _ => Some VUndefined
  end.

(** [v.k = x] in sloppy mode: a no-op on primitives. *)
Definition setProp (v : JsVal) (k : jsstring) (x : JsVal) : JsVal :=
  match v with
  | VObj props => VObj (assoc_set k x props)
  | VArr items props => VArr items (assoc_set k x props)
  | _ => v
  end.

(** [v[0]]. *)
Definition getIndex0 (v : JsVal) : option JsVal :=
  match v with
  | VUndefined | VNull => None
  | VArr items _ => Some (default VUndefined (head items))
  | VStr s => Some (match s with c :: _ => VStr [c] | [] => VUndefined end)
  | VObj props => Some (default VUndefined (assoc (js "0") props))
  | VBool _ | VNum _ _ => Some VUndefined
  end.

(** [v.length === 0] for a truthy or array value [v]. *)
Definition lengthIsZero (v : JsVal) : bool :=
  match v with
  | VArr items _ => match items with [] => true | _ => false end
  | VStr s => negb (nonEmpty s)
  | VObj props =>
    match assoc (js "length") props with
    | Some (VNum false _) => true
    | _ => false
    end
  | _ => false
  end.

Definition isHighSurrogate (c : N) : bool := ((55296 <=? c) && (c <=? 56319))%N.
Definition isLowSurrogate (c : N) : bool := ((56320 <=? c) && (c <=? 57343))%N.

(** The string iterator: one element per code point. *)
Fixpoint codePoints (s : jsstring) : list jsstring :=
  match s with
  | [] => []
  | c :: r =>
    match r with
    | d :: r' =>
      if isHighSurrogate c && isLowSurrogate d then [c; d] :: codePoints r'
      else [c] :: codePoints r
    | [] => [[c]]
    end
  end.

(** The elements a [for ... of] loop visits; [None] when the value is not
    iterable. *)
Definition iterate (v : JsVal) : option (list JsVal) :=
  match v with
  | VArr items _ => Some items
  | VStr s => Some (map VStr (codePoints s))
  | _ => None
  end.

End Value.

Import Value.

Declare Scope exc_scope.
Delimit Scope exc_scope with exc.
Notation "'try' x <- m ;; k" := (exc_bind m (fun x => k))
  (at level 10, x name, m at level 99, k at level 200) : exc_scope.

(** ** Node's [crypto] hashes

    [crypto.createHash(alg).update(buffer).digest('hex')] for the two
    algorithms the server uses.  Words are 32-bit values in [N]; every
    addition is reduced modulo 2^32. *)

Module Crypto.

Local Open Scope N_scope.

Definition mask32 : N := 4294967295.

Definition add32 (a b : N) : N := N.land (a + b) mask32.
Definition not32 (a : N) : N := N.lxor a mask32.
Definition rotr32 (n x : N) : N :=
  N.lor (N.shiftr x n) (N.land (N.shiftl x (32 - n)) mask32).
Definition rotl32 (n x : N) : N :=
  N.lor (N.land (N.shiftl x n) mask32) (N.shiftr x (32 - n)).

(** The four bytes of a word, most significant first. *)
Definition bytes_be (w : N) : list N :=
  [N.land (N.shiftr w 24) 255; N.land (N.shiftr w 16) 255;
   N.land (N.shiftr w 8) 255; N.land w 255].

Definition bytes_le (w : N) : list N := rev (bytes_be w).

Definition word_be (b0 b1 b2 b3 : N) : N :=
  N.lor (N.shiftl b0 24) (N.lor (N.shiftl b1 16) (N.lor (N.shiftl b2 8) b3)).

(** The message length in bits as eight bytes, most significant first. *)
Definition length_bytes_be (bits : N) : list N :=
  bytes_be (N.land (N.shiftr bits 32) mask32) ++ bytes_be (N.land bits mask32).

(** Padding shared by both hashes: a one bit, zeros up to 56 modulo 64, and
    the length field given by [lenfield]. *)
Definition pad (lenfield : N -> list N) (msg : list N) : list N :=
  let n := N.of_nat (length msg) in
  let zeros := (64 - ((n + 9) mod 64)) mod 64 in
  msg ++ [128] ++ repeat 0 (N.to_nat zeros) ++ lenfield (8 * n).

Fixpoint words_of (conv : N -> N -> N -> N -> N) (bs : list N) : list N :=
  match bs with
  | b0 :: b1 :: b2 :: b3 :: r => conv b0 b1 b2 b3 :: words_of conv r
  | _ => []
  end.

Fixpoint blocks (n : nat) (bs : list N) : list (list N) :=
  match n with
  | O => []
  | S n' => take 64 bs :: blocks n' (drop 64 bs)
  end.

Definition hexDigit (n : N) : N :=
  if n <? 10 then 48 + n else 87 + n.

(** Two lowercase hexadecimal digits per byte. *)
Definition hex (bs : list N) : jsstring :=
  flat_map (fun b => [hexDigit (N.shiftr b 4); hexDigit (N.land b 15)]) bs.

(** *** SHA-256 (FIPS 180-4) *)

Definition K256 : list N :=
  [1116352408; 1899447441; 3049323471; 3921009573; 961987163; 1508970993;
   2453635748; 2870763221; 3624381080; 310598401; 607225278; 1426881987;
   1925078388; 2162078206; 2614888103; 3248222580; 3835390401; 4022224774;
   264347078; 604807628; 770255983; 1249150122; 1555081692; 1996064986;
   2554220882; 2821834349; 2952996808; 3210313671; 3336571891; 3584528711;
   113926993; 338241895; 666307205; 773529912; 1294757372; 1396182291;
   1695183700; 1986661051; 2177026350; 2456956037; 2730485921; 2820302411;
   3259730800; 3345764771; 3516065817; 3600352804; 4094571909; 275423344;
   430227734; 506948616; 659060556; 883997877; 958139571; 1322822218;
   1537002063; 1747873779; 1955562222; 2024104815; 2227730452; 2361852424;
   2428436474; 2756734187; 3204031479; 3329325298]%N.

Record State256 := mk256 {
  h0 : N; h1 : N; h2 : N; h3 : N; h4 : N; h5 : N; h6 : N; h7 : N
}.

Definition H256 : State256 :=
  mk256 1779033703 3144134277 1013904242 2773480762
        1359893119 2600822924 528734635 1541459225.

Definition Ch (x y z : N) : N := N.lxor (N.land x y) (N.land (not32 x) z).
Definition Maj (x y z : N) : N :=
  N.lxor (N.land x y) (N.lxor (N.land x z) (N.land y z)).
Definition bigSigma0 (x : N) : N :=
  N.lxor (rotr32 2 x) (N.lxor (rotr32 13 x) (rotr32 22 x)).
Definition bigSigma1 (x : N) : N :=
  N.lxor (rotr32 6 x) (N.lxor (rotr32 11 x) (rotr32 25 x)).
Definition smallSigma0 (x : N) : N :=
  N.lxor (rotr32 7 x) (N.lxor (rotr32 18 x) (N.shiftr x 3)).
Definition smallSigma1 (x : N) : N :=
  N.lxor (rotr32 17 x) (N.lxor (rotr32 19 x) (N.shiftr x 10)).

(** The message schedule, kept newest word first while it grows. *)
Fixpoint schedule (n : nat) (w : list N) : list N :=
  match n with
  | O => w
  | S n' =>
    let x :=
      add32 (add32 (smallSigma1 (nth 1 w 0)) (nth 6 w 0))
            (add32 (smallSigma0 (nth 14 w 0)) (nth 15 w 0)) in
    schedule n' (x :: w)
  end.

Definition round256 (s : State256) (kw : N * N) : State256 :=
  let t1 :=
    add32 (add32 (add32 (h7 s) (bigSigma1 (h4 s)))
                 (add32 (Ch (h4 s) (h5 s) (h6 s)) (fst kw))) (snd kw) in
  let t2 := add32 (bigSigma0 (h0 s)) (Maj (h0 s) (h1 s) (h2 s)) in
  mk256 (add32 t1 t2) (h0 s) (h1 s) (h2 s) (add32 (h3 s) t1) (h4 s) (h5 s) (h6 s).

Definition compress256 (s : State256) (block : list N) : State256 :=
  let w := rev (schedule 48 (rev (words_of word_be block))) in
  let r := fold_left round256 (combine K256 w) s in
  mk256 (add32 (h0 s) (h0 r)) (add32 (h1 s) (h1 r)) (add32 (h2 s) (h2 r))
        (add32 (h3 s) (h3 r)) (add32 (h4 s) (h4 r)) (add32 (h5 s) (h5 r))
        (add32 (h6 s) (h6 r)) (add32 (h7 s) (h7 r)).

Definition digest256 (s : State256) : list N :=
  bytes_be (h0 s) ++ bytes_be (h1 s) ++ bytes_be (h2 s) ++ bytes_be (h3 s)
  ++ bytes_be (h4 s) ++ bytes_be (h5 s) ++ bytes_be (h6 s) ++ bytes_be (h7 s).

Definition sha256 (msg : list byte) : list N :=
  let padded := pad length_bytes_be (map Byte.to_N msg) in
  digest256 (fold_left compress256 (blocks (length padded / 64) padded) H256).

(** *** MD5 (RFC 1321) *)

Definition md5K : list N :=
  [3614090360; 3905402710; 606105819; 3250441966; 4118548399; 1200080426;
   2821735955; 4249261313; 1770035416; 2336552879; 4294925233; 2304563134;
   1804603682; 4254626195; 2792965006; 1236535329; 4129170786; 3225465664;
   643717713; 3921069994; 3593408605; 38016083; 3634488961; 3889429448;
   568446438; 3275163606; 4107603335; 1163531501; 2850285829; 4243563512;
   1735328473; 2368359562; 4294588738; 2272392833; 1839030562; 4259657740;
   2763975236; 1272893353; 4139469664; 3200236656; 681279174; 3936430074;
   3572445317; 76029189; 3654602809; 3873151461; 530742520; 3299628645;
   4096336452; 1126891415; 2878612391; 4237533241; 1700485571; 2399980690;
   4293915773; 2240044497; 1873313359; 4264355552; 2734768916; 1309151649;
   4149444226; 3174756917; 718787259; 3951481745]%N.

Definition md5S : list N :=
  [7; 12; 17; 22; 7; 12; 17; 22; 7; 12; 17; 22; 7; 12; 17; 22; 5; 9; 14;
   20; 5; 9; 14; 20; 5; 9; 14; 20; 5; 9; 14; 20; 4; 11; 16; 23; 4; 11; 16;
   23; 4; 11; 16; 23; 4; 11; 16; 23; 6; 10; 15; 21; 6; 10; 15; 21; 6; 10;
   15; 21; 6; 10; 15; 21]%N.

Record State128 := mk128 { ma : N; mb : N; mc : N; md : N }.

Definition md5Init : State128 :=
  mk128 1732584193 4023233417 2562383102 271733878.

Definition word_le (b0 b1 b2 b3 : N) : N := word_be b3 b2 b1 b0.

Definition length_bytes_le (bits : N) : list N := rev (length_bytes_be bits).

Definition md5Step (m : list N) (s : State128) (i : N) : State128 :=
  let '(f, g) :=
    if i <? 16 then
      (N.lor (N.land (mb s) (mc s)) (N.land (not32 (mb s)) (md s)), i)
    else if i <? 32 then
      (N.lor (N.land (md s) (mb s)) (N.land (not32 (md s)) (mc s)),
       (5 * i + 1) mod 16)
    else if i <? 48 then
      (N.lxor (mb s) (N.lxor (mc s) (md s)), (3 * i + 5) mod 16)
    else
      (N.lxor (mc s) (N.lor (mb s) (not32 (md s))), (7 * i) mod 16) in
  let f' :=
    add32 (add32 f (ma s))
          (add32 (nth (N.to_nat i) md5K 0) (nth (N.to_nat g) m 0)) in
  mk128 (md s) (add32 (mb s) (rotl32 (nth (N.to_nat i) md5S 0) f')) (mb s) (mc s).

Definition md5Compress (s : State128) (block : list N) : State128 :=
  let m := words_of word_le block in
  let r := fold_left (md5Step m) (map N.of_nat (seq 0 64)) s in
  mk128 (add32 (ma s) (ma r)) (add32 (mb s) (mb r))
        (add32 (mc s) (mc r)) (add32 (md s) (md r)).

Definition md5 (msg : list byte) : list N :=
  let padded := pad length_bytes_le (map Byte.to_N msg) in
  let s := fold_left md5Compress (blocks (length padded / 64) padded) md5Init in
  bytes_le (ma s) ++ bytes_le (mb s) ++ bytes_le (mc s) ++ bytes_le (md s).

(** [parseInt(text, 16)] on a string of hexadecimal digits. *)
Definition hexValue (c : N) : N :=
  if (48 <=? c) && (c <=? 57) then c - 48
  else if (97 <=? c) && (c <=? 102) then c - 87
  else c - 55.

Definition parseIntHex (s : jsstring) : N :=
  fold_left (fun acc c => 16 * acc + hexValue c) s 0.

(** The bytes of an ASCII literal, as a [Buffer]. *)
Definition bufferFrom (s : string) : list byte := list_byte_of_string s.

End Crypto.

Import Crypto.

(** ** A reference runtime

    An instance of [Runtime] that follows Node.js on the inputs the examples
    below use: V8's wording for engine errors, [toLowerCase] on ASCII
    letters, a JSON reader that decides a number's truthiness on its digits,
    and UTC calendar dates. *)

Module Node.

Definition quoted (s : jsstring) : jsstring := js "'" ++ s ++ js "'".

Definition describe (v : JsVal) : jsstring :=
  match v with
  | VNull => js "null"
  | _ => js "undefined"
  end.

Definition engineError (f : EngineFault) : JsError :=
  match f with
  | ReadOfNullish base prop =>
    mkError (js "TypeError")
      (js "Cannot read properties of " ++ describe base ++ js " (reading "
       ++ quoted prop ++ js ")") None
  | NotAFunction callee =>
    mkError (js "TypeError") (callee ++ js " is not a function") None
  | NotIterable what =>
    mkError (js "TypeError") (what ++ js " is not iterable") None
  | NotDefined ident =>
    mkError (js "ReferenceError") (ident ++ js " is not defined") None
  end.

Definition toLowerCase (s : jsstring) : jsstring :=
  map (fun c => if ((65 <=? c) && (c <=? 90))%N then (c + 32)%N else c) s.

(** *** JSON text *)

Fixpoint skipWs (s : jsstring) : jsstring :=
  match s with
  | c :: r =>
    if ((c =? 32) || (c =? 9) || (c =? 10) || (c =? 13))%N then skipWs r else s
  | [] => []
  end.

Definition isDigit (c : N) : bool := ((48 <=? c) && (c <=? 57))%N.

Definition hexDigitValue (c : N) : option N :=
  if isDigit c then Some (c - 48)%N
  else if ((97 <=? c) && (c <=? 102))%N then Some (c - 87)%N
  else if ((65 <=? c) && (c <=? 70))%N then Some (c - 55)%N
  else None.

(** The characters of a string literal after its opening quote. *)
Fixpoint readString (s acc : jsstring) : option (jsstring * jsstring) :=
  match s with
  | [] => None
  | c :: r =>
    if (c =? 34)%N then Some (rev acc, r)
    else if (c <? 32)%N then None
    else if (c =? 92)%N then
      match r with
      | e :: r1 =>
        if (e =? 34)%N then readString r1 (34%N :: acc)
        else if (e =? 92)%N then readString r1 (92%N :: acc)
        else if (e =? 47)%N then readString r1 (47%N :: acc)
        else if (e =? 98)%N then readString r1 (8%N :: acc)
        else if (e =? 102)%N then readString r1 (12%N :: acc)
        else if (e =? 110)%N then readString r1 (10%N :: acc)
        else if (e =? 114)%N then readString r1 (13%N :: acc)
        else if (e =? 116)%N then readString r1 (9%N :: acc)
        else if (e =? 117)%N then
          match r1 with
          | a :: b :: c' :: d :: r2 =>
            match hexDigitValue a, hexDigitValue b,
                  hexDigitValue c', hexDigitValue d with
            | Some x3, Some x2, Some x1, Some x0 =>
              readString r2 ((4096 * x3 + 256 * x2 + 16 * x1 + x0)%N :: acc)
            | _, _, _, _ => None
            end
          | _ => None
          end
        else None
      | [] => None
      end
    else readString r (c :: acc)
  end.

Fixpoint spanDigits (s : jsstring) : jsstring * jsstring :=
  match s with
  | c :: r =>
    if isDigit c then let '(d, rest) := spanDigits r in (c :: d, rest)
    else ([], s)
  | [] => ([], [])
  end.

(** A number literal: its text, whether a digit of the mantissa is not
    zero, and what follows. *)
Definition readNumber (s : jsstring) : option (JsVal * jsstring) :=
  let '(sign, s1) :=
    match s with
    | c :: r => if (c =? 45)%N then ([c], r) else ([], s)
    | [] => ([], s)
    end in
  let '(int, s2) := spanDigits s1 in
  match int with
  | [] => None
  | d :: more =>
    if (d =? 48)%N && nonEmpty more then None
    else
      let frac :=
        match s2 with
        | c :: r =>
          if (c =? 46)%N then
            let '(f, s3) := spanDigits r in
            match f with
            | [] => None
            | _ => Some (c :: f, s3)
            end
          else Some ([], s2)
        | [] => Some ([], s2)
        end in
      match frac with
      | None => None
      | Some (f, s3) =>
        let expo :=
          match s3 with
          | c :: r =>
            if ((c =? 101) || (c =? 69))%N then
              let '(sg, r1) :=
                match r with
                | x :: r' =>
                  if ((x =? 43) || (x =? 45))%N then ([x], r') else ([], r)
                | [] => ([], r)
                end in
              let '(e, s4) := spanDigits r1 in
              match e with
              | [] => None
              | _ => Some (c :: sg ++ e, s4)
              end
            else Some ([], s3)
          | [] => Some ([], s3)
          end in
        match expo with
        | None => None
        | Some (e, s4) =>
          let nonzero := existsb (fun c => isDigit c && negb (c =? 48)%N) (int ++ f) in
          Some (VNum nonzero (sign ++ int ++ f ++ e), s4)
        end
      end
  end.

Definition readLiteral (lit : jsstring) (v : JsVal) (s : jsstring)
  : option (JsVal * jsstring) :=
  if startsWith lit s then Some (v, drop (length lit) s) else None.

(** A value, then the rest of the text.  [readItems] reads the elements
    of an array after its first one, [readMembers] the members of an object
    after its first one. *)
Fixpoint readValue (fuel : nat) (s : jsstring) : option (JsVal * jsstring) :=
  match fuel with
  | O => None
  | S fuel' =>
    match skipWs s with
    | [] => None
    | c :: r =>
      if (c =? 123)%N then
        match skipWs r with
        | x :: r1 =>
          if (x =? 125)%N then Some (VObj [], r1)
          else
            match readMember fuel' (skipWs r) with
            | Some (k, v, rest) => readMembers fuel' [(k, v)] rest
            | None => None
            end
        | [] => None
        end
      else if (c =? 91)%N then
        match skipWs r with
        | x :: r1 =>
          if (x =? 93)%N then Some (VArr [] [], r1)
          else
            match readValue fuel' r with
            | Some (v, rest) => readItems fuel' [v] rest
            | None => None
            end
        | [] => None
        end
      else if (c =? 34)%N then
        match readString r [] with
        | Some (str, rest) => Some (VStr str, rest)
        | None => None
        end
      else if (c =? 116)%N then readLiteral (js "true") (VBool true) (c :: r)
      else if (c =? 102)%N then readLiteral (js "false") (VBool false) (c :: r)
      else if (c =? 110)%N then readLiteral (js "null") VNull (c :: r)
      else readNumber (c :: r)
    end
  end
with readItems (fuel : nat) (acc : list JsVal) (s : jsstring)
  : option (JsVal * jsstring) :=
  match fuel with
  | O => None
  | S fuel' =>
    match skipWs s with
    | c :: r =>
      if (c =? 93)%N then Some (VArr (rev acc) [], r)
      else if (c =? 44)%N then
        match readValue fuel' r with
        | Some (v, rest) => readItems fuel' (v :: acc) rest
        | None => None
        end
      else None
    | [] => None
    end
  end
with readMember (fuel : nat) (s : jsstring)
  : option (jsstring * JsVal * jsstring) :=
  match fuel with
  | O => None
  | S fuel' =>
    match s with
    | q :: r =>
      if (q =? 34)%N then
        match readString r [] with
        | Some (k, rest) =>
          match skipWs rest with
          | colon :: r1 =>
            if (colon =? 58)%N then
              match readValue fuel' r1 with
              | Some (v, rest') => Some (k, v, rest')
              | None => None
              end
            else None
          | [] => None
          end
        | None => None
        end
      else None
    | [] => None
    end
  end
with readMembers (fuel : nat) (acc : list (jsstring * JsVal)) (s : jsstring)
  : option (JsVal * jsstring) :=
  match fuel with
  | O => None
  | S fuel' =>
    match skipWs s with
    | c :: r =>
      if (c =? 125)%N then Some (VObj acc, r)
      else if (c =? 44)%N then
        match readMember fuel' (skipWs r) with
        | Some (k, v, rest) => readMembers fuel' (assoc_set k v acc) rest
        | None => None
        end
      else None
    | [] => None
    end
  end.

Definition JSON_parse (text : jsstring) : Exc JsVal :=
  match readValue (2 * length text + 2) text with
  | Some (v, rest) =>
    match skipWs rest with
    | [] => Ok v
    | _ :: _ =>
      Throw (mkError (js "SyntaxError")
               (js "Unexpected non-whitespace character after JSON") None)
    end
  | None =>
    Throw (mkError (js "SyntaxError")
             (match skipWs text with
              | [] => js "Unexpected end of JSON input"
              | _ :: _ => js "Unexpected token in JSON input"
              end) None)
  end.

(** *** [new Date(ms).toISOString().split('T')[0]] *)

Fixpoint decimal (width : nat) (n : Z) : jsstring :=
  match width with
  | O => []
  | S w => decimal w (n / 10) ++ [Z.to_N (48 + n mod 10)]
  end.

Definition isoDate (ms : Z) : jsstring :=
  let z := ms / 86400000 + 719468 in
  let era := z / 146097 in
  let doe := z - era * 146097 in
  let yoe := (doe - doe / 1460 + doe / 36524 - doe / 146096) / 365 in
  let doy := doe - (365 * yoe + yoe / 4 - yoe / 100) in
  let mp := (5 * doy + 2) / 153 in
  let d := doy - (153 * mp + 2) / 5 + 1 in
  let m := if mp <? 10 then mp + 3 else mp - 9 in
  let y := yoe + era * 400 + (if m <=? 2 then 1 else 0) in
  let year :=
    if (0 <=? y) && (y <=? 9999) then decimal 4 y
    else if y <? 0 then js "-" ++ decimal 6 (- y)
    else js "+" ++ decimal 6 y in
  year ++ js "-" ++ decimal 2 m ++ js "-" ++ decimal 2 d.

(** ToString, as a template literal applies it.  A number prints as the
    literal it was read from.  An object read from JSON with an own
    [toString] property cannot be converted: the property is not callable
    and [valueOf] returns the object. *)
Fixpoint toText (v : JsVal) : Exc jsstring :=
  match v with
  | VUndefined => Ok (js "undefined")
  | VNull => Ok (js "null")
  | VBool true => Ok (js "true")
  | VBool false => Ok (js "false")
  | VNum _ lexeme => Ok lexeme
  | VStr s => Ok s
  | VArr items props =>
    match assoc (js "toString") props with
    | Some _ =>
      Throw (mkError (js "TypeError")
               (js "Cannot convert object to primitive value") None)
    | None =>
      exc_bind
        (fold_right
           (fun x acc =>
              exc_bind
                (match x with
                 | VUndefined | VNull => Ok []
                 | _ => toText x
                 end)
                (fun t => exc_bind acc (fun ts => Ok (t :: ts))))
           (Ok []) items)
        (fun ts => Ok (join (js ",") ts))
    end
  | VObj props =>
    match assoc (js "toString") props with
    | Some _ =>
      Throw (mkError (js "TypeError")
               (js "Cannot convert object to primitive value") None)
    | None => Ok (js "[object Object]")
    end
  end.

Definition runtime : Runtime :=
  {| Value.toLowerCase := toLowerCase;
     Value.JSON_parse := JSON_parse;
     Value.engineError := engineError;
     Value.isoDate := isoDate;
     Value.toText := toText |}.

End Node.

(** ** The server's state and its environment *)

Module World.

(** The request bodies the code sends upstream, by what they are built
    from. *)
Inductive Request :=
| AnalysisRequest (mimeType : jsstring) (image : list byte)
| CaptionRequest (analysis : JsVal)
| CombinedRequest (mimeType : jsstring) (image : list byte)
| TestRequest.

(** A [fetch] response.  Both ways of reading the body are given; the
    code reads one of them. *)
Record Response := mkResponse {
  status : Z;
  statusText : jsstring;
  json : Exc JsVal;
  text : Exc jsstring
}.

(** [response.ok]. *)
Definition ok (r : Response) : bool := (200 <=? status r) && (status r <=? 299).

Inductive FetchOutcome :=
| Rejected (e : JsError)
| Responded (r : Response).

(** What the outside world answers: the n-th [fetch], given the API key
    and the body sent; the n-th reading of the clock, in milliseconds; and
    whether the n-th write of the usage file succeeds. *)
Record Env := mkEnv {
  fetch : nat -> option jsstring -> Request -> FetchOutcome;
  clock : nat -> Z;
  writable : nat -> bool
}.

(** A cost in dollars: a loaded or initial amount and the estimates added
    to it since, each determined by the request and the reply it was
    computed from. *)
Inductive Cost :=
| CostOf (amount : jsstring)
| CostPlus (c : Cost) (requestBody : Request) (data : JsVal).

Record Daily := mkDaily { requests : Z; cost : Cost }.

Record CacheEntry := mkEntry {
  result : JsVal;
  timestamp : Z;
  accessCount : Z;
  lastAccessed : option Z
}.

Record UsageStats := mkStats {
  totalRequests : Z;
  totalCost : Cost;
  requestsByKey : gmap jsstring Z;
  dailyUsage : gmap jsstring Daily;
  imageHashes : gmap jsstring CacheEntry
}.

(** The module-level variables, the usage file, and how much of the
    environment has been consumed. *)
Record State := mkState {
  usageStats : UsageStats;
  currentApiKeyIndex : nat;
  usageFile : option UsageStats;
  fetches : nat;
  clockReads : nat;
  writes : nat
}.

(** The state of a freshly started server with no usage file. *)
Definition initialState : State :=
  mkState (mkStats 0 (CostOf (js "0")) ∅ ∅ ∅) 0 None 0 0 0.

(** Computations that read and change the state and may throw. *)
Definition M (A : Type) : Type := State -> Exc A * State.

Definition ret {A} (a : A) : M A := fun st => (Ok a, st).
Definition throw {A} (e : JsError) : M A := fun st => (Throw e, st).
Definition bind {A B} (m : M A) (k : A -> M B) : M B :=
  fun st =>
    match m st with
    | (Ok a, st') => k a st'
    | (Throw e, st') => (Throw e, st')
    end.

(** [try { m } catch (error) { handler error }]. *)
Definition catch {A} (m : M A) (handler : JsError -> M A) : M A :=
  fun st =>
    match m st with
    | (Ok a, st') => (Ok a, st')
    | (Throw e, st') => handler e st'
    end.

Definition lift {A} (x : Exc A) : M A := fun st => (x, st).

Definition setStats (f : UsageStats -> UsageStats) : M unit :=
  fun st =>
    (Ok tt, mkState (f (usageStats st)) (currentApiKeyIndex st) (usageFile st)
                    (fetches st) (clockReads st) (writes st)).

(** [Date.now()]. *)
Definition dateNow (env : Env) : M Z :=
  fun st =>
    (Ok (clock env (clockReads st)),
     mkState (usageStats st) (currentApiKeyIndex st) (usageFile st)
             (fetches st) (S (clockReads st)) (writes st)).

(** [saveUsageStats()]: a failed write is logged and swallowed. *)
Definition saveUsageStats (env : Env) : M unit :=
  fun st =>
    (Ok tt,
     mkState (usageStats st) (currentApiKeyIndex st)
             (if writable env (writes st) then Some (usageStats st)
              else usageFile st)
             (fetches st) (clockReads st) (S (writes st))).

(** [await fetch(url, { headers: { Authorization: `Bearer ${key}` }, body })]. *)
Definition doFetch (env : Env) (key : option jsstring) (body : Request)
  : M Response :=
  fun st =>
    (match fetch env (fetches st) key body with
     | Rejected e => Throw e
     | Responded r => Ok r
     end,
     mkState (usageStats st) (currentApiKeyIndex st) (usageFile st)
             (S (fetches st)) (clockReads st) (writes st)).

(** [getCachedResult(imageHash)]. *)
Definition getCachedResult (imageHash : jsstring) (st : State)
  : option CacheEntry :=
  imageHashes (usageStats st) !! imageHash.

(** [cacheResult(imageHash, result)]. *)
Definition cacheResult (env : Env) (imageHash : jsstring) (value : JsVal)
  : M unit :=
  bind (dateNow env) (fun t =>
  bind (setStats (fun u =>
          mkStats (totalRequests u) (totalCost u) (requestsByKey u)
                  (dailyUsage u)
                  (<[imageHash := mkEntry value t 1 None]> (imageHashes u))))
       (fun _ => saveUsageStats env)).

(** [updateCacheAccess(imageHash)]. *)
Definition updateCacheAccess (env : Env) (imageHash : jsstring) : M unit :=
  fun st =>
    match getCachedResult imageHash st with
    | Some cached =>
      bind (dateNow env) (fun t =>
      bind (setStats (fun u =>
              mkStats (totalRequests u) (totalCost u) (requestsByKey u)
                      (dailyUsage u)
                      (<[imageHash := mkEntry (result cached) (timestamp cached)
                                              (accessCount cached + 1) (Some t)]>
                         (imageHashes u))))
           (fun _ => saveUsageStats env)) st
    | None => (Ok tt, st)
    end.

(** [estimateApiCost(requestBody, response)] reads [response.choices]
    without a guard, so it throws on [null]. *)
Definition estimateApiCost (rt : Runtime) (requestBody : Request) (data : JsVal)
  : Exc (Cost -> Cost) :=
  match data with
  | VUndefined | VNull =>
    Throw (engineError rt (ReadOfNullish data (js "choices")))
  | _ => Ok (fun c => CostPlus c requestBody data)
  end.

(** Decimal text of a number. *)
Definition showNat (n : nat) : jsstring :=
  js (NilEmpty.string_of_uint (Nat.to_uint n)).

Definition showZ (z : Z) : jsstring :=
  if z <? 0 then js "-" ++ showNat (Z.to_nat (- z)) else showNat (Z.to_nat z).

Definition numberValue (z : Z) : JsVal := VNum (negb (z =? 0)) (showZ z).

(** The usage bookkeeping after a successful reply, up to the point where
    the reply is returned. *)
Definition trackUsage (rt : Runtime) (env : Env) (keyName : jsstring)
    (requestBody : Request) (data : JsVal) : M unit :=
  bind (setStats (fun u =>
          mkStats (totalRequests u + 1) (totalCost u)
                  (<[keyName := default 0 (requestsByKey u !! keyName) + 1]>
                     (requestsByKey u))
                  (dailyUsage u) (imageHashes u))) (fun _ =>
  bind (lift (estimateApiCost rt requestBody data)) (fun addCost =>
  bind (setStats (fun u =>
          mkStats (totalRequests u) (addCost (totalCost u)) (requestsByKey u)
                  (dailyUsage u) (imageHashes u))) (fun _ =>
  bind (dateNow env) (fun t =>
  let today := isoDate rt t in
  bind (setStats (fun u =>
          let day := default (mkDaily 0 (CostOf (js "0"))) (dailyUsage u !! today) in
          mkStats (totalRequests u) (totalCost u) (requestsByKey u)
                  (<[today := mkDaily (requests day + 1) (addCost (cost day))]>
                     (dailyUsage u))
                  (imageHashes u))) (fun _ =>
  saveUsageStats env))))).

(** A multipart upload as multer hands it over. *)
Record Upload := mkUpload {
  buffer : list byte;
  mimetype : jsstring
}.

(** [req.file.size]. *)
Definition size (f : Upload) : Z := Z.of_nat (length (buffer f)).

(** What is sent back: the status code and the JSON body. *)
Record Reply := mkReply {
  code : Z;
  body : JsVal
}.

(** [data.choices[0].message.content]. *)
Definition messageContent (rt : Runtime) (data : JsVal) : Exc JsVal :=
  match getProp data (js "choices") with
  | None => Throw (engineError rt (ReadOfNullish data (js "choices")))
  | Some choices =>
    match getIndex0 choices with
    | None => Throw (engineError rt (ReadOfNullish choices (js "0")))
    | Some first =>
      match getProp first (js "message") with
      | None => Throw (engineError rt (ReadOfNullish first (js "message")))
      | Some message =>
        match getProp message (js "content") with
        | None => Throw (engineError rt (ReadOfNullish message (js "content")))
        | Some content => Ok content
        end
      end
    end
  end.

End World.

Import World.

Declare Scope m_scope.
Delimit Scope m_scope with m.
Notation "'do' x <- m ;; k" := (bind m (fun x => k))
  (at level 10, x name, m at level 99, k at level 200) : m_scope.
Notation "'do' 'tt' <- m ;; k" := (bind m (fun _ => k))
  (at level 10, m at level 99, k at level 200) : m_scope.

(** ** Text and caption processing of [server.js] *)

Module Server.

Definition fenceJson : jsstring := Eval vm_compute in js "```json".
Definition fence : jsstring := Eval vm_compute in js "```".
Definition openBrace : jsstring := Eval vm_compute in js "{".
Definition closeBrace : jsstring := Eval vm_compute in js "}".

(** Removal of a markdown code fence from the trimmed reply:
    [t.split('```json')[1].split('```')[0].trim()], and the same with the
    bare fence.  [None] is the TypeError of calling a method on a missing
    array element. *)
Definition stripFence (t : jsstring) : option jsstring :=
  if includes fenceJson t then
    match split fenceJson t !! 1%nat with
    | Some inner =>
      match split fence inner !! 0%nat with
      | Some block => Some (trim block)
      | None => None
      end
    | None => None
    end
  else if includes fence t then
    match split fence t !! 1%nat with
    | Some inner =>
      match split fence inner !! 0%nat with
      | Some block => Some (trim block)
      | None => None
      end
    | None => None
    end
  else Some t.

(** Removal of text outside the outermost braces. *)
Definition extractJson (t : jsstring) : jsstring :=
  let jsonStart := indexOf openBrace t in
  let jsonEnd := lastIndexOf closeBrace t in
  if negb (jsonStart =? -1) && negb (jsonEnd =? -1) && (jsonEnd >? jsonStart)
  then substring t jsonStart (jsonEnd + 1)
  else t.

(** The text handed to [JSON.parse] for a reply [text], as computed in
    [analyzeImage] and in [generateChineseDescriptions]. *)
Definition cleanResponseText (text : jsstring) : option jsstring :=
  match stripFence (trim text) with
  | Some t => Some (extractJson t)
  | None => None
  end.

(** The literals of [genericPhrases], as the file spells them. *)
Definition genericPhrases : list jsstring :=
  Eval vm_compute in
  [js "è¿™æ˜¯ä¸€ä¸ª"; js "è¿™æ˜¯ç…§ç‰‡"; js "è¿™æ˜¯å›¾ç‰‡"; js "è¿™æ˜¯ä¸œè¥¿";
   js "è¿™æ˜¯ç‰©ä½" ++ [34%N];
   js "this is a"; js "this is an"; js "this is the"; js "this looks like"].

Section Captions.
Context (rt : Runtime).
Local Open Scope exc_scope.

(** [v.k] with the engine's TypeError on [undefined] and [null]. *)
Definition prop (v : JsVal) (k : jsstring) : Exc JsVal :=
  match getProp v k with
  | Some x => Ok x
  | None => Throw (engineError rt (ReadOfNullish v k))
  end.

(** [v.toLowerCase()], [callee] naming the expression for the error. *)
Definition lowerCased (callee : jsstring) (v : JsVal) : Exc jsstring :=
  match v with
  | VStr s => Ok (toLowerCase rt s)
  | VUndefined | VNull =>
    Throw (engineError rt (ReadOfNullish v (js "toLowerCase")))
  | _ => Throw (engineError rt (NotAFunction callee))
  end.

(** [genericPhrases.some(phrase => chinese.toLowerCase().includes(phrase)
    || english.toLowerCase().includes(phrase))]: phrases are tried in
    order and the English text is only looked at when the Chinese text
    does not contain the phrase. *)
Fixpoint isGeneric (phrases : list jsstring) (caption : JsVal) : Exc bool :=
  match phrases with
  | [] => Ok false
  | phrase :: rest =>
    try chinese <- prop caption (js "chinese") ;;
    try lc <- lowerCased (js "caption.chinese.toLowerCase") chinese ;;
    if includes phrase lc then Ok true
    else
      try english <- prop caption (js "english") ;;
      try le <- lowerCased (js "caption.english.toLowerCase") english ;;
      if includes phrase le then Ok true else isGeneric rest caption
  end.

(** One round of the loop of [validateCaptions]: whether the caption is
    pushed. *)
Definition keepCaption (caption : JsVal) : Exc bool :=
  try chinese <- prop caption (js "chinese") ;;
  if negb (truthy chinese) then Ok false
  else
    try pinyin <- prop caption (js "pinyin") ;;
    if negb (truthy pinyin) then Ok false
    else
      try english <- prop caption (js "english") ;;
      if negb (truthy english) then Ok false
      else
        try relevance <- prop caption (js "relevance") ;;
        if isString relevance (js "low") then Ok false
        else
          try generic <- isGeneric genericPhrases caption ;;
          Ok (negb generic).

Fixpoint validateLoop (captions : list JsVal) : Exc (list JsVal) :=
  match captions with
  | [] => Ok []
  | caption :: rest =>
    try keep <- keepCaption caption ;;
    try validated <- validateLoop rest ;;
    Ok (if keep then caption :: validated else validated)
  end.

(** [validateCaptions(captions, analysis)]; the second argument is unused. *)
Definition validateCaptions (captions : JsVal) : Exc (list JsVal) :=
  match iterate captions with
  | Some items =>
    try validated <- validateLoop items ;;
    Ok (take 3 validated)
  | None => Throw (engineError rt (NotIterable (js "captions")))
  end.

End Captions.

(** *** Requests to the upstream API *)

(** [generateImageHash(imageBuffer)]. *)
Definition generateImageHash (imageBuffer : list byte) : jsstring :=
  hex (sha256 imageBuffer).

(** The error recorded for a response that is not ok. *)
Definition statusError (r : Response) (errorText : jsstring) : JsError :=
  if status r =? 401 then
    newError (js "Invalid API key - please check your OpenRouter API key")
  else if status r =? 429 then
    newError (js "Rate limit exceeded - please wait before trying again")
  else if status r =? 402 then
    newError (js "Insufficient OpenRouter credits - please add credits to your account")
  else
    newError (js "API request failed: " ++ showZ (status r) ++ js " "
              ++ statusText r ++ js " - " ++ errorText).

(** The error recorded in the [catch] block of an attempt. *)
Definition caughtError (error : JsError) : JsError :=
  if string_eqb (err_name error) (js "AbortError") then
    newError (js "Request timeout - API request took too long")
  else if bool_decide (err_code error = Some (js "ECONNREFUSED")) then
    newError (js "Cannot connect to OpenRouter API - check your internet connection")
  else if bool_decide (err_code error = Some (js "ENOTFOUND")) then
    newError (js "Cannot reach OpenRouter servers - check your internet connection")
  else if bool_decide (err_code error = Some (js "ETIMEDOUT")) then
    newError (js "Connection to OpenRouter timed out")
  else if includes (js "fetch") (err_message error) then
    newError (js "Network request failed - check your connection")
  else error.

Section Upstream.
Context (rt : Runtime) (env : Env).
(** [OPENROUTER_API_KEYS], a non-empty array literal. *)
Context (firstKey : jsstring) (moreKeys : list jsstring).
Local Open Scope m_scope.

Definition OPENROUTER_API_KEYS : list jsstring := firstKey :: moreKeys.

(** [getCurrentApiKey()]. *)
Definition getCurrentApiKey (st : State) : option jsstring :=
  OPENROUTER_API_KEYS !! currentApiKeyIndex st.

(** [switchToNextApiKey()]. *)
Definition switchToNextApiKey : M unit :=
  fun st =>
    (Ok tt,
     mkState (usageStats st)
             ((currentApiKeyIndex st + 1) mod length OPENROUTER_API_KEYS)%nat
             (usageFile st) (fetches st) (clockReads st) (writes st)).

(** How the body of the [try] block of one attempt ends. *)
Inductive AttemptResult :=
| Returned (data : JsVal)
| Failed (lastError : JsError).

(** The body of the [try] block: the request, then either the usage
    bookkeeping and [return data], or the error for the status.  The
    [fetch] carries the signal of a 30 second timer that is cleared once
    the [fetch] has settled; [fetch env] is the outcome of the request
    under that timer, an [AbortError] rejection when it fired. *)
Definition tryAttempt (requestBody : Request) : M AttemptResult :=
  fun st =>
    (do response <- doFetch env (getCurrentApiKey st) requestBody ;;
     if ok response then
       do data <- lift (json response) ;;
       fun st1 =>
         (do tt <- trackUsage rt env
                    (js "key_" ++ showNat (currentApiKeyIndex st1 + 1))
                    requestBody data ;;
          ret (Returned data)) st1
     else
       do errorText <- lift (World.text response) ;;
       ret (Failed (statusError response errorText))) st.

(** [if (attempt < maxRetries - 1) switchToNextApiKey()]. *)
Definition switchUnlessLast (attempt maxRetries : nat) : M unit :=
  if Z.of_nat attempt <? Z.of_nat maxRetries - 1 then switchToNextApiKey
  else ret tt.

(** The [for] loop with [remaining] rounds to go, then the final [throw]. *)
Fixpoint attemptLoop (remaining attempt maxRetries : nat) (requestBody : Request)
    (lastError : option JsError) : M JsVal :=
  match remaining with
  | O => throw (default (newError (js "All API keys failed")) lastError)
  | S remaining' =>
    fun st =>
      match tryAttempt requestBody st with
      | (Ok (Returned data), st') => (Ok data, st')
      | (Ok (Failed e), st') =>
        (do tt <- switchUnlessLast attempt maxRetries ;;
         attemptLoop remaining' (S attempt) maxRetries requestBody (Some e)) st'
      | (Throw error, st') =>
        (do tt <- switchUnlessLast attempt maxRetries ;;
         attemptLoop remaining' (S attempt) maxRetries requestBody
           (Some (caughtError error))) st'
      end
  end.

(** [makeApiRequestWithFallback(requestBody, maxRetries)], [None] standing
    for an omitted second argument. *)
Definition makeApiRequestWithFallback (requestBody : Request)
    (maxRetries : option nat) : M JsVal :=
  let n := default (length OPENROUTER_API_KEYS) maxRetries in
  attemptLoop n 0 n requestBody None.

(** *** Image analysis *)

(** [analysis.k = analysis.k || fallback]. *)
Definition withDefault (k : jsstring) (fallback : JsVal) (analysis : JsVal)
  : JsVal :=
  setProp analysis k
    (orElse (default VUndefined (getProp analysis k)) fallback).

Definition analysisDefaults : list (jsstring * JsVal) :=
  [(js "mainSubject", VStr (js "unknown subject"));
   (js "category", VStr (js "objects"));
   (js "description", VStr (js "No description available"));
   (js "context", VStr (js "No context available"));
   (js "mood", VStr (js "neutral"));
   (js "colors", VStr (js "various colors"));
   (js "details", VStr (js "No specific details"));
   (js "confidence", VStr (js "medium"));
   (js "alternativeSubjects", VArr [] []);
   (js "keywords", VArr [] []);
   (js "chineseKeywords", VArr [] [])].

(** [validateImageAnalysis(analysis)], for an analysis whose fields have
    been defaulted.  Its caller only logs the issues it returns, so the
    embedding keeps what the caller can observe: the TypeError raised by
    [toLowerCase] when the main subject or the description is not a
    string. *)
Definition validateImageAnalysis (analysis : JsVal) : Exc unit :=
  (try mainSubject <- prop rt analysis (js "mainSubject") ;;
   try lowered <- lowerCased rt (js "analysis.mainSubject.toLowerCase") mainSubject ;;
   try description <- prop rt analysis (js "description") ;;
   try lowered' <- lowerCased rt (js "analysis.description.toLowerCase") description ;;
   Ok tt)%exc.

(** The inner [try] block of [analyzeImage] up to the caching of its
    result: from the reply text to the analysis object. *)
Definition parseAnalysis (analysisText : JsVal) : Exc JsVal :=
  (try text <-
     match analysisText with
     | VStr s => Ok s
     | VUndefined | VNull =>
       Throw (engineError rt (ReadOfNullish analysisText (js "trim")))
     | _ => Throw (engineError rt (NotAFunction (js "analysisText.trim")))
     end ;;
   try cleanAnalysisText <-
     match cleanResponseText text with
     | Some t => Ok t
     | None => Throw (engineError rt (ReadOfNullish VUndefined (js "split")))
     end ;;
   try analysis <- JSON_parse rt cleanAnalysisText ;;
   match analysis with
   | VObj _ | VArr _ _ =>
     let analysis' :=
       fold_left (fun a kv => withDefault kv.1 kv.2 a) analysisDefaults analysis in
     try checked <- validateImageAnalysis analysis' ;;
     Ok analysis'
   | _ => Throw (newError (js "Invalid analysis object structure"))
   end)%exc.

(** The [catch (parseError)] block reads [cleanAnalysisText], which is
    declared with [let] inside the [try] block and so is not in scope: the
    engine raises a ReferenceError before the block's own [throw]. *)
Definition parseErrorHandler (scoped : jsstring) (parseError : JsError)
  : JsError :=
  engineError rt (NotDefined scoped).

Definition dayMillis : Z := 24 * 60 * 60 * 1000.

(** The part of [analyzeImage] after a cache miss. *)
Definition analyzeFresh (imageBuffer : list byte) (mimeType : jsstring)
    (imageHash : jsstring) : M JsVal :=
  do data <- makeApiRequestWithFallback (AnalysisRequest mimeType imageBuffer) None ;;
  do analysisText <- lift (messageContent rt data) ;;
  catch
    (do analysis <- lift (parseAnalysis analysisText) ;;
     do tt <- cacheResult env imageHash analysis ;;
     ret analysis)
    (fun parseError => throw (parseErrorHandler (js "cleanAnalysisText") parseError)).

(** [analyzeImage(imageBuffer, mimeType)]. *)
Definition analyzeImage (imageBuffer : list byte) (mimeType : jsstring)
  : M JsVal :=
  catch
    (let imageHash := generateImageHash imageBuffer in
     fun st =>
       match getCachedResult imageHash st with
       | Some cached =>
         (do t <- dateNow env ;;
          if t - timestamp cached <? dayMillis then
            do tt <- updateCacheAccess env imageHash ;;
            ret (result cached)
          else analyzeFresh imageBuffer mimeType imageHash) st
       | None => analyzeFresh imageBuffer mimeType imageHash st
       end)
    (fun error =>
       throw (newError (js "AI analysis failed - unable to generate personalized captions: "
                        ++ err_message error))).

(** *** Caption generation *)

(** The template literal of the caption prompt converts the text fields
    to strings, the optional ones only when they are truthy. *)
Definition printed (required : bool) (analysis : JsVal) (k : jsstring)
  : Exc unit :=
  (try field <- prop rt analysis k ;;
   if required || truthy field then
     try shown <- toText rt field ;; Ok tt
   else Ok tt)%exc.

(** It calls [join] on the three list fields when they are truthy. *)
Definition joined (analysis : JsVal) (k : jsstring) : Exc unit :=
  (try field <- prop rt analysis k ;;
   if truthy field then
     match field with
     | VArr items _ => try shown <- toText rt (VArr items []) ;; Ok tt
     | _ => Throw (engineError rt (NotAFunction (js "analysis." ++ k ++ js ".join")))
     end
   else Ok tt)%exc.

(** The request body of [generateChineseDescriptions], its prompt built
    from the analysis field by field. *)
Definition buildCaptionRequest (analysis : JsVal) : Exc Request :=
  (try p1 <- printed true analysis (js "mainSubject") ;;
   try p2 <- printed true analysis (js "category") ;;
   try p3 <- printed true analysis (js "description") ;;
   try p4 <- printed true analysis (js "context") ;;
   try p5 <- printed true analysis (js "mood") ;;
   try p6 <- printed false analysis (js "colors") ;;
   try p7 <- printed false analysis (js "details") ;;
   try p8 <- printed false analysis (js "confidence") ;;
   try k1 <- joined analysis (js "keywords") ;;
   try k2 <- joined analysis (js "chineseKeywords") ;;
   try k3 <- joined analysis (js "alternativeSubjects") ;;
   Ok (CaptionRequest analysis))%exc.

(** The inner [try] block of [generateChineseDescriptions]. *)
Definition parseCaptions (responseText : JsVal) : Exc (list JsVal) :=
  (try text <-
     match responseText with
     | VStr s => Ok s
     | VUndefined | VNull =>
       Throw (engineError rt (ReadOfNullish responseText (js "trim")))
     | _ => Throw (engineError rt (NotAFunction (js "responseText.trim")))
     end ;;
   try jsonText <-
     match cleanResponseText text with
     | Some t => Ok t
     | None => Throw (engineError rt (ReadOfNullish VUndefined (js "split")))
     end ;;
   try parsed <- JSON_parse rt jsonText ;;
   try listed <- prop rt parsed (js "captions") ;;
   let captions := orElse listed (VArr [] []) in
   if lengthIsZero captions
   then Throw (newError (js "AI failed to generate any captions"))
   else validateCaptions rt captions)%exc.

(** [generateChineseDescriptions(analysis)]; its outer [catch] rethrows. *)
Definition generateChineseDescriptions (analysis : JsVal) : M (list JsVal) :=
  do requestBody <- lift (buildCaptionRequest analysis) ;;
  do data <- makeApiRequestWithFallback requestBody None ;;
  do responseText <- lift (messageContent rt data) ;;
  catch (lift (parseCaptions responseText))
        (fun parseError => throw (parseErrorHandler (js "jsonText") parseError)).

(** *** Routes *)

Definition object (fields : list (jsstring * JsVal)) : JsVal := VObj fields.

(** The [catch] block of the image route. *)
Definition errorReply (error : JsError) : Reply :=
  let m := err_message error in
  let '(errorMessage, technicalDetails) :=
    if includes (js "response parsing error") m then
      (js "AI response format error",
       js "The AI service returned an unexpected response format.")
    else if includes (js "API request failed") m then
      (js "AI service unavailable",
       js "Unable to connect to the AI analysis service.")
    else if includes (js "All API keys failed") m then
      (js "Service temporarily unavailable",
       js "All AI service endpoints are currently unavailable.")
    else if includes (js "rate limit") m || includes (js "quota") m then
      (js "Service temporarily unavailable",
       js "API rate limit exceeded. Please try again in a few minutes.")
    else if includes (js "timeout") m then
      (js "Request timeout",
       js "The request took too long to process. Please try again.")
    else if includes (js "network") m || includes (js "ECONNREFUSED") m then
      (js "Network error",
       js "Unable to connect to external services. Please check your internet connection.")
    else (js "Failed to process image", m) in
  mkReply 500
    (object [(js "error", VStr errorMessage);
             (js "message", VStr technicalDetails);
             (js "technicalDetails", VStr m)]).

(** [app.post('/api/analyze-image', ...)]. *)
Definition postAnalyzeImage (file : option Upload) : State -> Reply * State :=
  fun st =>
    match file with
    | None =>
      (mkReply 400 (object [(js "error", VStr (js "No image file provided"))]), st)
    | Some f =>
      match
        (if negb (startsWith (js "image/") (mimetype f)) then
           throw (newError (js "Invalid file type. Please upload an image file."))
         else if size f =? 0 then
           throw (newError (js "Empty file. Please upload a valid image."))
         else
           do analysis <- analyzeImage (buffer f) (mimetype f) ;;
           do captions <- generateChineseDescriptions analysis ;;
           ret (mkReply 200
                  (object [(js "success", VBool true);
                           (js "analysis", analysis);
                           (js "captions", VArr captions []);
                           (js "cached", VBool false)]))) st
      with
      | (Ok reply, st') => (reply, st')
      | (Throw error, st') => (errorReply error, st')
      end
    end.

(** [app.post('/api/clear-cache', ...)]: clearing a map and saving do not
    throw, so the [catch] branch is never taken. *)
Definition postClearCache : State -> Reply * State :=
  fun st =>
    match
      (do tt <- setStats (fun u =>
                  mkStats (totalRequests u) (totalCost u) (requestsByKey u)
                          (dailyUsage u) ∅) ;;
       do tt <- saveUsageStats env ;;
       ret (mkReply 200
              (object [(js "success", VBool true);
                       (js "message", VStr (js "Cache cleared"))]))) st
    with
    | (Ok reply, st') => (reply, st')
    | (Throw error, st') =>
      (mkReply 500 (object [(js "error", VStr (js "Failed to clear cache"))]), st')
    end.

(** [app.get('/api/test', ...)]. *)
Definition getApiTest : State -> Reply * State :=
  fun st =>
    match
      (do result <- makeApiRequestWithFallback TestRequest (Some 1%nat) ;;
       do content <- lift (messageContent rt result) ;;
       ret (mkReply 200
              (object [(js "success", VBool true);
                       (js "message", VStr (js "API connection successful"));
                       (js "response", content)]))) st
    with
    | (Ok reply, st') => (reply, st')
    | (Throw error, st') =>
      (mkReply 500
         (object [(js "success", VBool false);
                  (js "message", VStr (js "API connection failed"));
                  (js "error", VStr (err_message error))]), st')
    end.

End Upstream.

End Server.

(** ** Text and caption processing of the OpenAI revision *)

Module OpenAI.

(** The literal [pinyinMap]; a key written twice carries the same value
    both times. *)
Definition pinyinMap : list (jsstring * jsstring) :=
  Eval vm_compute in
  [(js "你", js "nǐ"); (js "好", js "hǎo"); (js "学", js "xué");
   (js "习", js "xí"); (js "大", js "dà"); (js "中", js "zhōng");
   (js "国", js "guó"); (js "老", js "lǎo"); (js "师", js "shī");
   (js "生", js "shēng"); (js "朋", js "péng"); (js "友", js "yǒu");
   (js "家", js "jiā"); (js "庭", js "tíng"); (js "工", js "gōng");
   (js "作", js "zuò"); (js "时", js "shí"); (js "间", js "jiān");
   (js "我", js "wǒ"); (js "是", js "shì"); (js "一", js "yī");
   (js "个", js "gè"); (js "的", js "de"); (js "在", js "zài");
   (js "很", js "hěn"); (js "有", js "yǒu"); (js "和", js "hé");
   (js "了", js "le"); (js "不", js "bù"); (js "要", js "yào");
   (js "会", js "huì"); (js "来", js "lái"); (js "到", js "dào");
   (js "去", js "qù"); (js "上", js "shàng"); (js "下", js "xià");
   (js "里", js "lǐ"); (js "外", js "wài"); (js "前", js "qián");
   (js "后", js "hòu"); (js "左", js "zuǒ"); (js "右", js "yòu");
   (js "猫", js "māo"); (js "狗", js "gǒu"); (js "鸟", js "niǎo");
   (js "鱼", js "yú"); (js "花", js "huā"); (js "树", js "shù");
   (js "山", js "shān"); (js "水", js "shuǐ"); (js "天", js "tiān");
   (js "地", js "dì"); (js "人", js "rén"); (js "手", js "shǒu");
   (js "眼", js "yǎn"); (js "口", js "kǒu"); (js "心", js "xīn");
   (js "头", js "tóu"); (js "身", js "shēn"); (js "脚", js "jiǎo");
   (js "车", js "chē"); (js "房", js "fáng"); (js "门", js "mén");
   (js "窗", js "chuāng"); (js "桌", js "zhuō"); (js "椅", js "yǐ");
   (js "床", js "chuáng"); (js "书", js "shū"); (js "笔", js "bǐ");
   (js "纸", js "zhǐ"); (js "吃", js "chī"); (js "喝", js "hē");
   (js "睡", js "shuì"); (js "走", js "zǒu"); (js "跑", js "pǎo");
   (js "看", js "kàn"); (js "听", js "tīng"); (js "说", js "shuō");
   (js "笑", js "xiào"); (js "哭", js "kū"); (js "爱", js "ài");
   (js "想", js "xiǎng"); (js "知", js "zhī"); (js "道", js "dào");
   (js "这", js "zhè"); (js "那", js "nà"); (js "什", js "shén");
   (js "么", js "me"); (js "怎", js "zěn"); (js "样", js "yàng");
   (js "为", js "wèi"); (js "什", js "shén"); (js "么", js "me");
   (js "可", js "kě"); (js "以", js "yǐ"); (js "能", js "néng");
   (js "够", js "gòu"); (js "就", js "jiù"); (js "都", js "dōu");
   (js "还", js "hái"); (js "也", js "yě"); (js "只", js "zhǐ");
   (js "要", js "yào"); (js "如", js "rú"); (js "果", js "guǒ");
   (js "因", js "yīn"); (js "为", js "wèi"); (js "所", js "suǒ");
   (js "以", js "yǐ"); (js "但", js "dàn"); (js "是", js "shì");
   (js "如", js "rú"); (js "果", js "guǒ"); (js "虽", js "suī");
   (js "然", js "rán"); (js "但", js "dàn"); (js "是", js "shì");
   (js "不", js "bù"); (js "过", js "guò"); (js "图", js "tú");
   (js "片", js "piàn"); (js "照", js "zhào"); (js "相", js "xiàng");
   (js "美", js "měi"); (js "丽", js "lì"); (js "漂", js "piào");
   (js "亮", js "liàng"); (js "好", js "hǎo"); (js "看", js "kàn");
   (js "有", js "yǒu"); (js "趣", js "qù"); (js "特", js "tè");
   (js "别", js "bié"); (js "非", js "fēi"); (js "常", js "cháng");
   (js "真", js "zhēn"); (js "的", js "de"); (js "确", js "què");
   (js "实", js "shí"); (js "确", js "què")].

Definition space : jsstring := Eval vm_compute in js " ".

(** [chineseText.split('').map(char => pinyinMap[char] || char).join(' ')]. *)
Definition pinyinOf (c : N) : jsstring :=
  match assoc [c] pinyinMap with
  | Some p => if nonEmpty p then p else [c]
  | None => [c]
  end.

Definition generatePinyinFallback (chineseText : jsstring) : jsstring :=
  join space (map pinyinOf chineseText).

Definition caption (chinese pinyin english relevance : jsstring) : JsVal :=
  VObj [(js "chinese", VStr chinese); (js "pinyin", VStr pinyin);
        (js "english", VStr english); (js "relevance", VStr relevance)].

Definition fallback_general : list JsVal :=
  [caption (js "这是一张很有趣的图片。")
           (js "zhè shì yī zhāng hěn yǒu qù de tú piàn")
           (js "This is a very interesting picture.")
           (js "high");
   caption (js "这张照片看起来很特别。")
           (js "zhè zhāng zhào piàn kàn qǐ lái hěn tè bié")
           (js "This photo looks very special.")
           (js "high");
   caption (js "我喜欢这张图片的内容。")
           (js "wǒ xǐ huān zhè zhāng tú piàn de nèi róng")
           (js "I like the content of this picture.")
           (js "high")].

Definition fallback_nature : list JsVal :=
  [caption (js "这张自然风景照片真美丽。")
           (js "zhè zhāng zì rán fēng jǐng zhào piàn zhēn měi lì")
           (js "This natural landscape photo is really beautiful.")
           (js "high");
   caption (js "大自然的景色总是让人心旷神怡。")
           (js "dà zì rán de jǐng sè zǒng shì ràng rén xīn kuàng shén yí")
           (js "Natural scenery always makes people feel relaxed and happy.")
           (js "high");
   caption (js "这个风景让我想起了美好的回忆。")
           (js "zhè gè fēng jǐng ràng wǒ xiǎng qǐ le měi hǎo de huí yì")
           (js "This scenery reminds me of beautiful memories.")
           (js "high")].

Definition fallback_people : list JsVal :=
  [caption (js "这张照片中的人物看起来很友好。")
           (js "zhè zhāng zhào piàn zhōng de rén wù kàn qǐ lái hěn yǒu hǎo")
           (js "The people in this photo look very friendly.")
           (js "high");
   caption (js "他们的笑容很温暖，让人感到快乐。")
           (js "tā men de xiào róng hěn wēn nuǎn, ràng rén gǎn dào kuài lè")
           (js "Their smiles are warm and make people feel happy.")
           (js "high");
   caption (js "这张照片捕捉到了美好的瞬间。")
           (js "zhè zhāng zhào piàn bǔ zhuō dào le měi hǎo de shùn jiān")
           (js "This photo captured a beautiful moment.")
           (js "high")].

Definition fallback_food : list JsVal :=
  [caption (js "这道菜看起来非常美味。")
           (js "zhè dào cài kàn qǐ lái fēi cháng měi wèi")
           (js "This dish looks very delicious.")
           (js "high");
   caption (js "食物的颜色和摆盘都很精致。")
           (js "shí wù de yán sè hé bǎi pán dōu hěn jīng zhì")
           (js "The food's color and presentation are both exquisite.")
           (js "high");
   caption (js "这让我想起了家的味道。")
           (js "zhè ràng wǒ xiǎng qǐ le jiā de wèi dào")
           (js "This reminds me of the taste of home.")
           (js "high")].

Definition fallback_animals : list JsVal :=
  [caption (js "这只小动物真可爱。")
           (js "zhè zhī xiǎo dòng wù zhēn kě ài")
           (js "This little animal is really cute.")
           (js "high");
   caption (js "它的表情很有趣，让人忍不住想笑。")
           (js "tā de biǎo qíng hěn yǒu qù, ràng rén rěn bù zhù xiǎng xiào")
           (js "Its expression is very funny and makes people want to laugh.")
           (js "high");
   caption (js "动物们的纯真总是能治愈人心。")
           (js "dòng wù men de chún zhēn zǒng shì néng zhì yù rén xīn")
           (js "The innocence of animals can always heal people's hearts.")
           (js "high")].

Definition fallback_objects : list JsVal :=
  [caption (js "这个物品的设计很有创意。")
           (js "zhè gè wù pǐn de shè jì hěn yǒu chuàng yì")
           (js "The design of this object is very creative.")
           (js "high");
   caption (js "它的形状和颜色搭配得很好。")
           (js "tā de xíng zhuàng hé yán sè dā pèi de hěn hǎo")
           (js "Its shape and color are well matched.")
           (js "high");
   caption (js "这个物品看起来很实用。")
           (js "zhè gè wù pǐn kàn qǐ lái hěn shí yòng")
           (js "This object looks very practical.")
           (js "high")].

(** [fallbackCaptions], in the key order [Object.keys] reports. *)
Definition fallbackCaptions : list (jsstring * list JsVal) :=
  [(js "general", fallback_general); (js "nature", fallback_nature);
   (js "people", fallback_people); (js "food", fallback_food);
   (js "animals", fallback_animals); (js "objects", fallback_objects)].

(** [parseInt(md5hex.substring(0, 8), 16)]. *)
Definition hashNum (imageBuffer : list byte) : N :=
  parseIntHex (substring (hex (md5 imageBuffer)) 0 8).

(** The loop pushing [captions[(hashNum + i) % captions.length]] for
    [i] from [i0] on, [n] times. *)
Fixpoint selectCaptions (n : nat) (i0 : N) (h : N) (captions : list JsVal)
  : list JsVal :=
  match n with
  | O => []
  | S n' =>
    default VUndefined
      (captions !! N.to_nat ((h + i0) mod N.of_nat (length captions)))
    :: selectCaptions n' (i0 + 1) h captions
  end.

(** [generateFallbackCaptions(imageBuffer, mimeType)]; the MIME type is
    unused. *)
Definition generateFallbackCaptions (imageBuffer : list byte) : list JsVal :=
  let h := hashNum imageBuffer in
  let categories := map fst fallbackCaptions in
  let selectedCategory :=
    default [] (categories !! N.to_nat (h mod N.of_nat (length categories))) in
  let captions := default [] (assoc selectedCategory fallbackCaptions) in
  let numCaptions := (2 + h mod 2)%N in
  selectCaptions (N.to_nat numCaptions) 0 h captions.

(** [generateFallbackAnalysis()]. *)
Definition generateFallbackAnalysis : JsVal :=
  let words :=
    VArr [VStr (js "图片"); VStr (js "有趣"); VStr (js "内容");
          VStr (js "观察")] [] in
  VObj [(js "mainSubject", VStr (js "图片内容"));
        (js "category", VStr (js "general"));
        (js "description", VStr (js "这是一张有趣的图片，内容丰富多彩。"));
        (js "context", VStr (js "图片展示了一个有趣的场景或物体。"));
        (js "mood", VStr (js "positive"));
        (js "colors", VStr (js "various colors"));
        (js "details", VStr (js "图片包含多种元素，值得仔细观察。"));
        (js "confidence", VStr (js "medium"));
        (js "alternativeSubjects", VArr [] []);
        (js "keywords", words);
        (js "chineseKeywords", words)].

(** Character classes of the regular expressions of [validateCaptions]. *)
Definition isCJK (c : N) : bool := ((19968 <=? c) && (c <=? 40959))%N.
Definition isAsciiLetter (c : N) : bool :=
  (((65 <=? c) && (c <=? 90)) || ((97 <=? c) && (c <=? 122)))%N.

(** [/[一-鿿]/.test(s)]. *)
Definition hasChineseCharacters (s : jsstring) : bool := existsb isCJK s.

(** [(s.match(/[a-zA-Z]+/g) || []).length]: the maximal runs of letters;
    [inWord] tells whether the previous code unit was a letter. *)
Fixpoint countWords (inWord : bool) (s : jsstring) : Z :=
  match s with
  | [] => 0
  | c :: r =>
    if isAsciiLetter c
    then (if inWord then 0 else 1) + countWords true r
    else countWords false r
  end.

Definition englishWordCount (s : jsstring) : Z := countWords false s.

(** [(s.match(/[一-鿿]/g) || []).length]. *)
Definition chineseCharacterCount (s : jsstring) : Z :=
  Z.of_nat (length (filter (fun c => isCJK c = true) s)).

(** A regular expression [/lit\s*tail/] tested at the head of [s]: no
    [tail] used here starts with white space, so only the longest run of
    white space can be followed by a match. *)
Definition matchesHere (lit : jsstring) (tail : jsstring -> bool) (s : jsstring)
  : bool :=
  startsWith lit s && tail (trimStart (drop (length lit) s)).

(** [regex.test(s)]: a match starting anywhere. *)
Fixpoint testAnywhere (here : jsstring -> bool) (s : jsstring) : bool :=
  here s ||
  match s with
  | [] => false
  | _ :: r => testAnywhere here r
  end.

Definition zheShi : jsstring := Eval vm_compute in js "这是".

Definition startsWithLetter (s : jsstring) : bool :=
  match s with
  | c :: _ => isAsciiLetter c
  | [] => false
  end.

(** [problematicPatterns], in order. *)
Definition problematicPatterns : list (jsstring -> bool) :=
  [matchesHere zheShi startsWithLetter;
   matchesHere zheShi (startsWith (js "person"));
   matchesHere zheShi (startsWith (js "thing"));
   matchesHere zheShi (startsWith (js "object"));
   matchesHere zheShi (startsWith (js "something"));
   matchesHere zheShi (startsWith (js "someone"))].

Definition hasProblematicPattern (chineseText : jsstring) : bool :=
  existsb (fun pattern => testAnywhere pattern chineseText) problematicPatterns.

Section Captions.
Context (rt : Runtime).
Local Open Scope exc_scope.

(** [v.trim()]. *)
Definition trimmed (callee : jsstring) (v : JsVal) : Exc jsstring :=
  match v with
  | VStr s => Ok (trim s)
  | VUndefined | VNull => Throw (engineError rt (ReadOfNullish v (js "trim")))
  | _ => Throw (engineError rt (NotAFunction callee))
  end.

(** One round of the loop of [validateCaptions]: the caption as pushed,
    with its pinyin and relevance filled in, or [None] when it is skipped.
    The punctuation test only feeds a log line. *)
Definition checkCaption (caption : JsVal) : Exc (option JsVal) :=
  try chinese <- Server.prop rt caption (js "chinese") ;;
  try english <- Server.prop rt caption (js "english") ;;
  if negb (truthy chinese) || negb (truthy english) then Ok None
  else
    try chineseText <- trimmed (js "caption.chinese.trim") chinese ;;
    if negb (hasChineseCharacters chineseText) then Ok None
    else if (englishWordCount chineseText >? 2)
            && (3 * englishWordCount chineseText
                >? chineseCharacterCount chineseText)
    then Ok None
    else if (length chineseText <? 4)%nat then Ok None
    else if hasProblematicPattern chineseText then Ok None
    else
      try pinyin <- Server.prop rt caption (js "pinyin") ;;
      let caption1 :=
        if truthy pinyin then caption
        else setProp caption (js "pinyin")
               (VStr (generatePinyinFallback chineseText)) in
      try relevance <- Server.prop rt caption1 (js "relevance") ;;
      if isString relevance (js "low") && (length chineseText <? 3)%nat
      then Ok None
      else
        Ok (Some (setProp caption1 (js "relevance")
                    (orElse relevance (VStr (js "medium"))))).

Fixpoint validateLoop (captions : list JsVal) : Exc (list JsVal) :=
  match captions with
  | [] => Ok []
  | caption :: rest =>
    try checked <- checkCaption caption ;;
    try validated <- validateLoop rest ;;
    Ok (match checked with
        | Some c => c :: validated
        | None => validated
        end)
  end.

(** [validateCaptions(captions, analysis)]; the second argument is unused. *)
Definition validateCaptions (captions : JsVal) : Exc (list JsVal) :=
  match captions with
  | VArr items _ =>
    try validated <- validateLoop items ;;
    Ok (if (0 <? length validated)%nat then take 3 validated else [])
  | _ => Ok []
  end.

End Captions.

(** *** The image route *)

(** [generateImageHash(imageBuffer)]. *)
Definition generateImageHash (imageBuffer : list byte) : jsstring :=
  hex (sha256 imageBuffer).

(** Case folding as the [i] flag applies it when the pattern is ASCII. *)
Definition foldCase (c : N) : N :=
  if ((97 <=? c) && (c <=? 122))%N then (c - 32)%N else c.

Fixpoint startsWithCI (p s : jsstring) : bool :=
  match p, s with
  | [], _ => true
  | _ :: _, [] => false
  | a :: p', b :: s' => (foldCase a =? foldCase b)%N && startsWithCI p' s'
  end.

(** The lazy group [([\s\S]*?)] in front of a lookahead [(?=next|$)]: the
    text up to the first place where [next] starts, or all of it. *)
Fixpoint untilMatch (next : jsstring -> bool) (s : jsstring) : jsstring :=
  if next s then []
  else
    match s with
    | [] => []
    | c :: r => c :: untilMatch next r
    end.

(** The group of [/label([\s\S]*?)(?=next|$)/] at its first match;
    [starts] compares with or without the [i] flag. *)
Fixpoint sectionAfter (starts : jsstring -> jsstring -> bool)
    (label next : jsstring) (s : jsstring) : option jsstring :=
  if starts label s
  then Some (untilMatch (starts next) (drop (length label) s))
  else
    match s with
    | [] => None
    | _ :: r => sectionAfter starts label next r
    end.

Fixpoint spanWhile (p : N -> bool) (s : jsstring) : jsstring * jsstring :=
  match s with
  | c :: r =>
    if p c then let '(a, b) := spanWhile p r in (c :: a, b) else ([], s)
  | [] => ([], [])
  end.

(** The group of [\s*(.+)] matched at the head of [rest].  The white
    space is taken greedily; when it runs to the end of the text the
    matcher backs up to the last white space unit that [.] accepts. *)
Definition fieldGroup (rest : jsstring) : option jsstring :=
  let '(blank, r) := spanWhile isWhiteSpace rest in
  match r with
  | _ :: _ => Some (fst (spanWhile (fun c => negb (isLineTerminator c)) r))
  | [] =>
    match last (List.filter (fun c => negb (isLineTerminator c)) blank) with
    | Some c => Some [c]
    | None => None
    end
  end.

(** The group of [/label\s*(.+)/i] at its first match. *)
Fixpoint matchField (label s : jsstring) : option jsstring :=
  match (if startsWithCI label s then fieldGroup (drop (length label) s)
         else None) with
  | Some g => Some g
  | None =>
    match s with
    | [] => None
    | _ :: r => matchField label r
    end
  end.

(** The extraction of the analysis from the reply text. *)
Definition extractAnalysis (responseText : jsstring) : JsVal :=
  match sectionAfter startsWith (js "ANALYSIS:") (js "CAPTION1:") responseText with
  | Some analysisText =>
    let field label fallback :=
      VStr (match matchField label analysisText with
            | Some g => trim g
            | None => fallback
            end) in
    VObj [(js "mainSubject", field (js "Main subject:") (js "image content"));
          (js "description", field (js "Description:") (js "Image description"));
          (js "category", field (js "Category:") (js "general"))]
  | None => VObj []
  end.

(** One round of the caption loop: the caption pushed for [CAPTIONi:],
    if any. *)
Definition extractCaption (label next : jsstring) (responseText : jsstring)
  : option JsVal :=
  match sectionAfter startsWithCI label next responseText with
  | Some captionText =>
    match matchField (js "Chinese:") captionText with
    | Some chinese =>
      if nonEmpty (trim chinese) then
        Some (caption (trim chinese)
                (match matchField (js "Pinyin:") captionText with
                 | Some g => trim g
                 | None => js "pīn yīn"
                 end)
                (match matchField (js "English:") captionText with
                 | Some g => trim g
                 | None => js "Translation"
                 end)
                (js "high"))
      else None
    | None => None
    end
  | None => None
  end.

(** The captions parsed from the reply text, for [i] from 1 to 3. *)
Definition extractCaptions (responseText : jsstring) : list JsVal :=
  omap (fun '(label, next) => extractCaption label next responseText)
    [(js "CAPTION1:", js "CAPTION2:"); (js "CAPTION2:", js "CAPTION3:");
     (js "CAPTION3:", js "CAPTION4:")].

Definition allowedTypes : list jsstring :=
  [js "image/jpeg"; js "image/jpg"; js "image/png"; js "image/gif";
   js "image/webp"].

Definition quotaAnalysis : JsVal :=
  VObj [(js "mainSubject", VStr (js "image content"));
        (js "description",
         VStr (js "Image analysis temporarily unavailable due to API quota limits"));
        (js "category", VStr (js "general"))].

Definition quotaCaptions : JsVal :=
  VArr [caption (js "这是一张有趣的图片。")
          (js "zhè shì yī zhāng yǒu qù de tú piàn")
          (js "This is an interesting image.") (js "medium")] [].

(** A cache entry as an object. *)
Definition entryValue (e : CacheEntry) : JsVal :=
  VObj ([(js "result", result e);
         (js "timestamp", numberValue (timestamp e));
         (js "accessCount", numberValue (accessCount e))]
        ++ match lastAccessed e with
           | Some t => [(js "lastAccessed", numberValue t)]
           | None => []
           end).

Section Route.
Context (rt : Runtime) (env : Env).
(** [process.env.OPENAI_API_KEY]. *)
Context (OPENAI_API_KEY : option jsstring).
Local Open Scope m_scope.

(** [v?.k]. *)
Definition optionalProp (v : JsVal) (k : jsstring) : JsVal :=
  default VUndefined (getProp v k).

(** The quota test on the body of a response that is not ok. *)
Definition isQuotaError (response : Response) (errorData : JsVal) : Exc bool :=
  if status response =? 429 then Ok true
  else
    (try error <- Server.prop rt errorData (js "error") ;;
     if isString (optionalProp error (js "type")) (js "insufficient_quota")
     then Ok true
     else if isString (optionalProp error (js "code")) (js "insufficient_quota")
     then Ok true
     else
       match optionalProp error (js "message") with
       | VUndefined | VNull => Ok false
       | VStr m => Ok (includes (js "quota") m)
       | VArr items _ => Ok (existsb (fun x => isString x (js "quota")) items)
       | _ =>
         Throw (engineError rt
                  (NotAFunction (js "errorData.error?.message?.includes")))
       end)%exc.

(** [`API request failed: ${errorData.error?.message || 'Unknown error'}`]. *)
Definition requestFailed (errorData : JsVal) : Exc JsError :=
  (try error <- Server.prop rt errorData (js "error") ;;
   try shown <- toText rt (orElse (optionalProp error (js "message"))
                             (VStr (js "Unknown error"))) ;;
   Ok (newError (js "API request failed: " ++ shown)))%exc.

Definition object (fields : list (jsstring * JsVal)) : JsVal := VObj fields.

(** [responseText.match(...)] needs a string. *)
Definition matchable (responseText : JsVal) : Exc jsstring :=
  match responseText with
  | VStr s => Ok s
  | VUndefined | VNull =>
    Throw (engineError rt (ReadOfNullish responseText (js "match")))
  | _ => Throw (engineError rt (NotAFunction (js "responseText.match")))
  end.

(** The [try] block of the route once the upload has passed the type
    check and the cache holds nothing for it. *)
Definition analyzeUncached (f : Upload) (imageHash : jsstring) : M Reply :=
  do response <- doFetch env OPENAI_API_KEY
                   (CombinedRequest (mimetype f) (buffer f)) ;;
  if negb (ok response) then
    do errorData <- lift (json response) ;;
    do quota <- lift (isQuotaError response errorData) ;;
    if quota then
      do tt <- cacheResult env imageHash
                 (object [(js "analysis", quotaAnalysis);
                          (js "captions", quotaCaptions)]) ;;
      ret (mkReply 200
             (object [(js "success", VBool true);
                      (js "analysis", quotaAnalysis);
                      (js "captions", quotaCaptions);
                      (js "quotaExceeded", VBool true);
                      (js "message",
                       VStr (js "API quota exceeded - using fallback captions"))]))
    else
      do error <- lift (requestFailed errorData) ;;
      throw error
  else
    do data <- lift (json response) ;;
    do content <- lift (messageContent rt data) ;;
    do responseText <- lift (matchable content) ;;
    let analysis := extractAnalysis responseText in
    let parsed := extractCaptions responseText in
    let captions :=
      match parsed with
      | [] => generateFallbackCaptions (buffer f)
      | _ :: _ => parsed
      end in
    do tt <- cacheResult env imageHash
               (object [(js "analysis", analysis);
                        (js "captions", VArr captions [])]) ;;
    do tt <- setStats (fun u =>
               mkStats (totalRequests u + 1) (totalCost u) (requestsByKey u)
                       (dailyUsage u) (imageHashes u)) ;;
    do tt <- saveUsageStats env ;;
    ret (mkReply 200
           (object [(js "success", VBool true);
                    (js "analysis", analysis);
                    (js "captions", VArr captions [])])).

(** The [catch] block of the route. *)
Definition fallbackReply (f : Upload) (error : JsError) : Reply :=
  mkReply 200
    (object [(js "success", VBool true);
             (js "analysis", generateFallbackAnalysis);
             (js "captions", VArr (generateFallbackCaptions (buffer f)) []);
             (js "fallbackUsed", VBool true);
             (js "message", VStr (js "Using fallback captions due to API issues"));
             (js "error", VStr (err_message error))]).

(** [app.post('/api/analyze-image', ...)]. *)
Definition postAnalyzeImage (file : option Upload) : State -> Reply * State :=
  fun st =>
    match file with
    | None =>
      (mkReply 400 (object [(js "error", VStr (js "No image file provided"))]), st)
    | Some f =>
      if negb (bool_decide (mimetype f ∈ allowedTypes)) then
        (mkReply 400
           (object [(js "success", VBool false);
                    (js "error", VStr (js "Unsupported file format"));
                    (js "message",
                     VStr (js "File type " ++ [34%N] ++ mimetype f ++ [34%N]
                           ++ js " is not supported. Please use: PNG, JPEG, GIF, or WebP formats."));
                    (js "supportedFormats",
                     VArr [VStr (js "PNG"); VStr (js "JPEG"); VStr (js "GIF");
                           VStr (js "WebP")] []);
                    (js "receivedFormat", VStr (mimetype f))]), st)
      else
        let imageHash := generateImageHash (buffer f) in
        match getCachedResult imageHash st with
        | Some cached =>
          (mkReply 200
             (object [(js "success", VBool true);
                      (js "analysis", object []);
                      (js "captions", entryValue cached);
                      (js "cached", VBool true)]), st)
        | None =>
          match analyzeUncached f imageHash st with
          | (Ok reply, st') => (reply, st')
          | (Throw error, st') => (fallbackReply f error, st')
          end
        end
    end.

(** [app.post('/api/clear-cache', ...)]. *)
Definition postClearCache : State -> Reply * State :=
  fun st =>
    match
      (do tt <- setStats (fun u =>
                  mkStats (totalRequests u) (totalCost u) (requestsByKey u)
                          (dailyUsage u) ∅) ;;
       do tt <- saveUsageStats env ;;
       ret (mkReply 200
              (object [(js "success", VBool true);
                       (js "message", VStr (js "Cache cleared"))]))) st
    with
    | (Ok reply, st') => (reply, st')
    | (Throw error, st') =>
      (mkReply 500 (object [(js "error", VStr (js "Failed to clear cache"))]), st')
    end.

End Route.

End OpenAI.

(** ** The request loop of the two-key revision

    The earlier revision of [server.js] has the same key rotation and
    bookkeeping; it records the errors as they come, and its [fetch]
    carries no abort signal.  [server.js] gives every [fetch] the signal
    of an [AbortController] that a timer fires 30 seconds after the
    request was sent, so the [fetch] of its environment is the outcome of
    that race; here the timer is written out, to run both loops against
    one upstream. *)

Module Rotation.

(** The delay of [setTimeout(() => controller.abort(), 30000)]. *)
Definition requestTimeout : Z := 30000.

(** What a [fetch] with the signal of [server.js] gives, from what a
    [fetch] without one gives: [delay] is the time in milliseconds that
    the n-th answer takes, and [aborted] the error a [fetch] rejects with
    once its signal has fired.  The timer is cleared as soon as the
    [fetch] has settled, before the body is read; an answer that comes
    at the very instant the timer is due is left to the timer. *)
Definition withTimer (aborted : JsError)
    (delay : nat -> option jsstring -> Request -> Z) (env : Env) : Env :=
  mkEnv (fun n key body =>
           if delay n key body <? requestTimeout then fetch env n key body
           else Rejected aborted)
        (clock env) (writable env).

(** The error recorded for a response that is not ok. *)
Definition statusError (r : Response) (errorText : jsstring) : JsError :=
  newError (js "API request failed: " ++ showZ (status r) ++ js " "
            ++ statusText r ++ js " - " ++ errorText).

Section Upstream.
Context (rt : Runtime) (env : Env).
Context (firstKey : jsstring) (moreKeys : list jsstring).
Local Open Scope m_scope.

(** The body of the [try] block of one attempt. *)
Definition tryAttempt (requestBody : Request) : M Server.AttemptResult :=
  fun st =>
    (do response <- doFetch env (Server.getCurrentApiKey firstKey moreKeys st)
                      requestBody ;;
     if ok response then
       do data <- lift (json response) ;;
       fun st1 =>
         (do tt <- trackUsage rt env
                    (js "key_" ++ showNat (currentApiKeyIndex st1 + 1))
                    requestBody data ;;
          ret (Server.Returned data)) st1
     else
       do errorText <- lift (World.text response) ;;
       ret (Server.Failed (statusError response errorText))) st.

(** The [for] loop with [remaining] rounds to go, then the final [throw]. *)
Fixpoint attemptLoop (remaining attempt maxRetries : nat) (requestBody : Request)
    (lastError : option JsError) : M JsVal :=
  match remaining with
  | O => throw (default (newError (js "All API keys failed")) lastError)
  | S remaining' =>
    fun st =>
      match tryAttempt requestBody st with
      | (Ok (Server.Returned data), st') => (Ok data, st')
      | (Ok (Server.Failed e), st') =>
        (do tt <- Server.switchUnlessLast firstKey moreKeys attempt maxRetries ;;
         attemptLoop remaining' (S attempt) maxRetries requestBody (Some e)) st'
      | (Throw error, st') =>
        (do tt <- Server.switchUnlessLast firstKey moreKeys attempt maxRetries ;;
         attemptLoop remaining' (S attempt) maxRetries requestBody (Some error)) st'
      end
  end.

(** [makeApiRequestWithFallback(requestBody, maxRetries)]. *)
Definition makeApiRequestWithFallback (requestBody : Request)
    (maxRetries : option nat) : M JsVal :=
  let n := default (length (Server.OPENROUTER_API_KEYS firstKey moreKeys)) maxRetries in
  attemptLoop n 0 n requestBody None.

End Upstream.

End Rotation.

(** ** Captions recovered from a malformed reply (OpenAI revision) *)

Module Recovery.

(** The class [[\u4e00-\u9fff]]. *)
Definition isCJK (c : N) : bool := ((19968 <=? c) && (c <=? 40959))%N.

(** The matches of [/[\u4e00-\u9fff]+/g]: the maximal runs of such code
    units, left to right.  [run] holds the run being read, reversed. *)
Fixpoint cjkRunsFrom (run : jsstring) (s : jsstring) : list jsstring :=
  match s with
  | [] => match run with [] => [] | _ :: _ => [rev run] end
  | c :: r =>
    if isCJK c then cjkRunsFrom (c :: run) r
    else
      match run with
      | [] => cjkRunsFrom [] r
      | _ :: _ => rev run :: cjkRunsFrom [] r
      end
  end.

Definition cjkRuns (s : jsstring) : list jsstring := cjkRunsFrom [] s.

Section Extract.
Context (rt : Runtime).
Local Open Scope exc_scope.

(** The template literal with [analysis.mainSubject || fallback] after
    [prefix]. *)
Definition about (prefix fallback : jsstring) (analysis : JsVal) : Exc jsstring :=
  try mainSubject <- Server.prop rt analysis (js "mainSubject") ;;
  try shown <- toText rt (orElse mainSubject (VStr fallback)) ;;
  Ok (prefix ++ shown).

(** The caption object built for a Chinese text. *)
Definition recovered (prefix fallback : jsstring) (analysis : JsVal)
    (chinese : jsstring) : Exc JsVal :=
  try english <- about prefix fallback analysis ;;
  try keywords <- Server.prop rt analysis (js "keywords") ;;
  Ok (VObj [(js "chinese", VStr chinese);
            (js "pinyin", VStr (OpenAI.generatePinyinFallback chinese));
            (js "english", VStr english);
            (js "relevance", VStr (js "medium"));
            (js "keywordsUsed", orElse keywords (VArr [] []))]).

(** The loop over the first matches: a caption is pushed for the texts
    longer than two code units.  The result is the captions pushed and
    whether the loop threw. *)
Fixpoint pushCaptions (mk : jsstring -> Exc JsVal) (texts : list jsstring)
    (captions : list JsVal) : list JsVal * bool :=
  match texts with
  | [] => (captions, false)
  | chinese :: rest =>
    if Z.of_nat (length chinese) >? 2 then
      match mk chinese with
      | Ok c => pushCaptions mk rest (captions ++ [c])
      | Throw _ => (captions, true)
      end
    else pushCaptions mk rest captions
  end.

(** The loop over the lines: a caption is pushed for the first match of
    a line that mentions [chinese] or [Chinese]. *)
Fixpoint pushLines (mk : jsstring -> Exc JsVal) (lines : list jsstring)
    (captions : list JsVal) : list JsVal * bool :=
  match lines with
  | [] => (captions, false)
  | line :: rest =>
    if includes (js "chinese") line || includes (js "Chinese") line then
      match head (cjkRuns line) with
      | Some chinese =>
        match mk chinese with
        | Ok c => pushLines mk rest (captions ++ [c])
        | Throw _ => (captions, true)
        end
      | None => pushLines mk rest captions
      end
    else pushLines mk rest captions
  end.

(** [extractCaptionsFromText(text, analysis)]: whatever is thrown inside
    is caught and logged, and the captions pushed until then are
    returned. *)
Definition extractCaptionsFromText (text analysis : JsVal) : list JsVal :=
  match text with
  | VStr s =>
    let '(captions, thrown) :=
      pushCaptions
        (recovered (js "This appears to be about ") (js "the image content") analysis)
        (take 3 (cjkRuns s)) [] in
    if thrown then take 3 captions
    else
      match captions with
      | [] =>
        let '(captions', _) :=
          pushLines (recovered (js "Description of ") (js "the image") analysis)
            (split [10%N] s) [] in
        take 3 captions'
      | _ :: _ => take 3 captions
      end
  | _ => []
  end.

End Extract.

End Recovery.

(** * Properties *)

Example js_ascii : js "{a}" = [123; 97; 125]%N.
Proof. reflexivity. Qed.

Example js_bmp : js "这是" = [36825; 26159]%N.
Proof. reflexivity. Qed.

Example split_trailing :
  split (js ",") (js "a,b,") = [js "a"; js "b"; []].
Proof. reflexivity. Qed.

Example split_empty_input : split (js ",") [] = [[]].
Proof. reflexivity. Qed.

Example lastIndexOf_ex : lastIndexOf (js "}") (js "{a}}x") = 3.
Proof. reflexivity. Qed.

Example trim_ex : trim (js "  a b
 ") = js "a b".
Proof. reflexivity. Qed.

Example sha256_abc :
  hex (sha256 (bufferFrom "abc"))
  = js "ba7816bf8f01cfea414140de5dae2223b00361a396177a9cb410ff61f20015ad".
Proof. vm_compute. reflexivity. Qed.

Example sha256_empty :
  hex (sha256 [])
  = js "e3b0c44298fc1c149afbf4c8996fb92427ae41e4649b934ca495991b7852b855".
Proof. vm_compute. reflexivity. Qed.

Example sha256_two_blocks :
  hex (sha256 (repeat "a"%byte 70))
  = js "6bd5e5034855a11241f0dee8fc72850ffd9955b28347a86428b5fa19119f6ad0".
Proof. vm_compute. reflexivity. Qed.

Example md5_fallback :
  hex (md5 (bufferFrom "fallback")) = js "4ccb1142ebdd7ca505d88c28df648283".
Proof. vm_compute. reflexivity. Qed.

Example md5_two_blocks :
  hex (md5 (repeat "a"%byte 70)) = js "0f5c6c4e740bfcc08c3c26ccb2673d46".
Proof. vm_compute. reflexivity. Qed.

(** ** Facts about the string operations *)

Lemma startsWith_spec (p s : jsstring) :
  startsWith p s = true <-> exists r, s = p ++ r.
Proof.
  revert s. induction p as [|a p IH]; intros s; simpl.
  - split; [intros _; by exists s | done].
  - destruct s as [|b s]; simpl.
    + split; [done | intros [r Hr]; discriminate].
    + rewrite andb_true_iff, N.eqb_eq, IH. split.
      * intros [-> [r ->]]. by exists r.
      * intros [r Hr]. injection Hr as -> ->. eauto.
Qed.

Lemma breakOn_Some (sep s a b : jsstring) :
  breakOn sep s = Some (a, b) -> s = a ++ sep ++ b.
Proof.
  revert a b. induction s as [|c s IH]; intros a b; simpl.
  - destruct (startsWith sep []) eqn:E; [|done].
    intros [= <- <-]. apply startsWith_spec in E as [r Hr].
    destruct sep; [done | discriminate].
  - destruct (startsWith sep (c :: s)) eqn:E.
    + intros [= <- <-]. apply startsWith_spec in E as [r ->].
      simpl. by rewrite drop_app_length.
    + destruct (breakOn sep s) as [[a' b']|] eqn:E'; [|done].
      intros [= <- <-]. simpl. f_equal. by apply IH.
Qed.

(** Nothing before the position [breakOn] reports starts an occurrence. *)
Lemma breakOn_first (sep s a b : jsstring) :
  breakOn sep s = Some (a, b) ->
  forall i, (i < length a)%nat -> startsWith sep (drop i s) = false.
Proof.
  revert a b. induction s as [|c s IH]; intros a b; simpl.
  - destruct (startsWith sep []); [|done]. intros [= <- <-] i Hi. simpl in Hi. lia.
  - destruct (startsWith sep (c :: s)) eqn:E.
    + intros [= <- <-] i Hi. simpl in Hi. lia.
    + destruct (breakOn sep s) as [[a' b']|] eqn:E'; [|done].
      intros [= <- <-] i Hi. destruct i as [|i]; [done|].
      simpl. apply (IH a' b' eq_refl). simpl in Hi. lia.
Qed.

Lemma breakOn_None (sep s : jsstring) :
  breakOn sep s = None -> forall i, startsWith sep (drop i s) = false.
Proof.
  induction s as [|c s IH]; simpl.
  - destruct (startsWith sep []) eqn:E; [done|]. intros _ i. by rewrite drop_nil.
  - destruct (startsWith sep (c :: s)) eqn:E; [done|].
    destruct (breakOn sep s) as [[a' b']|] eqn:E'; [done|].
    intros _ [|i]; [done|]. simpl. by apply IH.
Qed.

Lemma breakOn_head (sep s : jsstring) :
  startsWith sep s = true -> breakOn sep s = Some ([], drop (length sep) s).
Proof. intros H. destruct s; cbn [breakOn]; by rewrite H. Qed.

Lemma breakOn_step (sep s : jsstring) (c : N) :
  startsWith sep (c :: s) = false ->
  breakOn sep (c :: s)
  = match breakOn sep s with
    | Some (a, b) => Some (c :: a, b)
    | None => None
    end.
Proof. intros H. cbn [breakOn]. by rewrite H. Qed.

(** Conversely, the first position that starts an occurrence is the one
    [breakOn] reports. *)
Lemma breakOn_intro (sep a b : jsstring) :
  (forall i, (i < length a)%nat -> startsWith sep (drop i (a ++ sep ++ b)) = false) ->
  breakOn sep (a ++ sep ++ b) = Some (a, b).
Proof.
  induction a as [|c a IH]; intros Hno.
  - simpl. rewrite breakOn_head by (apply startsWith_spec; eauto).
    by rewrite drop_app_length.
  - change ((c :: a) ++ sep ++ b) with (c :: (a ++ sep ++ b)).
    rewrite breakOn_step by (apply (Hno 0%nat); simpl; lia).
    rewrite IH; [done|]. intros i Hi. apply (Hno (S i)). simpl. lia.
Qed.

Lemma breakOn_none_intro (sep s : jsstring) :
  (forall i, startsWith sep (drop i s) = false) -> breakOn sep s = None.
Proof.
  induction s as [|c s IH]; intros Hno.
  - cbn [breakOn]. specialize (Hno 0%nat). simpl in Hno. by rewrite Hno.
  - rewrite breakOn_step by apply (Hno 0%nat). rewrite IH; [done|].
    intros i. apply (Hno (S i)).
Qed.

Lemma includes_true (sep s : jsstring) :
  includes sep s = true -> exists a b, breakOn sep s = Some (a, b).
Proof.
  unfold includes. destruct (breakOn sep s) as [[a b]|]; [eauto | done].
Qed.

(** Splitting on a one-unit separator inverts joining pieces that do not
    contain it. *)
Lemma breakOn_unit_absent (x : N) (p : jsstring) :
  x ∉ p -> breakOn [x] p = None.
Proof.
  induction p as [|c p IH]; intros Hx; [done|].
  simpl. destruct (N.eqb_spec x c) as [->|Hne].
  - exfalso. apply Hx. left.
  - simpl. rewrite IH; [done|]. intros H. apply Hx. by right.
Qed.

Lemma breakOn_unit_first (x : N) (p rest : jsstring) :
  x ∉ p -> breakOn [x] (p ++ x :: rest) = Some (p, rest).
Proof.
  induction p as [|c p IH]; intros Hx.
  - simpl. by rewrite N.eqb_refl.
  - simpl. destruct (N.eqb_spec x c) as [->|Hne].
    + exfalso. apply Hx. left.
    + simpl. rewrite IH; [done|]. intros H. apply Hx. by right.
Qed.

Lemma split_fuel_join_unit (x : N) (pieces : list jsstring) :
  pieces <> [] ->
  Forall (fun p => x ∉ p) pieces ->
  forall n, (length pieces <= n)%nat ->
  split_fuel n [x] (join [x] pieces) = pieces.
Proof.
  induction pieces as [|p pieces IH]; [done|].
  intros _ Hall n Hn. apply Forall_cons in Hall as [Hp Hall].
  destruct n as [|n]; [simpl in Hn; lia|].
  destruct pieces as [|q pieces].
  - simpl. by rewrite breakOn_unit_absent.
  - change (join [x] (p :: q :: pieces)) with (p ++ x :: join [x] (q :: pieces)).
    simpl split_fuel. rewrite breakOn_unit_first by done.
    f_equal. apply IH; [done | done | simpl in *; lia].
Qed.

Lemma join_length_ge (sep : jsstring) (pieces : list jsstring) :
  sep <> [] -> (length pieces <= S (length (join sep pieces)))%nat.
Proof.
  intros Hsep. induction pieces as [|p pieces IH]; [simpl; lia|].
  destruct pieces as [|q pieces]; [simpl; lia|].
  change (join sep (p :: q :: pieces)) with (p ++ sep ++ join sep (q :: pieces)).
  rewrite !length_app. destruct sep; [done|]. simpl in *. lia.
Qed.

(** ** The pinyin lookup fallback *)

Definition spaceFree (p : jsstring) : bool :=
  forallb (fun c => negb (c =? 32)%N) p.

Lemma spaceFree_spec (p : jsstring) : spaceFree p = true -> 32%N ∉ p.
Proof.
  induction p as [|c p IH]; simpl; [intros _ H; inversion H|].
  rewrite andb_true_iff, negb_true_iff, N.eqb_neq. intros [Hc Hp] H.
  apply elem_of_cons in H as [Heq|H]; [congruence | by apply IH].
Qed.

Lemma pinyinMap_values :
  forallb (fun kv => spaceFree kv.2 && nonEmpty kv.2) OpenAI.pinyinMap = true.
Proof. vm_compute. reflexivity. Qed.

Lemma assoc_forallb {V} (P : jsstring * V -> bool) k (l : list (jsstring * V)) v :
  forallb P l = true -> assoc k l = Some v -> exists k', P (k', v) = true.
Proof.
  induction l as [|[k' v'] l IH]; simpl; [done|].
  rewrite andb_true_iff. intros [Hh Ht].
  destruct (string_eqb k k'); [intros [= <-]; eauto | by apply IH].
Qed.

(** Every code unit is sent to its table entry, or to itself when the
    table has none. *)
Lemma pinyinOf_lookup (c : N) :
  OpenAI.pinyinOf c = default [c] (assoc [c] OpenAI.pinyinMap).
Proof.
  unfold OpenAI.pinyinOf. destruct (assoc [c] OpenAI.pinyinMap) as [p|] eqn:E; [|done].
  destruct (assoc_forallb _ _ _ _ pinyinMap_values E) as [k' Hk].
  simpl in Hk. apply andb_true_iff in Hk as [_ ->]. done.
Qed.

Lemma pinyinOf_spaceFree (c : N) : c <> 32%N -> 32%N ∉ OpenAI.pinyinOf c.
Proof.
  intros Hc. rewrite pinyinOf_lookup.
  destruct (assoc [c] OpenAI.pinyinMap) as [p|] eqn:E; simpl.
  - destruct (assoc_forallb _ _ _ _ pinyinMap_values E) as [k' Hk].
    simpl in Hk. apply andb_true_iff in Hk as [Hk _]. by apply spaceFree_spec.
  - intros H. apply list_elem_of_singleton in H. done.
Qed.

(** C7, as amended.  For every input string, [generatePinyinFallback]
    maps every UTF-16 code unit of its input through the fixed table,
    keeps a code unit without an entry, and joins the results with single
    spaces.  For a non-empty input without a space character the output,
    split on single spaces, gives back these results, one per input code
    unit. *)
Theorem generatePinyinFallback_components :
  (forall chineseText : jsstring,
     OpenAI.generatePinyinFallback chineseText
     = join OpenAI.space
         (map (fun c => default [c] (assoc [c] OpenAI.pinyinMap)) chineseText))
  /\ (forall chineseText : jsstring,
     chineseText <> [] ->
     32%N ∉ chineseText ->
     split OpenAI.space (OpenAI.generatePinyinFallback chineseText)
     = map (fun c => default [c] (assoc [c] OpenAI.pinyinMap)) chineseText
     /\ length (split OpenAI.space (OpenAI.generatePinyinFallback chineseText))
        = length chineseText).
Proof.
  assert (forall chineseText : jsstring,
            map OpenAI.pinyinOf chineseText
            = map (fun c => default [c] (assoc [c] OpenAI.pinyinMap)) chineseText)
    as Hmap.
  { intros chineseText. apply map_ext. intros c. apply pinyinOf_lookup. }
  split.
  - intros chineseText. unfold OpenAI.generatePinyinFallback. by rewrite Hmap.
  - intros chineseText Hne Hsp.
    assert (split OpenAI.space (OpenAI.generatePinyinFallback chineseText)
            = map OpenAI.pinyinOf chineseText) as Hsplit.
    { unfold OpenAI.generatePinyinFallback, split, OpenAI.space.
      apply split_fuel_join_unit.
      - destruct chineseText; [done | discriminate].
      - apply Forall_map, Forall_forall. intros c Hc.
        apply pinyinOf_spaceFree. intros ->. done.
      - apply (join_length_ge [32%N]). discriminate. }
    rewrite Hsplit, <- Hmap. split; [done|]. by rewrite length_map.
Qed.

Lemma generatePinyinFallback_components_witness :
  js "你好吗" <> [] /\ (32%N ∉ js "你好吗")
  /\ OpenAI.generatePinyinFallback (js "你 好")
     = join OpenAI.space
         (map (fun c => default [c] (assoc [c] OpenAI.pinyinMap)) (js "你 好"))
  /\ length (split OpenAI.space (OpenAI.generatePinyinFallback (js "你好吗")))
     = length (js "你好吗").
Proof.
  assert (js "你好吗" <> []) as H1 by (vm_compute; discriminate).
  assert (32%N ∉ js "你好吗") as H2 by (apply spaceFree_spec; vm_compute; reflexivity).
  split; [exact H1|]. split; [exact H2|]. split.
  - exact (proj1 generatePinyinFallback_components (js "你 好")).
  - exact (proj2 (proj2 generatePinyinFallback_components (js "你好吗") H1 H2)).
Defined.

(** C7 as stated fails on an input with a space, which is sent to itself
    and then counted as a separator, and on the empty input, whose output
    still has one component. *)
Lemma generatePinyinFallback_space_counterexample :
  OpenAI.generatePinyinFallback (js "你 好") = js "nǐ   hǎo"
  /\ length (split OpenAI.space (OpenAI.generatePinyinFallback (js "你 好"))) = 4%nat
  /\ length (js "你 好") = 3%nat
  /\ length (split OpenAI.space (OpenAI.generatePinyinFallback [])) = 1%nat.
Proof. vm_compute. repeat split; reflexivity. Qed.

Example generatePinyinFallback_unknown :
  OpenAI.generatePinyinFallback (js "猫x狗") = js "māo x gǒu".
Proof. vm_compute. reflexivity. Qed.

(** ** Cleanup of a reply before [JSON.parse] *)

Lemma split_lookup_0 (sep s : jsstring) :
  sep <> [] ->
  split sep s !! 0%nat
  = Some (match breakOn sep s with Some (a, _) => a | None => s end).
Proof.
  intros Hsep. unfold split. destruct sep as [|x sep]; [done|].
  cbn [split_fuel]. by destruct (breakOn (x :: sep) s) as [[a b]|].
Qed.

Lemma split_lookup_1 (sep s : jsstring) :
  sep <> [] ->
  split sep s !! 1%nat
  = match breakOn sep s with
    | Some (_, b) =>
      Some (match breakOn sep b with Some (a', _) => a' | None => b end)
    | None => None
    end.
Proof.
  intros Hsep. unfold split. destruct sep as [|x sep]; [done|].
  cbn [split_fuel]. destruct (breakOn (x :: sep) s) as [[a b]|] eqn:E; [|done].
  apply breakOn_Some in E. subst s. rewrite length_app. simpl.
  rewrite Nat.add_succ_r. cbn [split_fuel].
  by destruct (breakOn (x :: sep) b) as [[a' b']|].
Qed.

Lemma startsWith_drop_app (p a r : jsstring) (i : nat) :
  startsWith p (drop i a) = true -> startsWith p (drop i (a ++ r)) = true.
Proof.
  intros H. destruct (decide (i <= length a)%nat) as [Hi|Hi].
  - rewrite drop_app_le by done. apply startsWith_spec in H as [r' ->].
    apply startsWith_spec. exists (r' ++ r). by rewrite <- app_assoc.
  - rewrite drop_ge in H by lia. destruct p; [done|discriminate].
Qed.

Lemma startsWith_app_l (p q s : jsstring) :
  startsWith (p ++ q) s = true -> startsWith p s = true.
Proof.
  rewrite !startsWith_spec. intros [r ->]. exists (q ++ r). by rewrite <- app_assoc.
Qed.

Lemma fenceJson_fence : Server.fenceJson = Server.fence ++ js "json".
Proof. reflexivity. Qed.

(** The code never reaches the missing-element TypeError. *)
Lemma stripFence_total (t : jsstring) : is_Some (Server.stripFence t).
Proof.
  unfold Server.stripFence.
  destruct (includes Server.fenceJson t) eqn:E1.
  - apply includes_true in E1 as (a & b & E).
    rewrite split_lookup_1, E by done. rewrite split_lookup_0 by done. eauto.
  - destruct (includes Server.fence t) eqn:E2; [|eauto].
    apply includes_true in E2 as (a & b & E).
    rewrite split_lookup_1, E by done. rewrite split_lookup_0 by done. eauto.
Qed.

(** The block between the fences, when the closing fence is not glued to
    a second [```json]. *)
Lemma fenced_block (rest mid post : jsstring) :
  breakOn Server.fence rest = Some (mid, post) ->
  startsWith (js "`json") post = false ->
  startsWith (js "``json") post = false ->
  match breakOn Server.fence
          (match breakOn Server.fenceJson rest with
           | Some (a, _) => a
           | None => rest
           end) with
  | Some (m, _) => m
  | None => match breakOn Server.fenceJson rest with
            | Some (a, _) => a
            | None => rest
            end
  end = mid.
Proof.
  intros Hmid H1 H2.
  pose proof (breakOn_first _ _ _ _ Hmid) as Hfirst.
  pose proof (breakOn_Some _ _ _ _ Hmid) as Hrest.
  destruct (breakOn Server.fenceJson rest) as [[a b]|] eqn:Ea.
  2: { by rewrite Hmid. }
  pose proof (breakOn_Some _ _ _ _ Ea) as Hrest'.
  assert (startsWith Server.fence (drop (length a) rest) = true) as Hocc.
  { rewrite Hrest', drop_app_length. rewrite fenceJson_fence, <- app_assoc.
    apply startsWith_spec. eauto. }
  assert (forall i, startsWith Server.fence (drop i a) = true -> (length mid <= i)%nat)
    as Hina.
  { intros i Hi. destruct (decide (length mid <= i)%nat); [done|].
    assert (startsWith Server.fence (drop i rest) = true) as Hc.
    { rewrite Hrest'. by apply startsWith_drop_app. }
    rewrite Hfirst in Hc by lia. done. }
  assert (length mid <= length a)%nat as Hle.
  { destruct (decide (length mid <= length a)%nat); [done|].
    rewrite Hfirst in Hocc by lia. done. }
  assert (exists d, a = mid ++ d /\ Server.fence ++ post = d ++ Server.fenceJson ++ b)
    as (d & -> & Hd).
  { rewrite Hrest in Hrest'. apply app_eq_app in Hrest' as [l [[Hm Hl]|[Hm Hl]]].
    - rewrite Hm, length_app in Hle. destruct l; [|simpl in Hle; lia].
      rewrite app_nil_r in Hm. exists []. rewrite app_nil_r.
      split; [done|]. exact (eq_sym Hl).
    - eauto. }
  destruct d as [|x [|y [|z d]]].
  - rewrite app_nil_r. rewrite breakOn_none_intro; [done|].
    intros i. destruct (startsWith Server.fence (drop i mid)) eqn:E; [|done].
    pose proof (Hina i) as Hi. rewrite app_nil_r in Hi. specialize (Hi E).
    rewrite drop_ge in E by done. done.
  - exfalso. unfold Server.fence, Server.fenceJson in Hd. simpl in Hd.
    inversion Hd; subst. vm_compute in H1. discriminate.
  - exfalso. unfold Server.fence, Server.fenceJson in Hd. simpl in Hd.
    inversion Hd; subst. vm_compute in H2. discriminate.
  - unfold Server.fence, Server.fenceJson in Hd. simpl in Hd.
    inversion Hd; subst.
    change (mid ++ 96%N :: 96%N :: 96%N :: d) with (mid ++ Server.fence ++ d).
    rewrite breakOn_intro; [done|].
    intros i Hi. destruct (startsWith Server.fence (drop i (mid ++ Server.fence ++ d))) eqn:E; [|done].
    apply Hina in E. lia.
Qed.

Lemma breakOn_unit_Some (x : N) (s a b : jsstring) :
  breakOn [x] s = Some (a, b) -> s = a ++ x :: b /\ (x ∉ a).
Proof.
  revert a b. induction s as [|c s IH]; intros a b; [done|].
  cbn [breakOn startsWith]. destruct (N.eqb_spec x c) as [->|Hne]; simpl.
  - intros [= <- <-]. split; [done|]. apply not_elem_of_nil.
  - destruct (breakOn [x] s) as [[a' b']|] eqn:E; [|done].
    intros [= <- <-]. destruct (IH a' b' eq_refl) as [-> Hx].
    split; [done|]. intros H. apply elem_of_cons in H as [?|?]; done.
Qed.

Lemma lastIndexOf_from_unit (x : N) (s : jsstring) (i best : Z) :
  ((x ∉ s) /\ lastIndexOf_from [x] s i best = best)
  \/ (exists a b, s = a ++ x :: b /\ (x ∉ b)
                  /\ lastIndexOf_from [x] s i best = i + Z.of_nat (length a)).
Proof.
  revert i best. induction s as [|c s IH]; intros i best.
  - left. split; [apply not_elem_of_nil | done].
  - cbn [lastIndexOf_from startsWith].
    destruct (IH (i + 1) (if (x =? c)%N && true then i else best))
      as [[Hx ->]|(a & b & -> & Hb & ->)].
    + destruct (N.eqb_spec x c) as [->|Hne]; simpl.
      * right. exists [], s. simpl. split; [done|]. split; [done|]. lia.
      * left. split; [|done].
        intros H. apply elem_of_cons in H as [?|?]; done.
    + right. exists (c :: a), b. simpl. split; [done|]. split; [done|]. lia.
Qed.

(** When the first [{] lies before the last [}], what is kept runs from
    that brace to that brace. *)
Lemma extractJson_braces (t : jsstring) :
  indexOf Server.openBrace t <> -1 ->
  indexOf Server.openBrace t < lastIndexOf Server.closeBrace t ->
  exists a body b,
    t = a ++ 123%N :: body ++ 125%N :: b
    /\ (123%N ∉ a) /\ (125%N ∉ b)
    /\ indexOf Server.openBrace t = Z.of_nat (length a)
    /\ lastIndexOf Server.closeBrace t = Z.of_nat (length a + 1 + length body)
    /\ Server.extractJson t = 123%N :: body ++ [125%N].
Proof.
  intros Hi Hlt. unfold Server.extractJson.
  remember (indexOf Server.openBrace t) as i eqn:Ei.
  remember (lastIndexOf Server.closeBrace t) as j eqn:Ej.
  unfold indexOf, Server.openBrace in Ei.
  destruct (breakOn [123%N] t) as [[a r]|] eqn:Eb; [|done].
  apply breakOn_unit_Some in Eb as [Ht Ha].
  unfold lastIndexOf, Server.closeBrace in Ej.
  destruct (lastIndexOf_from_unit 125%N t 0 (-1)) as [[_ Hj]|(a2 & b & Ht2 & Hb & Hj)].
  { rewrite Hj in Ej. lia. }
  rewrite Hj in Ej. simpl in Ej.
  assert (exists body, a2 = a ++ 123%N :: body) as [body ->].
  { rewrite Ht in Ht2. apply app_eq_app in Ht2 as [l [[-> Hl]|[-> Hl]]].
    - rewrite length_app in Ei. lia.
    - destruct l as [|c l]; [rewrite app_nil_r in Ej; lia|].
      injection Hl as <- Hl. eauto. }
  exists a, body, b. rewrite <- app_assoc in Ht2. simpl in Ht2.
  split; [done|]. split; [done|]. split; [done|]. split; [done|].
  split. { rewrite Ej, length_app. simpl. lia. }
  assert (negb (i =? -1) && negb (j =? -1) && (j >? i) = true) as ->.
  { rewrite !andb_true_iff, !negb_true_iff, !Z.eqb_neq. rewrite Z.gtb_ltb, Z.ltb_lt. lia. }
  unfold substring. rewrite Ht2 at 2 3. rewrite Ht2 at 1.
  rewrite length_app in Ej. simpl in Ej.
  assert (Z.of_nat (length t) = Z.of_nat (length a) + 1 + Z.of_nat (length body) + 1
                                + Z.of_nat (length b)) as Hlen.
  { rewrite Ht2. rewrite !length_app. simpl. rewrite length_app. simpl. lia. }
  rewrite <- Ht2, Hlen.
  replace (Z.to_nat (_ - _)) with (S (length body + 1)) by lia.
  replace (Z.to_nat (Z.min _ _)) with (length a) by lia.
  rewrite Ht2, drop_app_length. simpl. f_equal.
  change (body ++ 125%N :: b) with (body ++ [125%N] ++ b).
  rewrite app_assoc. apply take_app_length'. rewrite length_app. simpl. lia.
Qed.

Example isoDate_epoch : Node.isoDate 0 = js "1970-01-01".
Proof. vm_compute. reflexivity. Qed.

Example isoDate_2026 : Node.isoDate 1793660400000 = js "2026-11-02".
Proof. vm_compute. reflexivity. Qed.

Example isoDate_leap : Node.isoDate 1709164800000 = js "2024-02-29".
Proof. vm_compute. reflexivity. Qed.

Example JSON_parse_object :
  Node.JSON_parse (js "{ }") = Ok (VObj [])
  /\ Node.JSON_parse (js "[1, -0.0e3, [true, null]]")
     = Ok (VArr [VNum true (js "1"); VNum false (js "-0.0e3");
                 VArr [VBool true; VNull] []] [])
  /\ (exists e, Node.JSON_parse (js "I cannot help with that.") = Throw e)
  /\ (exists e, Node.JSON_parse (js "[1]`") = Throw e)
  /\ (exists e, Node.JSON_parse [] = Throw e).
Proof. vm_compute. repeat split; eauto. Qed.

(** C6, as amended.  For a reply whose trimmed text contains [```json]:
    when the first [```] after the first [```json] is not glued to a second
    [```json] (it is not followed by [`json] or [``json]), the fence step
    leaves the trimmed text strictly between the two; when no [```]
    follows, it leaves the trimmed remainder of the reply.  The step never
    throws, and whatever text [t] it leaves, [JSON.parse] receives
    [extractJson t]: when the first [{] of [t] lies before its last [}],
    that is the text from this [{] to this [}], everything outside dropped.
    ([breakOn] finds first occurrences: [breakOn_Some], [breakOn_first].) *)
Theorem cleanResponseText_spec :
  (forall reply pre rest mid post,
      breakOn Server.fenceJson (trim reply) = Some (pre, rest) ->
      breakOn Server.fence rest = Some (mid, post) ->
      startsWith (js "`json") post = false ->
      startsWith (js "``json") post = false ->
      Server.stripFence (trim reply) = Some (trim mid))
  /\ (forall reply pre rest,
      breakOn Server.fenceJson (trim reply) = Some (pre, rest) ->
      breakOn Server.fence rest = None ->
      Server.stripFence (trim reply) = Some (trim rest))
  /\ (forall reply, exists t,
      Server.stripFence (trim reply) = Some t
      /\ Server.cleanResponseText reply = Some (Server.extractJson t))
  /\ (forall t,
      indexOf Server.openBrace t <> -1 ->
      indexOf Server.openBrace t < lastIndexOf Server.closeBrace t ->
      exists a body b,
        t = a ++ Server.openBrace ++ body ++ Server.closeBrace ++ b
        /\ (123%N ∉ a) /\ (125%N ∉ b)
        /\ Server.extractJson t = Server.openBrace ++ body ++ Server.closeBrace).
Proof.
  split; [|split; [|split]].
  - intros reply pre rest mid post Hpre Hmid H1 H2.
    unfold Server.stripFence, includes. rewrite Hpre.
    rewrite split_lookup_1, Hpre by done. rewrite split_lookup_0 by done.
    f_equal. f_equal. by apply (fenced_block rest mid post).
  - intros reply pre rest Hpre Hnone.
    unfold Server.stripFence, includes. rewrite Hpre.
    rewrite split_lookup_1, Hpre by done. rewrite split_lookup_0 by done.
    assert (breakOn Server.fenceJson rest = None) as ->.
    { apply breakOn_none_intro. intros i.
      destruct (startsWith Server.fenceJson (drop i rest)) eqn:E; [|done].
      rewrite fenceJson_fence in E. apply startsWith_app_l in E.
      by rewrite (breakOn_None _ _ Hnone i) in E. }
    by rewrite Hnone.
  - intros reply. destruct (stripFence_total (trim reply)) as [t Ht].
    exists t. split; [done|]. unfold Server.cleanResponseText. by rewrite Ht.
  - intros t Hi Hlt.
    destruct (extractJson_braces t Hi Hlt) as (a & body & b & Ht & Ha & Hb & _ & _ & He).
    exists a, body, b. split; [|split; [done|split; [done|]]].
    + exact Ht.
    + exact He.
Qed.

Lemma cleanResponseText_spec_witness :
  breakOn Server.fenceJson (trim (js " Sure: ```json {a} ``` bye "))
    = Some (js "Sure: ", js " {a} ``` bye")
  /\ breakOn Server.fence (js " {a} ``` bye") = Some (js " {a} ", js " bye")
  /\ startsWith (js "`json") (js " bye") = false
  /\ startsWith (js "``json") (js " bye") = false
  /\ Server.stripFence (trim (js " Sure: ```json {a} ``` bye ")) = Some (js "{a}")
  /\ indexOf Server.openBrace (js "x{a}y}z") <> -1
  /\ indexOf Server.openBrace (js "x{a}y}z") < lastIndexOf Server.closeBrace (js "x{a}y}z")
  /\ exists a body b,
      js "x{a}y}z" = a ++ Server.openBrace ++ body ++ Server.closeBrace ++ b
      /\ (123%N ∉ a) /\ (125%N ∉ b)
      /\ Server.extractJson (js "x{a}y}z")
         = Server.openBrace ++ body ++ Server.closeBrace.
Proof.
  assert (breakOn Server.fenceJson (trim (js " Sure: ```json {a} ``` bye "))
          = Some (js "Sure: ", js " {a} ``` bye")) as H1 by (vm_compute; reflexivity).
  assert (breakOn Server.fence (js " {a} ``` bye") = Some (js " {a} ", js " bye"))
    as H2 by (vm_compute; reflexivity).
  assert (startsWith (js "`json") (js " bye") = false) as H3 by (vm_compute; reflexivity).
  assert (startsWith (js "``json") (js " bye") = false) as H4 by (vm_compute; reflexivity).
  assert (indexOf Server.openBrace (js "x{a}y}z") <> -1) as H5 by (vm_compute; discriminate).
  assert (indexOf Server.openBrace (js "x{a}y}z")
          < lastIndexOf Server.closeBrace (js "x{a}y}z")) as H6 by (vm_compute; reflexivity).
  split; [exact H1|]. split; [exact H2|]. split; [exact H3|]. split; [exact H4|].
  split; [exact (proj1 cleanResponseText_spec _ _ _ _ _ H1 H2 H3 H4)|].
  split; [exact H5|]. split; [exact H6|].
  exact (proj2 (proj2 (proj2 cleanResponseText_spec)) _ H5 H6).
Defined.

(** C6 as stated fails when the closing fence is glued to a second
    [```json]: the text strictly between the first [```json] and the next
    [```] is [[1]], while the code keeps [[1]`] and hands that to
    [JSON.parse]. *)
Lemma cleanResponseText_counterexample :
  breakOn Server.fenceJson (trim (js "```json[1]````json"))
    = Some ([], js "[1]````json")
  /\ breakOn Server.fence (js "[1]````json") = Some (js "[1]", js "`json")
  /\ Server.stripFence (trim (js "```json[1]````json")) = Some (js "[1]`")
  /\ Server.cleanResponseText (js "```json[1]````json") = Some (js "[1]`")
  /\ js "[1]`" <> trim (js "[1]").
Proof. vm_compute. repeat split; try reflexivity. discriminate. Qed.

Example cleanResponseText_plain :
  Server.cleanResponseText (js "Here you go: {x} thanks") = Some (js "{x}").
Proof. vm_compute. reflexivity. Qed.

Example cleanResponseText_bare_fence :
  Server.cleanResponseText (js "``` {x} ```") = Some (js "{x}").
Proof. vm_compute. reflexivity. Qed.

(** ** Caption validation *)

Lemma string_eqb_eq (a b : jsstring) : string_eqb a b = true <-> a = b.
Proof. unfold string_eqb. apply bool_decide_eq_true. Qed.

Lemma assoc_set_eq (k : jsstring) (v : JsVal) (l : list (jsstring * JsVal)) :
  assoc k (assoc_set k v l) = Some v.
Proof.
  induction l as [|[k' v'] l IH]; simpl.
  - unfold string_eqb. by rewrite bool_decide_eq_true_2.
  - destruct (string_eqb k k') eqn:E; simpl.
    + unfold string_eqb. by rewrite bool_decide_eq_true_2.
    + by rewrite E.
Qed.

Lemma assoc_set_ne (k k' : jsstring) (v : JsVal) (l : list (jsstring * JsVal)) :
  k <> k' -> assoc k' (assoc_set k v l) = assoc k' l.
Proof.
  intros Hne. induction l as [|[k2 v2] l IH]; simpl.
  - unfold string_eqb. rewrite bool_decide_eq_false_2; [done | congruence].
  - destruct (string_eqb k k2) eqn:E; simpl.
    + apply string_eqb_eq in E as <-.
      unfold string_eqb. rewrite !bool_decide_eq_false_2 by congruence. done.
    + by rewrite IH.
Qed.

(** A value with own properties: an object or an array. *)
Definition isObject (v : JsVal) : Prop :=
  match v with
  | VObj _ | VArr _ _ => True
  | _ => False
  end.

Lemma getProp_setProp_eq (c : JsVal) (k : jsstring) (x : JsVal) :
  isObject c -> getProp (setProp c k x) k = Some x.
Proof. destruct c; simpl; try done; intros _; by rewrite assoc_set_eq. Qed.

Lemma getProp_setProp_ne (c : JsVal) (k k' : jsstring) (x : JsVal) :
  k <> k' -> getProp (setProp c k x) k' = getProp c k'.
Proof. intros Hne. destruct c; simpl; try done; by rewrite assoc_set_ne. Qed.

Lemma setProp_isObject (c : JsVal) (k : jsstring) (x : JsVal) :
  isObject c -> isObject (setProp c k x).
Proof. by destruct c. Qed.

Lemma getProp_truthy_isObject (c : JsVal) (k : jsstring) (v : JsVal) :
  getProp c k = Some v -> truthy v = true -> isObject c.
Proof. destruct c; simpl; try done; by intros [= <-]. Qed.

(** The caption has a truthy field [k]: for a string, a non-empty one. *)
Definition hasField (c : JsVal) (k : jsstring) : Prop :=
  exists v, getProp c k = Some v /\ truthy v = true.

(** The caption's relevance is not the string ['low']. *)
Definition notLow (c : JsVal) : Prop :=
  exists v, getProp c (js "relevance") = Some v /\ isString v (js "low") = false.

(** A caption record as the data model describes it: an object whose
    [chinese] and [english] fields, when present, are strings. *)
Definition captionRecord (c : JsVal) : Prop :=
  exists props, c = VObj props
    /\ (forall v, assoc (js "chinese") props = Some v -> exists s, v = VStr s)
    /\ (forall v, assoc (js "english") props = Some v -> exists s, v = VStr s).

Section ServerCaptions.
Context (rt : Runtime).

Lemma keepCaption_true (c : JsVal) :
  Server.keepCaption rt c = Ok true ->
  hasField c (js "chinese") /\ hasField c (js "pinyin")
  /\ hasField c (js "english") /\ notLow c.
Proof.
  unfold Server.keepCaption, Server.prop, hasField, notLow.
  destruct (getProp c (js "chinese")) as [ch|] eqn:E1; cbn [exc_bind]; [|done].
  destruct (truthy ch) eqn:T1; cbn [negb]; [|done].
  destruct (getProp c (js "pinyin")) as [py|] eqn:E2; cbn [exc_bind]; [|done].
  destruct (truthy py) eqn:T2; cbn [negb]; [|done].
  destruct (getProp c (js "english")) as [en|] eqn:E3; cbn [exc_bind]; [|done].
  destruct (truthy en) eqn:T3; cbn [negb]; [|done].
  destruct (getProp c (js "relevance")) as [rel|] eqn:E4; cbn [exc_bind]; [|done].
  destruct (isString rel (js "low")) eqn:T4; [done|].
  intros _. repeat split; eexists; (split; [reflexivity|assumption]).
Qed.

Lemma server_validateLoop_spec (cs r : list JsVal) :
  Server.validateLoop rt cs = Ok r ->
  r `sublist_of` cs /\ Forall (fun c => Server.keepCaption rt c = Ok true) r.
Proof.
  revert r. induction cs as [|c cs IH]; intros r; cbn [Server.validateLoop].
  - intros [= <-]. split; constructor.
  - destruct (Server.keepCaption rt c) as [keep|] eqn:Ek; cbn [exc_bind]; [|done].
    destruct (Server.validateLoop rt cs) as [v|] eqn:Ev; cbn [exc_bind]; [|done].
    destruct (IH v eq_refl) as [Hs Hf].
    destruct keep; intros [= <-].
    + split; [by constructor | by constructor].
    + split; [by constructor | done].
Qed.

Lemma isGeneric_total (phrases : list jsstring) (c : JsVal) :
  captionRecord c -> hasField c (js "chinese") -> hasField c (js "english") ->
  exists b, Server.isGeneric rt phrases c = Ok b.
Proof.
  intros (props & -> & Hch & Hen) (ch & E1 & T1) (en & E3 & T3).
  cbn [getProp] in E1, E3.
  destruct (assoc (js "chinese") props) as [v1|] eqn:A1; cbn [default] in E1;
    [|injection E1 as <-; done].
  destruct (assoc (js "english") props) as [v3|] eqn:A3; cbn [default] in E3;
    [|injection E3 as <-; done].
  destruct (Hch v1 eq_refl) as [s1 ->]. destruct (Hen v3 eq_refl) as [s3 ->].
  induction phrases as [|ph phrases IH]; [by exists false|].
  cbn [Server.isGeneric]. unfold Server.prop. cbn [getProp].
  rewrite A1, A3. cbn [default from_option id exc_bind Server.lowerCased].
  destruct (includes ph (toLowerCase rt s1)); [by exists true|].
  destruct (includes ph (toLowerCase rt s3)); [by exists true|]. exact IH.
Qed.

Lemma keepCaption_total (c : JsVal) :
  captionRecord c -> exists b, Server.keepCaption rt c = Ok b.
Proof.
  intros Hrec. pose proof Hrec as (props & -> & Hch & Hen).
  unfold Server.keepCaption, Server.prop. cbn [getProp exc_bind].
  destruct (truthy (default VUndefined (assoc (js "chinese") props))) eqn:T1;
    cbn [negb]; [|by exists false].
  destruct (truthy (default VUndefined (assoc (js "pinyin") props))) eqn:T2;
    cbn [negb]; [|by exists false].
  destruct (truthy (default VUndefined (assoc (js "english") props))) eqn:T3;
    cbn [negb]; [|by exists false].
  destruct (isString _ (js "low")); [by exists false|].
  destruct (isGeneric_total Server.genericPhrases (VObj props) Hrec) as [b Hb].
  - eexists. split; [reflexivity | exact T1].
  - eexists. split; [reflexivity | exact T3].
  - rewrite Hb. cbn [exc_bind]. eauto.
Qed.

Lemma server_validateLoop_total (cs : list JsVal) :
  Forall captionRecord cs -> exists r, Server.validateLoop rt cs = Ok r.
Proof.
  induction 1 as [|c cs Hc _ [r IH]]; cbn [Server.validateLoop]; [eauto|].
  destruct (keepCaption_total c Hc) as [b ->]. cbn [exc_bind]. rewrite IH.
  cbn [exc_bind]. eauto.
Qed.

End ServerCaptions.

Ltac key_ne :=
  let H := fresh in intros H; vm_compute in H; discriminate H.

Lemma pinyinOf_nonEmpty (c : N) : nonEmpty (OpenAI.pinyinOf c) = true.
Proof.
  unfold OpenAI.pinyinOf. destruct (assoc [c] OpenAI.pinyinMap) as [p|]; [|done].
  by destruct (nonEmpty p) eqn:E.
Qed.

Lemma generatePinyinFallback_nonEmpty (s : jsstring) :
  s <> [] -> nonEmpty (OpenAI.generatePinyinFallback s) = true.
Proof.
  destruct s as [|c s]; [done|]. intros _. unfold OpenAI.generatePinyinFallback.
  pose proof (pinyinOf_nonEmpty c) as Hc.
  cbn [map join]. destruct (OpenAI.pinyinOf c); [done|].
  by destruct (map OpenAI.pinyinOf s).
Qed.

Definition arrayItems (v : JsVal) : list JsVal :=
  match v with
  | VArr items _ => items
  | _ => []
  end.

Section OpenAICaptions.
Context (rt : Runtime).

Lemma checkCaption_Some (c c' : JsVal) :
  OpenAI.checkCaption rt c = Ok (Some c') ->
  hasField c' (js "chinese") /\ hasField c' (js "pinyin")
  /\ hasField c' (js "english").
Proof.
  unfold OpenAI.checkCaption, Server.prop.
  destruct (getProp c (js "chinese")) as [ch|] eqn:E1; cbn [exc_bind]; [|done].
  destruct (getProp c (js "english")) as [en|] eqn:E3; cbn [exc_bind]; [|done].
  destruct (truthy ch) eqn:T1; cbn [negb orb]; [|done].
  destruct (truthy en) eqn:T3; cbn [negb orb]; [|done].
  pose proof (getProp_truthy_isObject _ _ _ E1 T1) as Hobj.
  destruct (OpenAI.trimmed rt _ ch) as [text|] eqn:Et; cbn [exc_bind]; [|done].
  destruct (OpenAI.hasChineseCharacters text); cbn [negb]; [|done].
  destruct (_ && _); [done|].
  destruct (length text <? 4)%nat eqn:Elen; [done|].
  destruct (OpenAI.hasProblematicPattern text); [done|].
  destruct (getProp c (js "pinyin")) as [py|] eqn:E2; cbn [exc_bind]; [|done].
  apply Nat.ltb_ge in Elen.
  assert ((length text <? 3)%nat = false) as -> by (apply Nat.ltb_ge; lia).
  set (c1 := if truthy py then c
             else setProp c (js "pinyin") (VStr (OpenAI.generatePinyinFallback text))).
  assert (isObject c1) as Hobj1.
  { subst c1. destruct (truthy py); [done | by apply setProp_isObject]. }
  assert (getProp c1 (js "chinese") = Some ch) as C1.
  { subst c1. destruct (truthy py); [done|].
    rewrite getProp_setProp_ne; [done | key_ne]. }
  assert (getProp c1 (js "english") = Some en) as C3.
  { subst c1. destruct (truthy py); [done|].
    rewrite getProp_setProp_ne; [done | key_ne]. }
  assert (hasField c1 (js "pinyin")) as (py' & C2 & T2).
  { subst c1. destruct (truthy py) eqn:T2; [by exists py|].
    eexists. split; [by apply getProp_setProp_eq|].
    apply generatePinyinFallback_nonEmpty. destruct text; [simpl in Elen; lia | done]. }
  destruct (getProp c1 (js "relevance")) as [rel|] eqn:E4; cbn [exc_bind]; [|done].
  rewrite andb_false_r. intros [= <-]. unfold hasField.
  rewrite !getProp_setProp_ne by key_ne. eauto 10.
Qed.

Lemma openai_validateLoop_spec (cs r : list JsVal) :
  OpenAI.validateLoop rt cs = Ok r ->
  exists kept, kept `sublist_of` cs
    /\ Forall2 (fun c c' => OpenAI.checkCaption rt c = Ok (Some c')) kept r.
Proof.
  revert r. induction cs as [|c cs IH]; intros r; cbn [OpenAI.validateLoop].
  - intros [= <-]. exists []. split; constructor.
  - destruct (OpenAI.checkCaption rt c) as [checked|] eqn:Ek; cbn [exc_bind]; [|done].
    destruct (OpenAI.validateLoop rt cs) as [v|] eqn:Ev; cbn [exc_bind]; [|done].
    destruct (IH v eq_refl) as (kept & Hs & Hf).
    destruct checked as [c'|]; intros [= <-].
    + exists (c :: kept). split; [by constructor | by constructor].
    + exists kept. split; [by constructor | done].
Qed.

Lemma checkCaption_total (c : JsVal) :
  captionRecord c -> exists o, OpenAI.checkCaption rt c = Ok o.
Proof.
  intros (props & -> & Hch & Hen).
  unfold OpenAI.checkCaption, Server.prop. cbn [getProp exc_bind].
  destruct (assoc (js "chinese") props) as [v1|] eqn:A1;
    cbn [default from_option id truthy negb orb]; [|eauto].
  destruct (Hch v1 eq_refl) as [s1 ->].
  destruct (_ || _); [eauto|]. cbn [OpenAI.trimmed exc_bind].
  repeat (match goal with |- context [if ?b then _ else _] => destruct b end;
          eauto);
    cbn [setProp getProp exc_bind];
    match goal with |- context [if ?b then _ else _] => destruct b end; eauto.
Qed.

Lemma openai_validateLoop_total (cs : list JsVal) :
  Forall captionRecord cs -> exists r, OpenAI.validateLoop rt cs = Ok r.
Proof.
  induction 1 as [|c cs Hc _ [r IH]]; cbn [OpenAI.validateLoop]; [eauto|].
  destruct (checkCaption_total c Hc) as [o ->]. cbn [exc_bind]. rewrite IH.
  cbn [exc_bind]. eauto.
Qed.

End OpenAICaptions.

(** What [validateCaptions] of [server.js] requires of a caption it
    returns: non-empty [chinese] and [english] strings, a truthy [pinyin],
    a relevance other than ['low'], and no generic phrase in the
    lower-cased Chinese or English text. *)
Definition accepted (rt : Runtime) (c : JsVal) : Prop :=
  exists chinese pinyin english relevance,
    getProp c (js "chinese") = Some (VStr chinese) /\ chinese <> []
    /\ getProp c (js "pinyin") = Some pinyin /\ truthy pinyin = true
    /\ getProp c (js "english") = Some (VStr english) /\ english <> []
    /\ getProp c (js "relevance") = Some relevance
    /\ relevance <> VStr (js "low")
    /\ Forall (fun phrase =>
                 includes phrase (toLowerCase rt chinese) = false
                 /\ includes phrase (toLowerCase rt english) = false)
              Server.genericPhrases.

(** The caption [c'] that [validateCaptions] of the OpenAI revision
    returns for an input caption [c] it keeps: the Chinese text, trimmed,
    has at least four code units, one of them a CJK character; the English
    field is truthy; the pinyin is that of [c] or, when that is falsy, the
    fallback pinyin of the trimmed Chinese text; the relevance is that of
    [c] or, when that is falsy, ['medium']; every other field is as in
    [c]. *)
Definition completed (c c' : JsVal) : Prop :=
  exists chinese english pinyin relevance,
    getProp c (js "chinese") = Some (VStr chinese)
    /\ getProp c (js "english") = Some english
    /\ getProp c (js "pinyin") = Some pinyin
    /\ getProp c (js "relevance") = Some relevance
    /\ (4 <= length (trim chinese))%nat
    /\ OpenAI.hasChineseCharacters (trim chinese) = true
    /\ truthy english = true
    /\ getProp c' (js "pinyin")
       = Some (orElse pinyin (VStr (OpenAI.generatePinyinFallback (trim chinese))))
    /\ truthy (orElse pinyin (VStr (OpenAI.generatePinyinFallback (trim chinese))))
       = true
    /\ getProp c' (js "relevance") = Some (orElse relevance (VStr (js "medium")))
    /\ forall k, k <> js "pinyin" -> k <> js "relevance" ->
                 getProp c' k = getProp c k.

Section CaptionResults.
Context (rt : Runtime).

Lemma isGeneric_false (phrases : list jsstring) (c chinese english : JsVal) :
  getProp c (js "chinese") = Some chinese ->
  getProp c (js "english") = Some english ->
  Server.isGeneric rt phrases c = Ok false ->
  phrases = []
  \/ exists ch en,
       chinese = VStr ch /\ english = VStr en
       /\ Forall (fun phrase =>
                    includes phrase (toLowerCase rt ch) = false
                    /\ includes phrase (toLowerCase rt en) = false) phrases.
Proof.
  intros E1 E3. induction phrases as [|phrase rest IH]; [by left|].
  cbn [Server.isGeneric]. unfold Server.prop. rewrite E1, E3. cbn [exc_bind].
  destruct chinese as [| |?|? ?|ch|? ?|?]; cbn [Server.lowerCased exc_bind];
    try (intros Hx; discriminate Hx).
  destruct (includes phrase (toLowerCase rt ch)) eqn:I1;
    [intros Hx; discriminate Hx|].
  destruct english as [| |?|? ?|en|? ?|?]; cbn [Server.lowerCased exc_bind];
    try (intros Hx; discriminate Hx).
  destruct (includes phrase (toLowerCase rt en)) eqn:I2;
    [intros Hx; discriminate Hx|].
  intros H. right. exists ch, en. split; [done|]. split; [done|].
  constructor; [done|].
  destruct (IH H) as [-> | (ch' & en' & [= <-] & [= <-] & Hf)];
    [constructor | exact Hf].
Qed.

Lemma keepCaption_accepted (c : JsVal) :
  Server.keepCaption rt c = Ok true -> accepted rt c.
Proof.
  unfold Server.keepCaption, Server.prop.
  destruct (getProp c (js "chinese")) as [ch|] eqn:E1; cbn [exc_bind]; [|done].
  destruct (truthy ch) eqn:T1; cbn [negb]; [|done].
  destruct (getProp c (js "pinyin")) as [py|] eqn:E2; cbn [exc_bind]; [|done].
  destruct (truthy py) eqn:T2; cbn [negb]; [|done].
  destruct (getProp c (js "english")) as [en|] eqn:E3; cbn [exc_bind]; [|done].
  destruct (truthy en) eqn:T3; cbn [negb]; [|done].
  destruct (getProp c (js "relevance")) as [rel|] eqn:E4; cbn [exc_bind]; [|done].
  destruct (isString rel (js "low")) eqn:T4; [done|].
  destruct (Server.isGeneric rt Server.genericPhrases c) as [g|e] eqn:G;
    cbn [exc_bind]; [|done].
  destruct g; [done|]. intros _.
  destruct (isGeneric_false _ _ _ _ E1 E3 G) as [Hnil | (s1 & s3 & -> & -> & Hf)];
    [discriminate Hnil|].
  exists s1, py, s3, rel.
  split; [done|]. split; [by intros ->|]. split; [done|]. split; [done|].
  split; [done|]. split; [by intros ->|]. split; [done|]. split; [|exact Hf].
  intros ->. unfold isString, string_eqb in T4.
  by rewrite bool_decide_eq_true_2 in T4.
Qed.

(** When [checkCaption] keeps a caption: the tests passed and the caption
    pushed. *)
Lemma checkCaption_kept (c c' : JsVal) :
  OpenAI.checkCaption rt c = Ok (Some c') <->
  exists chinese english pinyin relevance,
    getProp c (js "chinese") = Some (VStr chinese)
    /\ getProp c (js "english") = Some english
    /\ getProp c (js "pinyin") = Some pinyin
    /\ getProp c (js "relevance") = Some relevance
    /\ nonEmpty chinese = true /\ truthy english = true
    /\ OpenAI.hasChineseCharacters (trim chinese) = true
    /\ (OpenAI.englishWordCount (trim chinese) >? 2)
       && (3 * OpenAI.englishWordCount (trim chinese)
           >? OpenAI.chineseCharacterCount (trim chinese)) = false
    /\ (4 <= length (trim chinese))%nat
    /\ OpenAI.hasProblematicPattern (trim chinese) = false
    /\ c' = setProp
              (if truthy pinyin then c
               else setProp c (js "pinyin")
                      (VStr (OpenAI.generatePinyinFallback (trim chinese))))
              (js "relevance") (orElse relevance (VStr (js "medium"))).
Proof.
  assert (forall (x : JsVal) (text : jsstring),
            getProp (if truthy x then c
                     else setProp c (js "pinyin")
                            (VStr (OpenAI.generatePinyinFallback text)))
                    (js "relevance")
            = getProp c (js "relevance")) as Hrel.
  { intros x text. destruct (truthy x); [done|].
    apply getProp_setProp_ne. key_ne. }
  unfold OpenAI.checkCaption, Server.prop. split.
  - destruct (getProp c (js "chinese")) as [ch|] eqn:E1; cbn [exc_bind]; [|done].
    destruct (getProp c (js "english")) as [en|] eqn:E3; cbn [exc_bind]; [|done].
    destruct (truthy ch) eqn:T1; cbn [negb orb]; [|done].
    destruct (truthy en) eqn:T3; cbn [negb orb]; [|done].
    destruct ch as [| |?|? ?|chinese|? ?|?]; cbn [OpenAI.trimmed exc_bind];
      try done.
    destruct (OpenAI.hasChineseCharacters (trim chinese)) eqn:Hc; cbn [negb];
      [|done].
    destruct (_ && _) eqn:Hw; [done|].
    destruct (length (trim chinese) <? 4)%nat eqn:Elen; [done|].
    destruct (OpenAI.hasProblematicPattern (trim chinese)) eqn:Hp; [done|].
    destruct (getProp c (js "pinyin")) as [py|] eqn:E2; cbn [exc_bind]; [|done].
    rewrite Hrel.
    destruct (getProp c (js "relevance")) as [rel|] eqn:E4; cbn [exc_bind]; [|done].
    apply Nat.ltb_ge in Elen.
    assert ((length (trim chinese) <? 3)%nat = false) as ->
      by (apply Nat.ltb_ge; lia).
    rewrite andb_false_r. intros [= <-].
    exists chinese, en, py, rel. repeat split; done.
  - intros (chinese & en & py & rel & E1 & E3 & E2 & E4 & T1 & T3 & Hc & Hw & Hlen
            & Hp & ->).
    rewrite E1, E3. cbn [exc_bind truthy]. rewrite T1, T3.
    cbn [negb orb OpenAI.trimmed exc_bind]. rewrite Hc. cbn [negb]. rewrite Hw.
    assert ((length (trim chinese) <? 4)%nat = false) as ->
      by (apply Nat.ltb_ge; lia).
    rewrite Hp, E2. cbn [exc_bind]. rewrite Hrel, E4. cbn [exc_bind].
    assert ((length (trim chinese) <? 3)%nat = false) as ->
      by (apply Nat.ltb_ge; lia).
    by rewrite andb_false_r.
Qed.

Lemma checkCaption_completed (c c' : JsVal) :
  OpenAI.checkCaption rt c = Ok (Some c') -> completed c c'.
Proof.
  intros H. apply checkCaption_kept in H
    as (chinese & en & py & rel & E1 & E3 & E2 & E4 & T1 & T3 & Hc & Hw & Hlen
        & Hp & ->).
  assert (isObject c) as Hobj by (by apply (getProp_truthy_isObject _ _ _ E1)).
  exists chinese, en, py, rel.
  split; [done|]. split; [done|]. split; [done|]. split; [done|].
  split; [done|]. split; [done|]. split; [done|].
  split; [|split; [|split]].
  - rewrite getProp_setProp_ne by key_ne. unfold orElse.
    destruct (truthy py); [done|]. by apply getProp_setProp_eq.
  - unfold orElse. destruct (truthy py) eqn:T2; [done|]. cbn [truthy].
    apply generatePinyinFallback_nonEmpty.
    intros Ht. rewrite Ht in Hlen. cbn [length] in Hlen. lia.
  - apply getProp_setProp_eq. destruct (truthy py); [done|].
    by apply setProp_isObject.
  - intros k Hk1 Hk2. rewrite getProp_setProp_ne by done.
    destruct (truthy py); [done|]. by rewrite getProp_setProp_ne.
Qed.

(** [checkCaption] does not look at the relevance: a caption it keeps is
    kept as well when its relevance is ['low'], and stays ['low']. *)
Lemma checkCaption_low (c c' : JsVal) :
  OpenAI.checkCaption rt c = Ok (Some c') ->
  exists c'',
    OpenAI.checkCaption rt (setProp c (js "relevance") (VStr (js "low")))
    = Ok (Some c'')
    /\ getProp c'' (js "relevance") = Some (VStr (js "low")).
Proof.
  intros H. apply checkCaption_kept in H
    as (chinese & en & py & rel & E1 & E3 & E2 & E4 & T1 & T3 & Hc & Hw & Hlen
        & Hp & ->).
  assert (isObject c) as Hobj by (by apply (getProp_truthy_isObject _ _ _ E1)).
  set (low := setProp c (js "relevance") (VStr (js "low"))).
  assert (isObject low) as Hlow by (by apply setProp_isObject).
  eexists. split.
  - apply checkCaption_kept. exists chinese, en, py, (VStr (js "low")).
    split; [subst low; by rewrite getProp_setProp_ne by key_ne|].
    split; [subst low; by rewrite getProp_setProp_ne by key_ne|].
    split; [subst low; by rewrite getProp_setProp_ne by key_ne|].
    split; [subst low; by apply getProp_setProp_eq|].
    repeat (split; [done|]). reflexivity.
  - rewrite getProp_setProp_eq.
    + reflexivity.
    + destruct (truthy py); [done|]. by apply setProp_isObject.
Qed.

Lemma openai_validateLoop_completed (cs r : list JsVal) :
  OpenAI.validateLoop rt cs = Ok r ->
  exists kept, kept `sublist_of` cs /\ Forall2 completed kept r.
Proof.
  intros H. apply openai_validateLoop_spec in H as (kept & Hs & Hf).
  exists kept. split; [done|].
  eapply Forall2_impl; [exact Hf|]. apply checkCaption_completed.
Qed.

Lemma openai_validateCaptions_single (c c' : JsVal)
    (props : list (jsstring * JsVal)) :
  OpenAI.validateCaptions rt (VArr [c] props) = Ok [c'] <->
  OpenAI.checkCaption rt c = Ok (Some c').
Proof.
  unfold OpenAI.validateCaptions. cbn [OpenAI.validateLoop].
  destruct (OpenAI.checkCaption rt c) as [[x|]|e]; cbn [exc_bind length Nat.ltb Nat.leb take];
    split; intros H; try discriminate H; by injection H as ->.
Qed.

End CaptionResults.


(** Sample captions: a good one, one of low relevance, one without Chinese
    text, one with a generic English sentence, and three more good ones. *)
Definition sampleCaptions : JsVal :=
  VArr
    [OpenAI.caption (js "这只橘猫在窗台上晒太阳。") (js "zhè zhī jú māo")
       (js "The orange cat is sunbathing.") (js "high");
     OpenAI.caption (js "天空很蓝很蓝。") (js "tiān kōng hěn lán")
       (js "The sky is very blue.") (js "low");
     VObj [(js "pinyin", VStr (js "māo")); (js "english", VStr (js "cat"))];
     OpenAI.caption (js "这是一只很小的猫。") (js "zhè shì yī zhī māo")
       (js "This is a very small cat.") (js "high");
     OpenAI.caption (js "它的眼睛又大又圆。") (js "tā de yǎn jīng")
       (js "Its eyes are big and round.") (js "medium");
     OpenAI.caption (js "我也想养一只猫。") (js "wǒ yě xiǎng yǎng")
       (js "I want a cat too.") (js "high");
     OpenAI.caption (js "窗外的阳光很温暖。") (js "chuāng wài de yáng guāng")
       (js "The sunlight outside is warm.") (js "high")] [].


Example server_validateCaptions_sample :
  Server.validateCaptions Node.runtime sampleCaptions
  = Ok [OpenAI.caption (js "这只橘猫在窗台上晒太阳。") (js "zhè zhī jú māo")
          (js "The orange cat is sunbathing.") (js "high");
        OpenAI.caption (js "它的眼睛又大又圆。") (js "tā de yǎn jīng")
          (js "Its eyes are big and round.") (js "medium");
        OpenAI.caption (js "我也想养一只猫。") (js "wǒ yě xiǎng yǎng")
          (js "I want a cat too.") (js "high")].
Proof. vm_compute. reflexivity. Qed.


Example openai_validateCaptions_fills_pinyin :
  OpenAI.validateCaptions Node.runtime
    (VArr [VObj [(js "chinese", VStr (js " 你好朋友 "));
                 (js "english", VStr (js "Hello friend"))]] [])
  = Ok [VObj [(js "chinese", VStr (js " 你好朋友 "));
              (js "english", VStr (js "Hello friend"));
              (js "pinyin", VStr (js "nǐ hǎo péng yǒu"));
              (js "relevance", VStr (js "medium"))]].
Proof. vm_compute. reflexivity. Qed.

Example openai_validateCaptions_mixed_language :
  OpenAI.validateCaptions Node.runtime
    (VArr [OpenAI.caption (js "这是 a person 在笑") (js "zhè shì") (js "A person")
             (js "high")] [])
  = Ok [].
Proof. vm_compute. reflexivity. Qed.

(** ** The image hash *)

Lemma hex_length (bs : list N) : length (hex bs) = (2 * length bs)%nat.
Proof. induction bs as [|b bs IH]; simpl; [done | lia]. Qed.

Lemma digest256_length (s : State256) : length (digest256 s) = 32%nat.
Proof. reflexivity. Qed.

Lemma land_255_lt (w : N) : (N.land w 255 < 256)%N.
Proof.
  change 255%N with (N.ones 8). rewrite N.land_ones.
  apply N.mod_lt. discriminate.
Qed.

Lemma bytes_be_bound (w : N) : Forall (fun b => (b < 256)%N) (bytes_be w).
Proof. unfold bytes_be. repeat constructor; apply land_255_lt. Qed.

Lemma digest256_bound (s : State256) : Forall (fun b => (b < 256)%N) (digest256 s).
Proof. unfold digest256. rewrite !Forall_app. repeat split; apply bytes_be_bound. Qed.

(** A lowercase hexadecimal digit: [0-9] or [a-f]. *)
Definition isLowerHex (c : N) : bool :=
  (((48 <=? c) && (c <=? 57)) || ((97 <=? c) && (c <=? 102)))%N.

Lemma hexDigit_lower (n : N) : (n < 16)%N -> isLowerHex (hexDigit n) = true.
Proof.
  intros Hn. unfold hexDigit, isLowerHex.
  destruct (N.ltb_spec n 10).
  - apply orb_true_iff. left. apply andb_true_iff. split; apply N.leb_le; lia.
  - apply orb_true_iff. right. apply andb_true_iff. split; apply N.leb_le; lia.
Qed.

Lemma hex_lower (bs : list N) :
  Forall (fun b => (b < 256)%N) bs -> Forall (fun c => isLowerHex c = true) (hex bs).
Proof.
  induction 1 as [|b bs Hb _ IH]; simpl; [constructor|].
  constructor; [|constructor; [|exact IH]].
  - apply hexDigit_lower. rewrite N.shiftr_div_pow2.
    change (2 ^ 4)%N with 16%N. apply N.Div0.div_lt_upper_bound. lia.
  - apply hexDigit_lower. change 15%N with (N.ones 4). rewrite N.land_ones.
    apply N.mod_lt. discriminate.
Qed.

(** ** The routes without an upstream call *)

(** C9: clearing the cache empties [imageHashes] and leaves the other
    fields of [usageStats] as they were, in both revisions; the reply is
    the success body. *)
Theorem postClearCache_frame (env : Env) (st : State) :
  let '(reply, st') := Server.postClearCache env st in
  let '(reply2, st2) := OpenAI.postClearCache env st in
  imageHashes (usageStats st') = ∅
  /\ totalRequests (usageStats st') = totalRequests (usageStats st)
  /\ totalCost (usageStats st') = totalCost (usageStats st)
  /\ requestsByKey (usageStats st') = requestsByKey (usageStats st)
  /\ dailyUsage (usageStats st') = dailyUsage (usageStats st)
  /\ currentApiKeyIndex st' = currentApiKeyIndex st
  /\ fetches st' = fetches st
  /\ code reply = 200
  /\ body reply = VObj [(js "success", VBool true);
                        (js "message", VStr (js "Cache cleared"))]
  /\ reply2 = reply /\ st2 = st'.
Proof. cbv [Server.postClearCache OpenAI.postClearCache bind setStats saveUsageStats ret]. simpl. repeat split. Qed.

(** C10: without an uploaded file the image route answers 400 with the
    body [{error: 'No image file provided'}] and leaves the whole state
    untouched: no request is sent, and the cache, the usage statistics and
    the usage file are as before.  This holds in both revisions. *)
Theorem postAnalyzeImage_no_file (rt : Runtime) (env : Env)
    (firstKey : jsstring) (moreKeys : list jsstring)
    (OPENAI_API_KEY : option jsstring) (st : State) :
  Server.postAnalyzeImage rt env firstKey moreKeys None st
    = (mkReply 400 (VObj [(js "error", VStr (js "No image file provided"))]), st)
  /\ OpenAI.postAnalyzeImage rt env OPENAI_API_KEY None st
    = (mkReply 400 (VObj [(js "error", VStr (js "No image file provided"))]), st).
Proof. split; reflexivity. Qed.

(** ** Requests to the upstream API *)

(** Runs the steps of the state monad, leaving the literals folded. *)
Ltac run_m :=
  cbn [bind lift ret throw catch doFetch setStats dateNow saveUsageStats
       cacheResult updateCacheAccess trackUsage
       fetches currentApiKeyIndex usageStats usageFile clockReads writes
       fst snd].

Section UpstreamFacts.
Context (rt : Runtime) (env : Env).
Context (firstKey : jsstring) (moreKeys : list jsstring).

Local Abbreviation keys := (Server.OPENROUTER_API_KEYS firstKey moreKeys).
Local Abbreviation tryAttempt := (Server.tryAttempt rt env firstKey moreKeys).
Local Abbreviation attemptLoop := (Server.attemptLoop rt env firstKey moreKeys).

(** The index [switchToNextApiKey] moves to. *)
Definition nextIndex (i : nat) : nat := ((i + 1) mod length keys)%nat.

(** What the environment answers to attempt number [j] (from 0) of a call
    started in state [st]: every failed attempt before it has switched the
    key once. *)
Definition attemptOutcome (st : State) (requestBody : Request) (j : nat)
  : FetchOutcome :=
  fetch env (fetches st + j)
        (keys !! Nat.iter j nextIndex (currentApiKeyIndex st)) requestBody.

(** The error an attempt leaves in [lastError], or [None] when the attempt
    returns: the response is ok, its body is read as JSON and the usage
    bookkeeping goes through. *)
Definition recorded (requestBody : Request) (outcome : FetchOutcome)
  : option JsError :=
  match outcome with
  | Rejected e => Some (Server.caughtError e)
  | Responded r =>
    if ok r then
      match json r with
      | Throw e => Some (Server.caughtError e)
      | Ok data =>
        match estimateApiCost rt requestBody data with
        | Throw e => Some (Server.caughtError e)
        | Ok _ => None
        end
      end
    else
      match World.text r with
      | Ok t => Some (Server.statusError r t)
      | Throw e => Some (Server.caughtError e)
      end
  end.

(** The loop as a scan over the answers: the result and the number of the
    attempt after the last one made. *)
Fixpoint scanAttempts (out : nat -> FetchOutcome) (requestBody : Request)
    (remaining j : nat) (lastError : option JsError) : Exc JsVal * nat :=
  match remaining with
  | O => (Throw (default (newError (js "All API keys failed")) lastError), j)
  | S remaining' =>
    match recorded requestBody (out j) with
    | None =>
      (match out j with
       | Responded r => json r
       | Rejected e => Throw e
       end, S j)
    | Some e => scanAttempts out requestBody remaining' (S j) (Some e)
    end
  end.

Lemma trackUsage_spec (keyName : jsstring) (requestBody : Request)
    (data : JsVal) (st : State) :
  let '(res, st') := trackUsage rt env keyName requestBody data st in
  fetches st' = fetches st
  /\ currentApiKeyIndex st' = currentApiKeyIndex st
  /\ match estimateApiCost rt requestBody data with
     | Ok _ => res = Ok tt
     | Throw e => res = Throw e
     end.
Proof.
  unfold trackUsage. run_m.
  destruct (estimateApiCost rt requestBody data) as [addCost|e]; run_m; done.
Qed.

Lemma tryAttempt_spec (requestBody : Request) (st : State) :
  let outcome := fetch env (fetches st) (Server.getCurrentApiKey firstKey moreKeys st)
                       requestBody in
  let '(res, st') := tryAttempt requestBody st in
  fetches st' = S (fetches st)
  /\ currentApiKeyIndex st' = currentApiKeyIndex st
  /\ match recorded requestBody outcome with
     | None => exists r data, outcome = Responded r /\ json r = Ok data
                              /\ res = Ok (Server.Returned data)
     | Some e => res = Ok (Server.Failed e)
                 \/ exists e0, res = Throw e0 /\ Server.caughtError e0 = e
     end.
Proof.
  cbv zeta. unfold Server.tryAttempt, recorded. run_m.
  destruct (fetch env (fetches st) (Server.getCurrentApiKey firstKey moreKeys st)
                  requestBody) as [e|r]; run_m.
  { split; [done|]. split; [done|]. right. eauto. }
  destruct (ok r); run_m.
  - destruct (json r) as [data|e] eqn:Ej; run_m.
    + unfold bind at 1.
      match goal with
      | |- context [trackUsage rt env ?k requestBody data ?s] =>
        pose proof (trackUsage_spec k requestBody data s) as Ht;
        destruct (trackUsage rt env k requestBody data s) as [res2 st2]
      end.
      destruct Ht as (Hf & Hi & Hres). cbn [fetches currentApiKeyIndex] in Hf, Hi.
      destruct (estimateApiCost rt requestBody data) as [addCost|e]; subst res2; run_m.
      * split; [done|]. split; [done|]. eauto.
      * split; [done|]. split; [done|]. right. eauto.
    + split; [done|]. split; [done|]. right. eauto.
  - destruct (World.text r) as [t|e]; run_m.
    + split; [done|]. split; [done|]. by left.
    + split; [done|]. split; [done|]. right. eauto.
Qed.

Lemma iter_nextIndex (j i : nat) :
  Nat.iter j nextIndex (nextIndex i) = Nat.iter (S j) nextIndex i.
Proof. induction j as [|j IH]; simpl; [done | by rewrite IH]. Qed.

(** The loop computes the scan.  [st0] is the state the call started in,
    [attempt] the number of attempts made since. *)
Lemma attemptLoop_scan (requestBody : Request) (st0 : State) (maxRetries : nat) :
  forall remaining attempt lastError st,
    (attempt + remaining = maxRetries)%nat ->
    fetches st = (fetches st0 + attempt)%nat ->
    currentApiKeyIndex st = Nat.iter attempt nextIndex (currentApiKeyIndex st0) ->
    let '(res, st') := attemptLoop remaining attempt maxRetries requestBody lastError st in
    let '(res', j) :=
      scanAttempts (attemptOutcome st0 requestBody) requestBody remaining attempt
                   lastError in
    res = res' /\ fetches st' = (fetches st0 + j)%nat.
Proof.
  induction remaining as [|remaining IH]; intros attempt lastError st Hn Hf Hi.
  - simpl. done.
  - cbn [Server.attemptLoop scanAttempts].
    pose proof (tryAttempt_spec requestBody st) as Hstep. cbv zeta in Hstep.
    destruct (tryAttempt requestBody st) as [res1 st1].
    destruct Hstep as (Hf1 & Hi1 & Hres).
    assert (fetch env (fetches st) (Server.getCurrentApiKey firstKey moreKeys st)
                  requestBody = attemptOutcome st0 requestBody attempt) as Hout.
    { unfold attemptOutcome, Server.getCurrentApiKey. by rewrite Hf, Hi. }
    rewrite Hout in Hres.
    destruct (recorded requestBody (attemptOutcome st0 requestBody attempt))
      as [e|] eqn:Erec.
    + assert (forall st2,
                 fetches st2 = S (fetches st) ->
                 currentApiKeyIndex st2 = currentApiKeyIndex st ->
                 let '(res, st') :=
                   bind (Server.switchUnlessLast firstKey moreKeys attempt maxRetries)
                        (fun _ => attemptLoop remaining (S attempt) maxRetries
                                    requestBody (Some e)) st2 in
                 let '(res', j) :=
                   scanAttempts (attemptOutcome st0 requestBody) requestBody
                                remaining (S attempt) (Some e) in
                 res = res' /\ fetches st' = (fetches st0 + j)%nat) as Hnext.
      { intros st2 Hf2 Hi2. unfold bind, Server.switchUnlessLast.
        destruct remaining as [|remaining'].
        - assert ((Z.of_nat attempt <? Z.of_nat maxRetries - 1) = false) as ->
            by (apply Z.ltb_ge; lia).
          simpl. split; [done | lia].
        - assert ((Z.of_nat attempt <? Z.of_nat maxRetries - 1) = true) as ->
            by (apply Z.ltb_lt; lia).
          unfold Server.switchToNextApiKey.
          apply IH; simpl; [lia | lia |].
          rewrite Hi2, Hi. reflexivity. }
      destruct Hres as [->|(e0 & -> & He0)].
      * by apply Hnext.
      * rewrite He0. by apply Hnext.
    + destruct Hres as (r & data & Hr & Hjson & ->).
      rewrite Hr, Hjson. split; [done | lia].
Qed.

Lemma scanAttempts_bound out requestBody remaining j lastError :
  (snd (scanAttempts out requestBody remaining j lastError) <= j + remaining)%nat.
Proof.
  revert j lastError. induction remaining as [|remaining IH]; intros j lastError; simpl.
  - lia.
  - destruct (recorded requestBody (out j)); simpl; [|lia].
    specialize (IH (S j) (Some j0)). lia.
Qed.

(** The scan stops at the first attempt that leaves no error. *)
Lemma scanAttempts_first out requestBody remaining j lastError k :
  (k < remaining)%nat ->
  (forall i, (i < k)%nat -> recorded requestBody (out (j + i)%nat) <> None) ->
  recorded requestBody (out (j + k)%nat) = None ->
  exists r data, out (j + k)%nat = Responded r /\ ok r = true /\ json r = Ok data
    /\ scanAttempts out requestBody remaining j lastError = (Ok data, S (j + k)).
Proof.
  revert remaining j lastError. induction k as [|k IH]; intros remaining j lastError Hk Hfail Hok.
  - destruct remaining as [|remaining]; [lia|]. rewrite Nat.add_0_r in *.
    simpl. rewrite Hok. unfold recorded in Hok.
    destruct (out j) as [e|r]; [done|].
    destruct (ok r) eqn:Eok; [|by destruct (World.text r)].
    destruct (json r) as [data|e] eqn:Ej; [|done]. exists r, data. by rewrite Ej.
  - destruct remaining as [|remaining]; [lia|]. simpl.
    destruct (recorded requestBody (out j)) as [e|] eqn:E.
    + destruct (IH remaining (S j) (Some e)) as (r & data & H1 & H2 & H3 & H4).
      * lia.
      * intros i Hi. replace (S j + i)%nat with (j + S i)%nat by lia.
        apply Hfail. lia.
      * by replace (S j + k)%nat with (j + S k)%nat by lia.
      * replace (S j + k)%nat with (j + S k)%nat in * by lia. eauto 10.
    + exfalso. apply (Hfail 0%nat); [lia|]. by rewrite Nat.add_0_r.
Qed.

(** When no attempt returns, the scan ends with the last recorded error. *)
Lemma scanAttempts_all_fail out requestBody remaining j lastError :
  (forall i, (i < remaining)%nat -> recorded requestBody (out (j + i)%nat) <> None) ->
  scanAttempts out requestBody remaining j lastError
  = (Throw (default (newError (js "All API keys failed"))
              (match remaining with
               | O => lastError
               | S m => recorded requestBody (out (j + m)%nat)
               end)), (j + remaining)%nat).
Proof.
  revert j lastError. induction remaining as [|remaining IH]; intros j lastError Hfail.
  - simpl. by rewrite Nat.add_0_r.
  - simpl. destruct (recorded requestBody (out j)) as [e|] eqn:E.
    + rewrite IH.
      * f_equal; [|lia]. destruct remaining as [|m].
        -- by rewrite Nat.add_0_r, E.
        -- by replace (S j + m)%nat with (j + S m)%nat by lia.
      * intros i Hi. replace (S j + i)%nat with (j + S i)%nat by lia.
        apply Hfail. lia.
    + exfalso. apply (Hfail 0%nat); [lia|]. by rewrite Nat.add_0_r.
Qed.

End UpstreamFacts.

Lemma makeApiRequestWithFallback_scan (rt : Runtime) (env : Env)
    (firstKey : jsstring) (moreKeys : list jsstring)
    (requestBody : Request) (maxRetries : option nat) (st : State) :
  let n := default (length (Server.OPENROUTER_API_KEYS firstKey moreKeys)) maxRetries in
  let '(res, st') :=
    Server.makeApiRequestWithFallback rt env firstKey moreKeys requestBody
      maxRetries st in
  let '(res', j) :=
    scanAttempts rt (attemptOutcome env firstKey moreKeys st requestBody)
      requestBody n 0 None in
  res = res' /\ fetches st' = (fetches st + j)%nat.
Proof.
  cbv zeta. unfold Server.makeApiRequestWithFallback.
  apply (attemptLoop_scan rt env firstKey moreKeys requestBody st); [lia | lia | done].
Qed.


(** Two keys; the first reply is 200 with a body that is not JSON, the
    second 200 with [{}]. *)
Definition unreadableThenOk : Env :=
  mkEnv (fun n _ _ =>
           match n with
           | O =>
             Responded (mkResponse 200 (js "OK")
                          (Throw (mkError (js "SyntaxError")
                                    (js "Unexpected token in JSON input") None))
                          (Ok (js "<html>")))
           | _ => Responded (mkResponse 200 (js "OK") (Ok (VObj [])) (Ok (js "{}")))
           end)
        (fun _ => 0) (fun _ => true).

(** The same with the JSON body [null] first. *)
Definition nullThenOk : Env :=
  mkEnv (fun n _ _ =>
           match n with
           | O => Responded (mkResponse 200 (js "OK") (Ok VNull) (Ok (js "null")))
           | _ => Responded (mkResponse 200 (js "OK") (Ok (VObj [])) (Ok (js "{}")))
           end)
        (fun _ => 0) (fun _ => true).


(** Two keys, the first rejected with 401, the second accepted. *)
Definition unauthorizedThenOk : Env :=
  mkEnv (fun n key _ =>
           if bool_decide (key = Some (js "k2")) then
             Responded (mkResponse 200 (js "OK")
                          (Ok (VObj [(js "choices", VArr [] [])])) (Ok []))
           else
             Responded (mkResponse 401 (js "Unauthorized")
                          (Ok (VObj [])) (Ok (js "bad key"))))
        (fun _ => 1793660400000) (fun _ => true).

Example makeApiRequestWithFallback_switches_key :
  let '(res, st') :=
    Server.makeApiRequestWithFallback Node.runtime unauthorizedThenOk
      (js "k1") [js "k2"] TestRequest None initialState in
  res = Ok (VObj [(js "choices", VArr [] [])])
  /\ fetches st' = 2%nat
  /\ currentApiKeyIndex st' = 1%nat
  /\ totalRequests (usageStats st') = 1
  /\ requestsByKey (usageStats st') !! js "key_2" = Some 1
  /\ requests <$> (dailyUsage (usageStats st') !! js "2026-11-02") = Some 1
  /\ usageFile st' = Some (usageStats st').
Proof. vm_compute. repeat split. Qed.

Example makeApiRequestWithFallback_one_key_fails :
  fst (Server.makeApiRequestWithFallback Node.runtime unauthorizedThenOk
         (js "k1") [] TestRequest None initialState)
  = Throw (newError (js "Invalid API key - please check your OpenRouter API key")).
Proof. vm_compute. reflexivity. Qed.

Example makeApiRequestWithFallback_no_attempt :
  fst (Server.makeApiRequestWithFallback Node.runtime unauthorizedThenOk
         (js "k1") [] TestRequest (Some 0%nat) initialState)
  = Throw (newError (js "All API keys failed")).
Proof. vm_compute. reflexivity. Qed.



Example caughtError_abort_wins :
  Server.caughtError (mkError (js "AbortError") (js "This operation was aborted")
                        (Some (js "ECONNREFUSED")))
  = newError (js "Request timeout - API request took too long").
Proof. vm_compute. reflexivity. Qed.

Example caughtError_fetch_failed :
  Server.caughtError (mkError (js "TypeError") (js "fetch failed") None)
  = newError (js "Network request failed - check your connection").
Proof. vm_compute. reflexivity. Qed.


(** ** The analysis cache *)

Section CacheFacts.
Context (rt : Runtime) (env : Env).
Context (firstKey : jsstring) (moreKeys : list jsstring).

Lemma scanAttempts_progress out requestBody remaining j lastError :
  (j <= snd (scanAttempts rt out requestBody remaining j lastError))%nat.
Proof.
  revert j lastError. induction remaining as [|remaining IH]; intros j lastError; simpl.
  - lia.
  - destruct (recorded rt requestBody (out j)); simpl; [|lia].
    specialize (IH (S j) (Some j0)). lia.
Qed.

(** With at least one key a call without [maxRetries] sends a request. *)
Lemma makeApiRequestWithFallback_sends (requestBody : Request) (st : State) :
  (fetches st
   < fetches (snd (Server.makeApiRequestWithFallback rt env firstKey moreKeys
                     requestBody None st)))%nat.
Proof.
  pose proof (makeApiRequestWithFallback_scan rt env firstKey moreKeys requestBody
                None st) as Hscan. cbv zeta in Hscan.
  destruct (Server.makeApiRequestWithFallback rt env firstKey moreKeys requestBody
              None st) as [res st'].
  cbn [default from_option id Server.OPENROUTER_API_KEYS length scanAttempts] in Hscan.
  set (out := attemptOutcome env firstKey moreKeys st requestBody) in *.
  destruct (recorded rt requestBody (out 0%nat)) as [e|].
  - pose proof (scanAttempts_progress out requestBody (length moreKeys) 1 (Some e)) as Hp.
    destruct (scanAttempts rt out requestBody (length moreKeys) 1 (Some e)) as [res' j].
    destruct Hscan as [_ Hf]. cbn [snd] in *. lia.
  - destruct Hscan as [_ Hf]. cbn [snd]. lia.
Qed.

Lemma cacheResult_fetches (imageHash : jsstring) (value : JsVal) (st : State) :
  cacheResult env imageHash value st
  = (Ok tt, snd (cacheResult env imageHash value st))
  /\ fetches (snd (cacheResult env imageHash value st)) = fetches st.
Proof. unfold cacheResult. run_m. done. Qed.

(** After a cache miss the only requests are those of
    [makeApiRequestWithFallback]. *)
Lemma analyzeFresh_fetches (imageBuffer : list byte) (mimeType imageHash : jsstring)
    (st : State) :
  fetches (snd (Server.analyzeFresh rt env firstKey moreKeys imageBuffer mimeType
                  imageHash st))
  = fetches (snd (Server.makeApiRequestWithFallback rt env firstKey moreKeys
                    (AnalysisRequest mimeType imageBuffer) None st)).
Proof.
  unfold Server.analyzeFresh. unfold bind at 1.
  destruct (Server.makeApiRequestWithFallback rt env firstKey moreKeys
              (AnalysisRequest mimeType imageBuffer) None st) as [[data|e] st1];
    [|done].
  unfold bind at 1, lift at 1.
  destruct (messageContent rt data) as [content|e]; [|done].
  unfold catch, bind at 1, lift at 1.
  destruct (Server.parseAnalysis rt content) as [analysis|e]; [|done].
  unfold bind.
  destruct (cacheResult_fetches (Server.generateImageHash imageBuffer) analysis st1)
    as [_ Hf].
  destruct (cacheResult_fetches imageHash analysis st1) as [Hc Hf'].
  rewrite Hc. cbn [ret snd]. exact Hf'.
Qed.

(** [analyzeImage] of [server.js] keeps to the 24 hours: an entry stored
    less than [dayMillis] before the lookup is returned without a request,
    its access count incremented; for an older entry, as for a missing one,
    a request goes upstream. *)
Lemma analyzeImage_cache_expiry (imageBuffer : list byte) (mimeType : jsstring)
    (st : State) (cached : CacheEntry) :
  getCachedResult (Server.generateImageHash imageBuffer) st = Some cached ->
  let age := clock env (clockReads st) - timestamp cached in
  let '(res, st') :=
    Server.analyzeImage rt env firstKey moreKeys imageBuffer mimeType st in
  (age < Server.dayMillis ->
     res = Ok (result cached) /\ fetches st' = fetches st
     /\ getCachedResult (Server.generateImageHash imageBuffer) st'
        = Some (mkEntry (result cached) (timestamp cached) (accessCount cached + 1)
                        (Some (clock env (S (clockReads st))))))
  /\ (Server.dayMillis <= age -> (fetches st < fetches st')%nat).
Proof.
  intros Hc age. unfold Server.analyzeImage, catch. rewrite Hc.
  unfold bind at 1. cbn [dateNow].
  fold age. destruct (Z.ltb_spec age Server.dayMillis) as [Hlt|Hge].
  - unfold bind at 1, updateCacheAccess, getCachedResult. cbn [usageStats].
    unfold getCachedResult in Hc. rewrite Hc. run_m.
    split; [|lia]. intros _. split; [done|]. split; [done|].
    unfold getCachedResult. cbn [usageStats imageHashes].
    by rewrite lookup_insert_eq.
  - match goal with
    | |- context [Server.analyzeFresh rt env firstKey moreKeys imageBuffer mimeType ?h ?s] =>
      pose proof (analyzeFresh_fetches imageBuffer mimeType h s) as Hf;
      pose proof (makeApiRequestWithFallback_sends (AnalysisRequest mimeType imageBuffer) s) as Hs;
      destruct (Server.analyzeFresh rt env firstKey moreKeys imageBuffer mimeType h s)
        as [[a|e] st1]
    end; cbn [snd fetches throw] in *; (split; [lia|]); intros _; lia.
Qed.

End CacheFacts.

(** In the OpenAI revision the route serves whatever the cache holds for
    the hash: the clock is not read and the state is untouched, however old
    the entry is.  What it serves as [captions] is the entry itself. *)
Lemma openai_cache_hit (rt : Runtime) (env : Env) (key : option jsstring)
    (f : Upload) (st : State) (cached : CacheEntry) :
  mimetype f ∈ OpenAI.allowedTypes ->
  getCachedResult (OpenAI.generateImageHash (buffer f)) st = Some cached ->
  OpenAI.postAnalyzeImage rt env key (Some f) st
  = (mkReply 200
       (VObj [(js "success", VBool true);
              (js "analysis", VObj []);
              (js "captions", OpenAI.entryValue cached);
              (js "cached", VBool true)]), st).
Proof.
  intros Hm Hc. unfold OpenAI.postAnalyzeImage.
  rewrite bool_decide_eq_true_2 by done. cbn [negb]. by rewrite Hc.
Qed.

(** C2.  With an entry for the image in the cache, [analyzeImage] of
    [server.js] returns the stored result without a request when the entry
    is less than 24 hours old, and sends a request upstream when it is
    older.  The route of the OpenAI revision does neither: it replies with
    the entry itself as [captions] and an empty analysis, and leaves the
    state as it was, whatever the age of the entry. *)
Theorem cached_result_expiry (rt : Runtime) (env : Env) (firstKey : jsstring)
    (moreKeys : list jsstring) (key : option jsstring) (f : Upload)
    (st : State) (cached : CacheEntry) :
  getCachedResult (Server.generateImageHash (buffer f)) st = Some cached ->
  mimetype f ∈ OpenAI.allowedTypes ->
  let age := clock env (clockReads st) - timestamp cached in
  let '(res, st1) :=
    Server.analyzeImage rt env firstKey moreKeys (buffer f) (mimetype f) st in
  (age < Server.dayMillis -> res = Ok (result cached) /\ fetches st1 = fetches st)
  /\ (Server.dayMillis <= age -> (fetches st < fetches st1)%nat)
  /\ OpenAI.postAnalyzeImage rt env key (Some f) st
     = (mkReply 200
          (VObj [(js "success", VBool true);
                 (js "analysis", VObj []);
                 (js "captions", OpenAI.entryValue cached);
                 (js "cached", VBool true)]), st).
Proof.
  intros Hc Hm age.
  pose proof (analyzeImage_cache_expiry rt env firstKey moreKeys (buffer f)
                (mimetype f) st cached Hc) as Hs.
  cbv zeta in Hs. fold age in Hs.
  destruct (Server.analyzeImage rt env firstKey moreKeys (buffer f) (mimetype f) st)
    as [res st1].
  destruct Hs as [Hfresh Hstale].
  split; [|split].
  - intros Hlt. destruct (Hfresh Hlt) as (Hr & Hf & _). by split.
  - exact Hstale.
  - exact (openai_cache_hit rt env key f st cached Hm Hc).
Qed.

Definition pngUpload : Upload := mkUpload (bufferFrom "abc") (js "image/png").

(** A cache entry stored at time 0. *)
Definition staleEntry : CacheEntry :=
  mkEntry (VObj [(js "analysis", VObj []); (js "captions", VArr [] [])]) 0 1 None.

(** A state whose cache holds [staleEntry] for the image [pngUpload]. *)
Definition staleState : State :=
  mkState
    (mkStats 1 (CostOf (js "0")) ∅ ∅
       {[ Server.generateImageHash (buffer pngUpload) := staleEntry ]})
    0 None 0 0 0.

(** An environment whose clock shows 25 hours and whose upstream accepts
    every request. *)
Definition dayLater : Env :=
  mkEnv (fun _ _ _ =>
           Responded (mkResponse 200 (js "OK") (Ok (VObj [])) (Ok (js "{}"))))
        (fun _ => 25 * 60 * 60 * 1000) (fun _ => true).

Lemma cached_result_expiry_witness :
  (fetches staleState
   < fetches (snd (Server.analyzeImage Node.runtime dayLater (js "k1") []
                     (buffer pngUpload) (mimetype pngUpload) staleState)))%nat
  /\ OpenAI.postAnalyzeImage Node.runtime dayLater (Some (js "sk-test"))
       (Some pngUpload) staleState
     = (mkReply 200
          (VObj [(js "success", VBool true);
                 (js "analysis", VObj []);
                 (js "captions", OpenAI.entryValue staleEntry);
                 (js "cached", VBool true)]), staleState).
Proof.
  assert (getCachedResult (Server.generateImageHash (buffer pngUpload)) staleState
          = Some staleEntry) as Hc by (vm_compute; reflexivity).
  assert (mimetype pngUpload ∈ OpenAI.allowedTypes) as Hm
    by (apply (bool_decide_eq_true_1 (mimetype pngUpload ∈ OpenAI.allowedTypes));
        vm_compute; reflexivity).
  pose proof (cached_result_expiry Node.runtime dayLater (js "k1") []
                (Some (js "sk-test")) pngUpload staleState staleEntry Hc Hm) as H.
  cbv zeta in H.
  destruct (Server.analyzeImage Node.runtime dayLater (js "k1") []
              (buffer pngUpload) (mimetype pngUpload) staleState) as [res st1].
  destruct H as (_ & Hstale & Hopenai). split; [|exact Hopenai].
  apply Hstale. vm_compute. discriminate.
Defined.

(** C2 at its failing input: 25 hours after the entry was stored, the
    route of the OpenAI revision still answers from the cache, without
    reading the clock or sending a request; [analyzeImage] of [server.js]
    sends one. *)
Lemma openai_cache_serves_stale_entry :
  let '(reply, st') :=
    OpenAI.postAnalyzeImage Node.runtime dayLater (Some (js "sk-test"))
      (Some pngUpload) staleState in
  clock dayLater (clockReads staleState) - timestamp staleEntry = 25 * Server.dayMillis / 24
  /\ code reply = 200
  /\ getProp (body reply) (js "cached") = Some (VBool true)
  /\ getProp (body reply) (js "analysis") = Some (VObj [])
  /\ getProp (body reply) (js "captions")
     = Some (VObj [(js "result",
                    VObj [(js "analysis", VObj []); (js "captions", VArr [] [])]);
                   (js "timestamp", VNum false (js "0"));
                   (js "accessCount", VNum true (js "1"))])
  /\ fetches st' = 0%nat
  /\ clockReads st' = 0%nat
  /\ fetches (snd (Server.analyzeImage Node.runtime dayLater (js "k1") []
                     (buffer pngUpload) (mimetype pngUpload) staleState)) = 1%nat.
Proof. vm_compute. repeat split. Qed.

(** ** The cache key *)

(** The same bytes as [pngUpload], sent as a JPEG. *)
Definition jpegUpload : Upload := mkUpload (bufferFrom "abc") (js "image/jpeg").

(** An environment whose clock shows one hour and whose upstream rejects
    every request. *)
Definition hourLater : Env :=
  mkEnv (fun _ _ _ => Rejected (newError (js "fetch failed")))
        (fun _ => 60 * 60 * 1000) (fun _ => true).



(** ** Replies that cannot be parsed into captions *)

(** What the client takes as a success: status 200 and [success: true]. *)
Definition succeeded (reply : Reply) : Prop :=
  code reply = 200 /\ getProp (body reply) (js "success") = Some (VBool true).

(** A caption of one of the hardcoded tables. *)
Definition canned (c : JsVal) : Prop :=
  exists name table, (name, table) ∈ OpenAI.fallbackCaptions /\ c ∈ table.

Lemma getProp_here (k : jsstring) (v : JsVal) (rest : list (jsstring * JsVal)) :
  getProp (VObj ((k, v) :: rest)) k = Some v.
Proof.
  cbn [getProp assoc]. unfold string_eqb. by rewrite bool_decide_eq_true_2.
Qed.

Lemma getProp_skip (k k' : jsstring) (v : JsVal) (rest : list (jsstring * JsVal)) :
  k <> k' -> getProp (VObj ((k', v) :: rest)) k = getProp (VObj rest) k.
Proof.
  intros Hne. cbn [getProp assoc]. unfold string_eqb.
  by rewrite bool_decide_eq_false_2.
Qed.

Lemma selectCaptions_spec (n : nat) (i0 h : N) (captions : list JsVal) :
  captions <> [] ->
  length (OpenAI.selectCaptions n i0 h captions) = n
  /\ Forall (fun c => c ∈ captions) (OpenAI.selectCaptions n i0 h captions).
Proof.
  intros Hne. revert i0. induction n as [|n IH]; intros i0; cbn [OpenAI.selectCaptions].
  - by split.
  - destruct (IH (i0 + 1)%N) as [Hl Hf]. split; [cbn [length]; by rewrite Hl|].
    constructor; [|done].
    assert (N.to_nat ((h + i0) mod N.of_nat (length captions)) < length captions)%nat
      as Hlt.
    { assert (N.of_nat (length captions) <> 0%N) as Hz by (destruct captions; [done|simpl; lia]).
      pose proof (N.mod_lt (h + i0) _ Hz). lia. }
    destruct (lookup_lt_is_Some_2 _ _ Hlt) as [c Hc]. rewrite Hc. cbn [default from_option id].
    by eapply list_elem_of_lookup_2.
Qed.

Lemma category_at (i : nat) :
  (i < 6)%nat ->
  exists name table,
    map fst OpenAI.fallbackCaptions !! i = Some name
    /\ assoc name OpenAI.fallbackCaptions = Some table
    /\ (name, table) ∈ OpenAI.fallbackCaptions
    /\ table <> [].
Proof.
  intros Hi.
  assert (forall name table,
            assoc name OpenAI.fallbackCaptions = Some table ->
            (name, table) ∈ OpenAI.fallbackCaptions) as Hin.
  { intros name table. generalize OpenAI.fallbackCaptions.
    induction l as [|[k v] l IH]; cbn [assoc]; [done|].
    unfold string_eqb. case_bool_decide as Hk.
    - intros [= ->]. subst. apply list_elem_of_here.
    - intros H. apply list_elem_of_further. by apply IH. }
  destruct i as [|[|[|[|[|[|i]]]]]]; [..|lia].
  - exists (js "general"), OpenAI.fallback_general.
    assert (assoc (js "general") OpenAI.fallbackCaptions = Some OpenAI.fallback_general)
      as Ha by (vm_compute; reflexivity).
    split; [reflexivity|]. split; [exact Ha|]. split; [by apply Hin|done].
  - exists (js "nature"), OpenAI.fallback_nature.
    assert (assoc (js "nature") OpenAI.fallbackCaptions = Some OpenAI.fallback_nature)
      as Ha by (vm_compute; reflexivity).
    split; [reflexivity|]. split; [exact Ha|]. split; [by apply Hin|done].
  - exists (js "people"), OpenAI.fallback_people.
    assert (assoc (js "people") OpenAI.fallbackCaptions = Some OpenAI.fallback_people)
      as Ha by (vm_compute; reflexivity).
    split; [reflexivity|]. split; [exact Ha|]. split; [by apply Hin|done].
  - exists (js "food"), OpenAI.fallback_food.
    assert (assoc (js "food") OpenAI.fallbackCaptions = Some OpenAI.fallback_food)
      as Ha by (vm_compute; reflexivity).
    split; [reflexivity|]. split; [exact Ha|]. split; [by apply Hin|done].
  - exists (js "animals"), OpenAI.fallback_animals.
    assert (assoc (js "animals") OpenAI.fallbackCaptions = Some OpenAI.fallback_animals)
      as Ha by (vm_compute; reflexivity).
    split; [reflexivity|]. split; [exact Ha|]. split; [by apply Hin|done].
  - exists (js "objects"), OpenAI.fallback_objects.
    assert (assoc (js "objects") OpenAI.fallbackCaptions = Some OpenAI.fallback_objects)
      as Ha by (vm_compute; reflexivity).
    split; [reflexivity|]. split; [exact Ha|]. split; [by apply Hin|done].
Qed.

(** [generateFallbackCaptions] returns two or three captions, all from
    one hardcoded table, whatever the image. *)
Lemma generateFallbackCaptions_canned (imageBuffer : list byte) :
  (2 <= length (OpenAI.generateFallbackCaptions imageBuffer) <= 3)%nat
  /\ Forall canned (OpenAI.generateFallbackCaptions imageBuffer).
Proof.
  unfold OpenAI.generateFallbackCaptions. cbv zeta.
  set (h := OpenAI.hashNum imageBuffer).
  change (length (map fst OpenAI.fallbackCaptions)) with 6%nat.
  assert (N.to_nat (h mod N.of_nat 6) < 6)%nat as Hi.
  { pose proof (N.mod_lt h (N.of_nat 6)). lia. }
  destruct (category_at _ Hi) as (name & table & Hn & Ha & Hin & Hne).
  repeat match goal with
  | |- context [assoc (default [] ?x) _] =>
    replace x with (Some name) by (symmetry; exact Hn)
  end.
  cbn [default from_option id]. rewrite Ha. cbn [default from_option id].
  destruct (selectCaptions_spec (N.to_nat (2 + h mod 2)) 0 h table Hne) as [Hl Hf].
  split.
  - rewrite Hl. clear Hl Hf.
    assert (h mod 2 < 2)%N as Hm by (by apply N.mod_lt).
    revert Hm. generalize (h mod 2)%N. intros m Hm. lia.
  - eapply Forall_impl; [exact Hf|]. intros c Hc. by exists name, table.
Qed.

Lemma cacheResult_returns (env : Env) (imageHash : jsstring) (value : JsVal)
    (st : State) :
  fst (cacheResult env imageHash value st) = Ok tt.
Proof. by rewrite (proj1 (cacheResult_fetches env imageHash value st)). Qed.

(** Whenever the [try] block of the OpenAI route sends a reply, it is a
    success. *)
Lemma analyzeUncached_succeeds (rt : Runtime) (env : Env) (key : option jsstring)
    (f : Upload) (imageHash : jsstring) (st : State) :
  match OpenAI.analyzeUncached rt env key f imageHash st with
  | (Ok reply, _) => succeeded reply
  | (Throw _, _) => True
  end.
Proof.
  unfold OpenAI.analyzeUncached. unfold bind at 1, doFetch.
  destruct (fetch env (fetches st) key _) as [e|r]; [done|].
  destruct (negb (ok r)).
  - unfold bind at 1, lift at 1. destruct (json r) as [errorData|e]; [|done].
    unfold bind at 1, lift at 1.
    destruct (OpenAI.isQuotaError rt r errorData) as [[|]|e]; [| |done].
    + unfold bind at 1.
      match goal with
      | |- context [cacheResult env ?h ?v ?s] =>
        rewrite (proj1 (cacheResult_fetches env h v s))
      end.
      cbn [ret]. split; [done|]. apply getProp_here.
    + unfold bind at 1, lift at 1.
      by destruct (OpenAI.requestFailed rt errorData).
  - unfold bind at 1, lift at 1. destruct (json r) as [data|e]; [|done].
    unfold bind at 1, lift at 1. destruct (messageContent rt data) as [content|e]; [|done].
    unfold bind at 1, lift at 1.
    destruct (OpenAI.matchable rt content) as [responseText|e]; [|done].
    cbv zeta. unfold bind at 1.
    match goal with
    | |- context [cacheResult env ?h ?v ?s] =>
      rewrite (proj1 (cacheResult_fetches env h v s))
    end.
    cbn [bind setStats saveUsageStats ret]. split; [done|]. apply getProp_here.
Qed.

(** The reply of the OpenAI route when the text of the model yields no
    caption, or is no text at all. *)
Lemma analyzeUncached_unparsable (rt : Runtime) (env : Env) (key : option jsstring)
    (f : Upload) (st : State) (r : Response) (data content : JsVal) :
  mimetype f ∈ OpenAI.allowedTypes ->
  getCachedResult (OpenAI.generateImageHash (buffer f)) st = None ->
  fetch env (fetches st) key (CombinedRequest (mimetype f) (buffer f)) = Responded r ->
  ok r = true ->
  json r = Ok data ->
  messageContent rt data = Ok content ->
  (forall responseText,
     content = VStr responseText -> OpenAI.extractCaptions responseText = []) ->
  getProp (body (fst (OpenAI.postAnalyzeImage rt env key (Some f) st))) (js "captions")
  = Some (VArr (OpenAI.generateFallbackCaptions (buffer f)) []).
Proof.
  intros Hm Hc Hf Hok Hj Hcontent Hnone.
  unfold OpenAI.postAnalyzeImage. rewrite bool_decide_eq_true_2 by done.
  cbn [negb]. rewrite Hc.
  unfold OpenAI.analyzeUncached. unfold bind at 1, doFetch. rewrite Hf, Hok.
  cbn [negb]. unfold bind at 1, lift at 1. rewrite Hj.
  unfold bind at 1, lift at 1. rewrite Hcontent.
  unfold bind at 1, lift at 1.
  assert (forall e (s : State),
            getProp (body (fst (OpenAI.fallbackReply f e, s))) (js "captions")
            = Some (VArr (OpenAI.generateFallbackCaptions (buffer f)) [])) as Hfb.
  { intros e s. unfold OpenAI.fallbackReply, OpenAI.object. cbn [fst body].
    rewrite !getProp_skip by key_ne. apply getProp_here. }
  destruct content as [| |b|nz lx|responseText|items props|props];
    cbn [OpenAI.matchable]; try apply Hfb.
  rewrite (Hnone responseText eq_refl). cbv zeta. unfold bind at 1.
  match goal with
  | |- context [cacheResult env ?h ?v ?s] =>
    rewrite (proj1 (cacheResult_fetches env h v s))
  end.
  cbn [bind setStats saveUsageStats ret fst body]. unfold OpenAI.object.
  rewrite !getProp_skip by key_ne. apply getProp_here.
Qed.

(** The [catch] block of the route of [server.js] answers with status
    500 and neither a [success] nor a [captions] field. *)
Lemma errorReply_shape (error : JsError) :
  code (Server.errorReply error) = 500
  /\ getProp (body (Server.errorReply error)) (js "success") = Some VUndefined
  /\ getProp (body (Server.errorReply error)) (js "captions") = Some VUndefined.
Proof.
  unfold Server.errorReply.
  match goal with
  | |- context [let '(_, _) := ?x in _] => destruct x as [errorMessage technicalDetails]
  end.
  cbn [code body]. unfold Server.object.
  split; [done|]. split; rewrite !getProp_skip by key_ne; reflexivity.
Qed.

(** The reply of the route of [server.js] when the text of the model
    cannot be parsed into an analysis. *)
Lemma server_unparsable (rt : Runtime) (env : Env) (firstKey : jsstring)
    (moreKeys : list jsstring) (f : Upload) (st st' : State)
    (data analysisText : JsVal) (e : JsError) :
  startsWith (js "image/") (mimetype f) = true ->
  size f <> 0 ->
  getCachedResult (Server.generateImageHash (buffer f)) st = None ->
  Server.makeApiRequestWithFallback rt env firstKey moreKeys
    (AnalysisRequest (mimetype f) (buffer f)) None st = (Ok data, st') ->
  messageContent rt data = Ok analysisText ->
  Server.parseAnalysis rt analysisText = Throw e ->
  Server.postAnalyzeImage rt env firstKey moreKeys (Some f) st
  = (Server.errorReply
       (newError
          (js "AI analysis failed - unable to generate personalized captions: "
           ++ err_message (engineError rt (NotDefined (js "cleanAnalysisText"))))),
     st').
Proof.
  intros Hs Hz Hc Hreq Hcontent Hparse.
  unfold Server.postAnalyzeImage. rewrite Hs. cbn [negb].
  destruct (Z.eqb_spec (size f) 0) as [|_]; [done|].
  unfold bind at 1. unfold Server.analyzeImage, catch. rewrite Hc.
  unfold Server.analyzeFresh. unfold bind at 1. rewrite Hreq.
  unfold bind at 1, lift at 1. rewrite Hcontent.
  unfold catch, bind at 1, lift at 1. rewrite Hparse.
  reflexivity.
Qed.

(** C1, as amended.  In the OpenAI revision the image route answers every
    upload of an allowed type with a success; when the cache holds nothing
    for the image and the text of the model's reply yields no caption, or
    its content is no text, the captions sent are those of
    [generateFallbackCaptions]: two or three captions of one hardcoded
    table.  In [server.js] there is no such fallback: when the cache holds
    nothing for the image and the reply cannot be parsed into an analysis,
    the route answers with status 500 and a body with neither [success] nor
    [captions]. *)
Theorem postAnalyzeImage_unparsable_reply :
  (forall (rt : Runtime) (env : Env) (key : option jsstring) (f : Upload)
          (st : State),
     mimetype f ∈ OpenAI.allowedTypes ->
     let reply := fst (OpenAI.postAnalyzeImage rt env key (Some f) st) in
     succeeded reply
     /\ forall (r : Response) (data content : JsVal),
          getCachedResult (OpenAI.generateImageHash (buffer f)) st = None ->
          fetch env (fetches st) key (CombinedRequest (mimetype f) (buffer f))
          = Responded r ->
          ok r = true ->
          json r = Ok data ->
          messageContent rt data = Ok content ->
          (forall responseText,
             content = VStr responseText ->
             OpenAI.extractCaptions responseText = []) ->
          getProp (body reply) (js "captions")
          = Some (VArr (OpenAI.generateFallbackCaptions (buffer f)) [])
          /\ (2 <= length (OpenAI.generateFallbackCaptions (buffer f)) <= 3)%nat
          /\ Forall canned (OpenAI.generateFallbackCaptions (buffer f)))
  /\ (forall (rt : Runtime) (env : Env) (firstKey : jsstring)
             (moreKeys : list jsstring) (f : Upload) (st st' : State)
             (data analysisText : JsVal) (e : JsError),
        startsWith (js "image/") (mimetype f) = true ->
        size f <> 0 ->
        getCachedResult (Server.generateImageHash (buffer f)) st = None ->
        Server.makeApiRequestWithFallback rt env firstKey moreKeys
          (AnalysisRequest (mimetype f) (buffer f)) None st = (Ok data, st') ->
        messageContent rt data = Ok analysisText ->
        Server.parseAnalysis rt analysisText = Throw e ->
        let reply :=
          fst (Server.postAnalyzeImage rt env firstKey moreKeys (Some f) st) in
        code reply = 500
        /\ getProp (body reply) (js "success") = Some VUndefined
        /\ getProp (body reply) (js "captions") = Some VUndefined).
Proof.
  split.
  - intros rt env key f st Hm reply. split.
    + subst reply. unfold OpenAI.postAnalyzeImage.
      rewrite bool_decide_eq_true_2 by done. cbn [negb].
      destruct (getCachedResult _ st) as [cached|].
      * split; [done|]. apply getProp_here.
      * pose proof (analyzeUncached_succeeds rt env key f
                      (OpenAI.generateImageHash (buffer f)) st) as Hs.
        destruct (OpenAI.analyzeUncached rt env key f _ st) as [[reply|e] st'];
          [exact Hs|].
        split; [done|]. apply getProp_here.
    + intros r data content Hc Hf Hok Hj Hcontent Hnone.
      split; [|apply generateFallbackCaptions_canned].
      by apply (analyzeUncached_unparsable rt env key f st r data content).
  - intros rt env firstKey moreKeys f st st' data analysisText e
           Hs Hz Hc Hreq Hcontent Hparse reply.
    subst reply.
    rewrite (server_unparsable rt env firstKey moreKeys f st st' data analysisText e)
      by done.
    apply errorReply_shape.
Qed.

(** A reply of the model that is prose rather than the requested format. *)
Definition refusal : jsstring := js "I cannot analyze this image.".

Definition refusalBody : JsVal :=
  VObj [(js "choices",
         VArr [VObj [(js "message", VObj [(js "content", VStr refusal)])]] [])].

Definition refusalResponse : Response :=
  mkResponse 200 (js "OK") (Ok refusalBody) (Ok refusal).

(** An environment whose upstream answers every request with [refusal]. *)
Definition refusing : Env :=
  mkEnv (fun _ _ _ => Responded refusalResponse) (fun _ => 0) (fun _ => true).

Lemma postAnalyzeImage_unparsable_reply_witness :
  (getProp
     (body (fst (OpenAI.postAnalyzeImage Node.runtime refusing (Some (js "sk-test"))
                   (Some pngUpload) initialState)))
     (js "captions")
   = Some (VArr (OpenAI.generateFallbackCaptions (buffer pngUpload)) []))
  /\ code (fst (Server.postAnalyzeImage Node.runtime refusing (js "k1") []
                  (Some pngUpload) initialState)) = 500.
Proof.
  destruct postAnalyzeImage_unparsable_reply as [Hopenai Hserver]. split.
  - assert (mimetype pngUpload ∈ OpenAI.allowedTypes) as Hm
      by (apply (bool_decide_eq_true_1 (mimetype pngUpload ∈ OpenAI.allowedTypes));
          vm_compute; reflexivity).
    destruct (Hopenai Node.runtime refusing (Some (js "sk-test")) pngUpload
                initialState Hm) as [_ H].
    apply (H refusalResponse refusalBody (VStr refusal)).
    + vm_compute; reflexivity.
    + reflexivity.
    + reflexivity.
    + reflexivity.
    + vm_compute; reflexivity.
    + intros responseText [= <-]. vm_compute; reflexivity.
  - eapply (Hserver Node.runtime refusing (js "k1") [] pngUpload initialState
              (snd (Server.makeApiRequestWithFallback Node.runtime refusing (js "k1") []
                      (AnalysisRequest (mimetype pngUpload) (buffer pngUpload)) None
                      initialState))
              refusalBody (VStr refusal)).
    + vm_compute; reflexivity.
    + vm_compute; discriminate.
    + vm_compute; reflexivity.
    + vm_compute; reflexivity.
    + vm_compute; reflexivity.
    + vm_compute; reflexivity.
Defined.

(** C1 as stated fails on [server.js]: the model answers in prose, and the
    route answers with status 500.  The message is that of the
    ReferenceError raised in the [catch] block of [analyzeImage]. *)
Lemma postAnalyzeImage_error_counterexample :
  let reply :=
    fst (Server.postAnalyzeImage Node.runtime refusing (js "k1") []
           (Some pngUpload) initialState) in
  Server.cleanResponseText refusal = Some refusal
  /\ (exists e, JSON_parse Node.runtime refusal = Throw e)
  /\ code reply = 500
  /\ body reply
     = VObj [(js "error", VStr (js "Failed to process image"));
             (js "message",
              VStr (js "AI analysis failed - unable to generate personalized captions: cleanAnalysisText is not defined"));
             (js "technicalDetails",
              VStr (js "AI analysis failed - unable to generate personalized captions: cleanAnalysisText is not defined"))].
Proof.
  cbv zeta. split; [vm_compute; reflexivity|].
  split; [eexists; vm_compute; reflexivity|].
  split; vm_compute; reflexivity.
Qed.

(** * Further properties *)

(** ** Key rotation and usage bookkeeping of [makeApiRequestWithFallback] *)

(** A request that got no ok response: it was rejected, or answered with
    a status outside 200-299. *)
Definition refused (outcome : FetchOutcome) : Prop :=
  match outcome with
  | Rejected _ => True
  | Responded r => ok r = false
  end.

Section KeyRotation.
Context (rt : Runtime) (env : Env).
Context (firstKey : jsstring) (moreKeys : list jsstring).

Local Abbreviation keys := (Server.OPENROUTER_API_KEYS firstKey moreKeys).
Local Abbreviation next := (nextIndex firstKey moreKeys).
Local Abbreviation tryAttempt := (Server.tryAttempt rt env firstKey moreKeys).
Local Abbreviation attemptLoop := (Server.attemptLoop rt env firstKey moreKeys).

Lemma iter_nextIndex_mod (k i : nat) :
  (i < length keys)%nat ->
  Nat.iter k next i = ((i + k) mod length keys)%nat.
Proof.
  intros Hi. set (n := length keys) in *.
  induction k as [|k IH].
  - change (Nat.iter 0 next i) with i.
    rewrite Nat.add_0_r. symmetry. by apply Nat.mod_small.
  - change (Nat.iter (S k) next i) with (next (Nat.iter k next i)).
    rewrite IH. unfold nextIndex. fold n.
    rewrite Nat.Div0.add_mod_idemp_l. f_equal. lia.
Qed.

(** The state after [k] refused attempts, each followed by a switch of
    key. *)
Definition skipped (k : nat) (st : State) : State :=
  mkState (usageStats st) (Nat.iter k next (currentApiKeyIndex st))
          (usageFile st) (fetches st + k) (clockReads st) (writes st).

Lemma skipped_0 (st : State) : skipped 0 st = st.
Proof. destruct st. unfold skipped. cbn. f_equal. lia. Qed.

Lemma skipped_S (k : nat) (st : State) :
  skipped k (skipped 1 st) = skipped (S k) st.
Proof.
  unfold skipped. cbn [usageStats currentApiKeyIndex usageFile fetches clockReads writes].
  f_equal; [|lia]. apply (iter_nextIndex firstKey moreKeys).
Qed.

(** What one attempt does to the state. *)
Lemma tryAttempt_frame (requestBody : Request) (st : State) :
  let outcome := fetch env (fetches st) (Server.getCurrentApiKey firstKey moreKeys st)
                       requestBody in
  let '(res, st') := tryAttempt requestBody st in
  imageHashes (usageStats st') = imageHashes (usageStats st)
  /\ (refused outcome ->
      st' = mkState (usageStats st) (currentApiKeyIndex st) (usageFile st)
                    (S (fetches st)) (clockReads st) (writes st)
      /\ forall data, res <> Ok (Server.Returned data)).
Proof.
  cbv zeta. unfold Server.tryAttempt, refused. run_m.
  destruct (fetch env (fetches st) (Server.getCurrentApiKey firstKey moreKeys st)
                  requestBody) as [e|r]; run_m.
  { split; [done|]. intros _. split; [done|]. by intros data. }
  destruct (ok r); run_m.
  - destruct (json r) as [data|e]; run_m.
    + unfold trackUsage, bind, setStats, lift, dateNow, saveUsageStats.
      cbn [usageStats]. destruct (estimateApiCost rt requestBody data) as [addCost|e];
        cbn [usageStats imageHashes ret]; split; done.
    + split; done.
  - destruct (World.text r) as [t|e]; run_m.
    + split; [done|]. intros _. split; [done|]. by intros data.
    + split; [done|]. intros _. split; [done|]. by intros data.
Qed.

(** The key index after the loop: one switch per attempt made, the last
    one excepted. *)
Lemma attemptLoop_index (requestBody : Request) (maxRetries : nat) :
  forall remaining attempt lastError st,
    (attempt + remaining = maxRetries)%nat ->
    let st' := snd (attemptLoop remaining attempt maxRetries requestBody lastError st) in
    (match remaining with O => 0 | S _ => 1 end <= fetches st' - fetches st)%nat
    /\ (fetches st <= fetches st')%nat
    /\ currentApiKeyIndex st'
       = Nat.iter (fetches st' - fetches st - 1) next (currentApiKeyIndex st)
    /\ imageHashes (usageStats st') = imageHashes (usageStats st).
Proof.
  induction remaining as [|remaining IH]; intros attempt lastError st Hn; cbv zeta.
  - cbn [Server.attemptLoop throw snd]. rewrite Nat.sub_diag. unfold Nat.iter; cbn [nat_rect]. by repeat split.
  - cbn [Server.attemptLoop].
    pose proof (tryAttempt_spec rt env firstKey moreKeys requestBody st) as Hstep.
    pose proof (tryAttempt_frame requestBody st) as Hframe.
    cbv zeta in Hstep, Hframe.
    destruct (tryAttempt requestBody st) as [res1 st1].
    destruct Hstep as (Hf1 & Hi1 & _). destruct Hframe as [Hc1 _].
    assert (forall e,
              let st' := snd (bind (Server.switchUnlessLast firstKey moreKeys attempt maxRetries)
                                   (fun _ => attemptLoop remaining (S attempt) maxRetries
                                               requestBody (Some e)) st1) in
              (1 <= fetches st' - fetches st)%nat
              /\ (fetches st <= fetches st')%nat
              /\ currentApiKeyIndex st'
                 = Nat.iter (fetches st' - fetches st - 1) next (currentApiKeyIndex st)
              /\ imageHashes (usageStats st') = imageHashes (usageStats st)) as Hnext.
    { intros e. cbv zeta. unfold bind, Server.switchUnlessLast.
      destruct remaining as [|remaining'].
      - assert ((Z.of_nat attempt <? Z.of_nat maxRetries - 1) = false) as ->
          by (apply Z.ltb_ge; lia).
        cbn [ret Server.attemptLoop throw snd]. rewrite Hf1.
        replace (S (fetches st) - fetches st - 1)%nat with 0%nat by lia.
        unfold Nat.iter; cbn [nat_rect]. repeat split; [lia | lia | done | done].
      - assert ((Z.of_nat attempt <? Z.of_nat maxRetries - 1) = true) as ->
          by (apply Z.ltb_lt; lia).
        unfold Server.switchToNextApiKey.
        match goal with
        | |- context [attemptLoop (S remaining') (S attempt) maxRetries requestBody
                        (Some e) ?s] =>
          destruct (IH (S attempt) (Some e) s ltac:(lia)) as (H1 & H2 & H3 & H4);
          set (st' := snd (attemptLoop (S remaining') (S attempt) maxRetries
                             requestBody (Some e) s)) in *
        end.
        cbn [fetches currentApiKeyIndex usageStats] in H1, H2, H3, H4.
        rewrite Hf1 in H1, H2, H3. rewrite Hi1 in H3.
        split; [lia|]. split; [lia|]. split; [|congruence].
        rewrite H3. fold (next (currentApiKeyIndex st)).
        rewrite (iter_nextIndex firstKey moreKeys).
        f_equal. lia. }
    destruct res1 as [[data|e]|e].
    + cbn [snd]. rewrite Hf1.
      replace (S (fetches st) - fetches st - 1)%nat with 0%nat by lia.
      unfold Nat.iter; cbn [nat_rect]. repeat split; [lia | lia | done | done].
    + apply Hnext.
    + apply Hnext.
Qed.

End KeyRotation.

(** [makeApiRequestWithFallback] switches the key once per attempt made,
    the last one excepted, so the key that answered, or the last one
    tried, stays current; the index stays inside the list of keys, and
    [getCurrentApiKey] keeps returning one of them. *)
Theorem makeApiRequestWithFallback_key_rotation (rt : Runtime) (env : Env)
    (firstKey : jsstring) (moreKeys : list jsstring) (requestBody : Request)
    (maxRetries : option nat) (st : State) :
  (currentApiKeyIndex st < length (Server.OPENROUTER_API_KEYS firstKey moreKeys))%nat ->
  let st' := snd (Server.makeApiRequestWithFallback rt env firstKey moreKeys
                    requestBody maxRetries st) in
  let attempts := (fetches st' - fetches st)%nat in
  currentApiKeyIndex st'
  = ((currentApiKeyIndex st + (attempts - 1))
     mod length (Server.OPENROUTER_API_KEYS firstKey moreKeys))%nat
  /\ exists key,
       Server.getCurrentApiKey firstKey moreKeys st' = Some key
       /\ key ∈ Server.OPENROUTER_API_KEYS firstKey moreKeys.
Proof.
  intros Hi. cbv zeta. unfold Server.makeApiRequestWithFallback.
  set (n := default (length (Server.OPENROUTER_API_KEYS firstKey moreKeys)) maxRetries).
  destruct (attemptLoop_index rt env firstKey moreKeys requestBody n n 0 None st eq_refl)
    as (_ & _ & Hidx & _).
  set (st' := snd (Server.attemptLoop rt env firstKey moreKeys n 0 n requestBody None st))
    in *.
  rewrite (iter_nextIndex_mod firstKey moreKeys _ _ Hi) in Hidx.
  split; [exact Hidx|].
  assert (currentApiKeyIndex st' < length (Server.OPENROUTER_API_KEYS firstKey moreKeys))%nat
    as Hlt by (rewrite Hidx; apply Nat.mod_upper_bound; simpl; lia).
  unfold Server.getCurrentApiKey.
  destruct (lookup_lt_is_Some_2 _ _ Hlt) as [key Hkey].
  exists key. split; [done|]. by eapply list_elem_of_lookup_2.
Qed.

Lemma makeApiRequestWithFallback_key_rotation_witness :
  currentApiKeyIndex
    (snd (Server.makeApiRequestWithFallback Node.runtime unauthorizedThenOk
            (js "k1") [js "k2"] TestRequest None initialState)) = 1%nat.
Proof.
  assert (currentApiKeyIndex initialState
          < length (Server.OPENROUTER_API_KEYS (js "k1") [js "k2"]))%nat as Hi
    by (cbn; lia).
  destruct (makeApiRequestWithFallback_key_rotation Node.runtime unauthorizedThenOk
              (js "k1") [js "k2"] TestRequest None initialState Hi) as [H _].
  rewrite H. vm_compute. reflexivity.
Defined.

Section Bookkeeping.
Context (rt : Runtime) (env : Env).
Context (firstKey : jsstring) (moreKeys : list jsstring).

Local Abbreviation keys := (Server.OPENROUTER_API_KEYS firstKey moreKeys).
Local Abbreviation next := (nextIndex firstKey moreKeys).
Local Abbreviation tryAttempt := (Server.tryAttempt rt env firstKey moreKeys).
Local Abbreviation attemptLoop := (Server.attemptLoop rt env firstKey moreKeys).
Local Abbreviation out := (attemptOutcome env firstKey moreKeys).
Local Abbreviation skip := (skipped firstKey moreKeys).

Lemma attemptOutcome_skipped (requestBody : Request) (st : State) (i : nat) :
  out (skip 1 st) requestBody i = out st requestBody (S i).
Proof.
  unfold attemptOutcome, skipped.
  cbn [fetches currentApiKeyIndex]. f_equal; [lia|]. f_equal.
  apply (iter_nextIndex firstKey moreKeys).
Qed.

Lemma attemptLoop_unfold (requestBody : Request) (maxRetries remaining attempt : nat)
    (lastError : option JsError) (st : State) :
  attemptLoop (S remaining) attempt maxRetries requestBody lastError st
  = match tryAttempt requestBody st with
    | (Ok (Server.Returned data), st') => (Ok data, st')
    | (Ok (Server.Failed e), st') =>
      bind (Server.switchUnlessLast firstKey moreKeys attempt maxRetries)
           (fun _ => attemptLoop remaining (S attempt) maxRetries requestBody (Some e))
           st'
    | (Throw error, st') =>
      bind (Server.switchUnlessLast firstKey moreKeys attempt maxRetries)
           (fun _ => attemptLoop remaining (S attempt) maxRetries requestBody
                       (Some (Server.caughtError error)))
           st'
    end.
Proof. reflexivity. Qed.

(** A refused attempt that is not the last one leaves the state as it
    was, the key switched and one request consumed. *)
Lemma attemptLoop_refused_step (requestBody : Request) (maxRetries : nat)
    (remaining attempt : nat) (lastError : option JsError) (st : State) :
  (attempt + S (S remaining) = maxRetries)%nat ->
  refused (out st requestBody 0) ->
  exists e,
    attemptLoop (S (S remaining)) attempt maxRetries requestBody lastError st
    = attemptLoop (S remaining) (S attempt) maxRetries requestBody (Some e)
        (skip 1 st).
Proof.
  intros Hn Href. rewrite attemptLoop_unfold.
  pose proof (tryAttempt_frame rt env firstKey moreKeys requestBody st) as Hframe.
  cbv zeta in Hframe. unfold attemptOutcome in Href.
  rewrite Nat.add_0_r in Href. change (Nat.iter 0 next ?i) with i in Href.
  destruct (tryAttempt requestBody st) as [res1 st1].
  destruct Hframe as [_ Hframe]. destruct (Hframe Href) as [-> Hres].
  assert (forall e,
            bind (Server.switchUnlessLast firstKey moreKeys attempt maxRetries)
                 (fun _ => attemptLoop (S remaining) (S attempt) maxRetries requestBody
                             (Some e))
                 (mkState (usageStats st) (currentApiKeyIndex st) (usageFile st)
                          (S (fetches st)) (clockReads st) (writes st))
            = attemptLoop (S remaining) (S attempt) maxRetries requestBody (Some e)
                (skip 1 st)) as Hnext.
  { intros e. unfold bind, Server.switchUnlessLast.
    assert ((Z.of_nat attempt <? Z.of_nat maxRetries - 1) = true) as ->
      by (apply Z.ltb_lt; lia).
    unfold Server.switchToNextApiKey, skipped.
    cbn [usageStats currentApiKeyIndex usageFile fetches clockReads writes].
    replace (fetches st + 1)%nat with (S (fetches st)) by lia. reflexivity. }
  destruct res1 as [[data|e]|e].
  - by destruct (Hres data).
  - exists e. apply Hnext.
  - exists (Server.caughtError e). apply Hnext.
Qed.

(** [k] refused attempts at the start of the loop, more attempts being
    left after them. *)
Lemma attemptLoop_skip (requestBody : Request) (maxRetries : nat) :
  forall k remaining attempt lastError st,
    (attempt + remaining = maxRetries)%nat ->
    (k < remaining)%nat ->
    (forall i, (i < k)%nat -> refused (out st requestBody i)) ->
    exists lastError',
      attemptLoop remaining attempt maxRetries requestBody lastError st
      = attemptLoop (remaining - k) (attempt + k) maxRetries requestBody lastError'
          (skip k st).
Proof.
  induction k as [|k IH]; intros remaining attempt lastError st Hn Hk Href.
  - exists lastError. by rewrite (skipped_0 firstKey moreKeys), Nat.sub_0_r, Nat.add_0_r.
  - destruct remaining as [|[|remaining]]; [lia | lia |].
    destruct (attemptLoop_refused_step requestBody maxRetries remaining attempt
                lastError st Hn) as [e ->].
    { apply Href. lia. }
    destruct (IH (S remaining) (S attempt) (Some e) (skip 1 st)) as [lastError' ->].
    + lia.
    + lia.
    + intros i Hi. rewrite attemptOutcome_skipped. apply Href. lia.
    + exists lastError'. rewrite (skipped_S firstKey moreKeys).
      replace (S attempt + k)%nat with (attempt + S k)%nat by lia.
      reflexivity.
Qed.

End Bookkeeping.

(** [makeApiRequestWithFallback] never touches the image cache. *)
Theorem makeApiRequestWithFallback_keeps_cache (rt : Runtime) (env : Env)
    (firstKey : jsstring) (moreKeys : list jsstring) (requestBody : Request)
    (maxRetries : option nat) (st : State) (imageHash : jsstring) :
  getCachedResult imageHash
    (snd (Server.makeApiRequestWithFallback rt env firstKey moreKeys requestBody
            maxRetries st))
  = getCachedResult imageHash st.
Proof.
  unfold Server.makeApiRequestWithFallback, getCachedResult.
  set (n := default (length (Server.OPENROUTER_API_KEYS firstKey moreKeys)) maxRetries).
  destruct (attemptLoop_index rt env firstKey moreKeys requestBody n n 0 None st eq_refl)
    as (_ & _ & _ & Hc).
  by rewrite Hc.
Qed.

(** A call none of whose attempts gets an ok response throws, is not
    counted in the usage statistics, reads no clock and writes no file; it
    has sent one request per attempt. *)
Theorem makeApiRequestWithFallback_refused (rt : Runtime) (env : Env)
    (firstKey : jsstring) (moreKeys : list jsstring) (requestBody : Request)
    (maxRetries : option nat) (st : State) :
  let n := default (length (Server.OPENROUTER_API_KEYS firstKey moreKeys)) maxRetries in
  (forall i, (i < n)%nat ->
     refused (attemptOutcome env firstKey moreKeys st requestBody i)) ->
  let '(res, st') :=
    Server.makeApiRequestWithFallback rt env firstKey moreKeys requestBody
      maxRetries st in
  (exists e, res = Throw e)
  /\ usageStats st' = usageStats st
  /\ usageFile st' = usageFile st
  /\ writes st' = writes st
  /\ clockReads st' = clockReads st
  /\ fetches st' = (fetches st + n)%nat.
Proof.
  cbv zeta. intros Href. unfold Server.makeApiRequestWithFallback.
  set (n := default (length (Server.OPENROUTER_API_KEYS firstKey moreKeys)) maxRetries)
    in *.
  destruct n as [|m].
  - cbn [Server.attemptLoop throw]. rewrite Nat.add_0_r. eauto 10.
  - destruct (attemptLoop_skip rt env firstKey moreKeys requestBody (S m) m (S m) 0
                None st eq_refl ltac:(lia)) as [lastError' ->].
    { intros i Hi. apply Href. lia. }
    replace (S m - m)%nat with 1%nat by lia. cbn [Nat.add Server.attemptLoop].
    pose proof (tryAttempt_frame rt env firstKey moreKeys requestBody
                  (skipped firstKey moreKeys m st)) as Hframe.
    cbv zeta in Hframe.
    destruct (Server.tryAttempt rt env firstKey moreKeys requestBody
                (skipped firstKey moreKeys m st)) as [res1 st1].
    destruct Hframe as [_ Hframe].
    destruct Hframe as [-> Hres].
    { apply (Href m). lia. }
    assert ((Z.of_nat m <? Z.of_nat (S m) - 1) = false) as Hlast
      by (apply Z.ltb_ge; lia).
    destruct res1 as [[data|e]|e].
    + by destruct (Hres data).
    + unfold bind, Server.switchUnlessLast. rewrite Hlast.
      cbn [ret Server.attemptLoop throw skipped usageStats usageFile writes clockReads
           fetches].
      repeat split; eauto; lia.
    + unfold bind, Server.switchUnlessLast. rewrite Hlast.
      cbn [ret Server.attemptLoop throw skipped usageStats usageFile writes clockReads
           fetches].
      repeat split; eauto; lia.
Qed.

Lemma makeApiRequestWithFallback_refused_witness :
  usageStats
    (snd (Server.makeApiRequestWithFallback Node.runtime unauthorizedThenOk
            (js "k1") [js "k3"] TestRequest None initialState))
  = usageStats initialState.
Proof.
  pose proof (makeApiRequestWithFallback_refused Node.runtime unauthorizedThenOk
                (js "k1") [js "k3"] TestRequest None initialState) as H.
  cbv zeta in H.
  destruct (Server.makeApiRequestWithFallback Node.runtime unauthorizedThenOk
              (js "k1") [js "k3"] TestRequest None initialState) as [res st'].
  destruct H as (_ & Hu & _); [|exact Hu].
  intros i Hi. cbn in Hi.
  destruct i as [|[|i]]; [vm_compute; reflexivity | vm_compute; reflexivity | lia].
Defined.

(** The statistics after the bookkeeping of one answered request. *)
Definition countedStats (rt : Runtime) (env : Env) (keyName : jsstring)
    (requestBody : Request) (data : JsVal) (st : State) : UsageStats :=
  let u := usageStats st in
  let today := isoDate rt (clock env (clockReads st)) in
  let day := default (mkDaily 0 (CostOf (js "0"))) (dailyUsage u !! today) in
  mkStats (totalRequests u + 1) (CostPlus (totalCost u) requestBody data)
          (<[keyName := default 0 (requestsByKey u !! keyName) + 1]> (requestsByKey u))
          (<[today := mkDaily (requests day + 1) (CostPlus (cost day) requestBody data)]>
             (dailyUsage u))
          (imageHashes u).

Lemma trackUsage_counts (rt : Runtime) (env : Env) (keyName : jsstring)
    (requestBody : Request) (data : JsVal) (st : State) :
  data <> VNull ->
  data <> VUndefined ->
  trackUsage rt env keyName requestBody data st
  = (Ok tt,
     mkState (countedStats rt env keyName requestBody data st)
             (currentApiKeyIndex st)
             (if writable env (writes st)
              then Some (countedStats rt env keyName requestBody data st)
              else usageFile st)
             (fetches st) (S (clockReads st)) (S (writes st))).
Proof.
  intros Hnull Hundef.
  destruct data as [| |b|nz lx|s|items props|props];
    [congruence | congruence | reflexivity..].
Qed.

(** A call that is answered at attempt [k], after [k] refused attempts,
    returns the JSON body and is counted exactly once: in the total, in
    the counter of the key that answered and in the count of the day the
    clock shows; the cost estimate is added once, the cache is untouched,
    and the statistics are saved when the file can be written. *)
Theorem makeApiRequestWithFallback_counted_once (rt : Runtime) (env : Env)
    (firstKey : jsstring) (moreKeys : list jsstring) (requestBody : Request)
    (maxRetries : option nat) (st : State) (k : nat) (r : Response) (data : JsVal) :
  let n := default (length (Server.OPENROUTER_API_KEYS firstKey moreKeys)) maxRetries in
  let out := attemptOutcome env firstKey moreKeys st requestBody in
  (k < n)%nat ->
  (forall i, (i < k)%nat -> refused (out i)) ->
  out k = Responded r ->
  ok r = true ->
  json r = Ok data ->
  data <> VNull ->
  data <> VUndefined ->
  let '(res, st') :=
    Server.makeApiRequestWithFallback rt env firstKey moreKeys requestBody
      maxRetries st in
  let u := usageStats st in
  let u' := usageStats st' in
  let keyName :=
    js "key_" ++ showNat (Nat.iter k (nextIndex firstKey moreKeys)
                            (currentApiKeyIndex st) + 1) in
  let today := isoDate rt (clock env (clockReads st)) in
  res = Ok data
  /\ totalRequests u' = totalRequests u + 1
  /\ requestsByKey u'
     = <[keyName := default 0 (requestsByKey u !! keyName) + 1]> (requestsByKey u)
  /\ requests <$> (dailyUsage u' !! today)
     = Some (default 0 (requests <$> (dailyUsage u !! today)) + 1)
  /\ (forall day, day <> today -> dailyUsage u' !! day = dailyUsage u !! day)
  /\ totalCost u' = CostPlus (totalCost u) requestBody data
  /\ imageHashes u' = imageHashes u
  /\ usageFile st' = (if writable env (writes st) then Some u' else usageFile st)
  /\ fetches st' = (fetches st + k + 1)%nat.
Proof.
  cbv zeta. intros Hk Href Hout Hok Hjson Hnull Hundef.
  unfold Server.makeApiRequestWithFallback.
  set (n := default (length (Server.OPENROUTER_API_KEYS firstKey moreKeys)) maxRetries)
    in *.
  destruct (attemptLoop_skip rt env firstKey moreKeys requestBody n k n 0 None st
              eq_refl Hk Href) as [lastError' ->].
  destruct (n - k)%nat as [|remaining] eqn:En; [lia|].
  rewrite attemptLoop_unfold.
  unfold Server.tryAttempt, bind at 1, doFetch, Server.getCurrentApiKey.
  cbn [skipped fetches currentApiKeyIndex].
  unfold attemptOutcome in Hout. rewrite Hout, Hok.
  unfold bind at 1, lift at 1. rewrite Hjson.
  unfold bind at 1. rewrite trackUsage_counts by done.
  cbn [ret usageStats usageFile fetches clockReads writes currentApiKeyIndex].
  unfold countedStats.
  cbn [skipped usageStats clockReads writes usageFile totalRequests totalCost
       requestsByKey dailyUsage imageHashes].
  split; [reflexivity|]. split; [reflexivity|]. split; [reflexivity|].
  split.
  { rewrite lookup_insert_eq. cbn [fmap option_fmap option_map requests].
    by destruct (dailyUsage (usageStats st) !! _). }
  split; [intros day Hday; by rewrite lookup_insert_ne|].
  split; [reflexivity|]. split; [reflexivity|]. split; [reflexivity|]. lia.
Qed.

Lemma makeApiRequestWithFallback_counted_once_witness :
  totalRequests
    (usageStats
       (snd (Server.makeApiRequestWithFallback Node.runtime unauthorizedThenOk
               (js "k1") [js "k2"] TestRequest None initialState))) = 1.
Proof.
  pose proof (makeApiRequestWithFallback_counted_once Node.runtime unauthorizedThenOk
                (js "k1") [js "k2"] TestRequest None initialState 1
                (mkResponse 200 (js "OK") (Ok (VObj [(js "choices", VArr [] [])]))
                            (Ok []))
                (VObj [(js "choices", VArr [] [])])) as H.
  cbv zeta in H.
  destruct (Server.makeApiRequestWithFallback Node.runtime unauthorizedThenOk
              (js "k1") [js "k2"] TestRequest None initialState) as [res st'].
  destruct H as (_ & Ht & _).
  - cbn. lia.
  - intros i Hi. assert (i = 0%nat) as -> by lia. vm_compute. reflexivity.
  - vm_compute. reflexivity.
  - reflexivity.
  - reflexivity.
  - discriminate.
  - discriminate.
  - cbn [snd]. rewrite Ht. reflexivity.
Defined.

(** ** The analysis cache of [server.js] over successive requests *)

Section CacheUse.
Context (rt : Runtime) (env : Env).
Context (firstKey : jsstring) (moreKeys : list jsstring).

Local Abbreviation analyzeImage := (Server.analyzeImage rt env firstKey moreKeys).
Local Abbreviation analyzeFresh := (Server.analyzeFresh rt env firstKey moreKeys).

(** The state a cache hit leaves: the entry counted and stamped with the
    time of the access, two clock readings and one write of the file
    later. *)
Definition afterHit (imageHash : jsstring) (cached : CacheEntry) (st : State)
  : State :=
  let u := usageStats st in
  let u' :=
    mkStats (totalRequests u) (totalCost u) (requestsByKey u) (dailyUsage u)
            (<[imageHash := mkEntry (result cached) (timestamp cached)
                                    (accessCount cached + 1)
                                    (Some (clock env (S (clockReads st))))]>
               (imageHashes u)) in
  mkState u' (currentApiKeyIndex st)
          (if writable env (writes st) then Some u' else usageFile st)
          (fetches st) (S (S (clockReads st))) (S (writes st)).

Lemma analyzeImage_hit (imageBuffer : list byte) (mimeType : jsstring)
    (st : State) (cached : CacheEntry) :
  getCachedResult (Server.generateImageHash imageBuffer) st = Some cached ->
  clock env (clockReads st) - timestamp cached < Server.dayMillis ->
  analyzeImage imageBuffer mimeType st
  = (Ok (result cached),
     afterHit (Server.generateImageHash imageBuffer) cached st).
Proof.
  intros Hc Hage. unfold Server.analyzeImage, catch. rewrite Hc.
  unfold bind at 1. cbn [dateNow].
  destruct (Z.ltb_spec (clock env (clockReads st) - timestamp cached) Server.dayMillis)
    as [_|Hge]; [|lia].
  unfold bind at 1, updateCacheAccess, getCachedResult. cbn [usageStats].
  unfold getCachedResult in Hc. rewrite Hc. run_m. reflexivity.
Qed.

(** A result computed after a miss is in the cache when [analyzeImage]
    returns, stamped with the last clock reading. *)
Lemma analyzeFresh_caches (imageBuffer : list byte) (mimeType imageHash : jsstring)
    (st st1 : State) (analysis : JsVal) :
  analyzeFresh imageBuffer mimeType imageHash st = (Ok analysis, st1) ->
  getCachedResult imageHash st1
  = Some (mkEntry analysis (clock env (clockReads st1 - 1)) 1 None).
Proof.
  unfold Server.analyzeFresh. unfold bind at 1.
  destruct (Server.makeApiRequestWithFallback rt env firstKey moreKeys
              (AnalysisRequest mimeType imageBuffer) None st) as [[data|e] st2];
    [|done].
  unfold bind at 1, lift at 1.
  destruct (messageContent rt data) as [content|e]; [|done].
  unfold catch, bind at 1, lift at 1.
  destruct (Server.parseAnalysis rt content) as [a|e]; [|done].
  run_m. intros [= <- <-].
  unfold getCachedResult. cbn [usageStats imageHashes clockReads].
  rewrite lookup_insert_eq. do 3 f_equal. lia.
Qed.

End CacheUse.

(** Once [analyzeImage] has returned an analysis obtained upstream, a
    second call for the same bytes less than 24 hours after the result was
    stored returns the same analysis without any request, whatever MIME
    type is passed. *)
Theorem analyzeImage_repeat (rt : Runtime) (env : Env) (firstKey : jsstring)
    (moreKeys : list jsstring) (imageBuffer : list byte)
    (mimeType mimeType' : jsstring) (st st1 : State) (analysis : JsVal) :
  Server.analyzeImage rt env firstKey moreKeys imageBuffer mimeType st
  = (Ok analysis, st1) ->
  (fetches st < fetches st1)%nat ->
  clock env (clockReads st1) - clock env (clockReads st1 - 1) < Server.dayMillis ->
  let '(res2, st2) :=
    Server.analyzeImage rt env firstKey moreKeys imageBuffer mimeType' st1 in
  res2 = Ok analysis /\ fetches st2 = fetches st1.
Proof.
  intros Hfirst Hsent Hage.
  assert (getCachedResult (Server.generateImageHash imageBuffer) st1
          = Some (mkEntry analysis (clock env (clockReads st1 - 1)) 1 None)) as Hc.
  { revert Hfirst. unfold Server.analyzeImage, catch.
    destruct (getCachedResult (Server.generateImageHash imageBuffer) st)
      as [cached|] eqn:Ec.
    - unfold bind at 1. cbn [dateNow].
      destruct (clock env (clockReads st) - timestamp cached <? Server.dayMillis).
      + unfold bind at 1, updateCacheAccess. unfold getCachedResult in *.
        cbn [usageStats]. rewrite Ec. run_m. intros [= <- <-].
        cbn [fetches] in Hsent. lia.
      + match goal with
        | |- context [Server.analyzeFresh rt env firstKey moreKeys ?b ?m ?h ?s] =>
          destruct (Server.analyzeFresh rt env firstKey moreKeys b m h s)
            as [[a|e] st'] eqn:Ef; [|done]
        end.
        intros [= <- <-].
        by apply (analyzeFresh_caches rt env firstKey moreKeys _ _ _ _ _ _ Ef).
    - destruct (Server.analyzeFresh rt env firstKey moreKeys imageBuffer mimeType
                  (Server.generateImageHash imageBuffer) st) as [[a|e] st'] eqn:Ef;
        [|done].
      intros [= <- <-].
      by apply (analyzeFresh_caches rt env firstKey moreKeys _ _ _ _ _ _ Ef). }
  rewrite (analyzeImage_hit rt env firstKey moreKeys imageBuffer mimeType' st1 _ Hc Hage).
  split; reflexivity.
Qed.

(** A cache hit does not renew an entry: it keeps the time it was stored
    at, so a further call 24 hours or more after that time goes upstream,
    however recent the last hit is. *)
Theorem analyzeImage_hit_keeps_expiry (rt : Runtime) (env : Env)
    (firstKey : jsstring) (moreKeys : list jsstring) (imageBuffer : list byte)
    (mimeType : jsstring) (st : State) (cached : CacheEntry) :
  getCachedResult (Server.generateImageHash imageBuffer) st = Some cached ->
  clock env (clockReads st) - timestamp cached < Server.dayMillis ->
  Server.dayMillis <= clock env (S (S (clockReads st))) - timestamp cached ->
  let '(res1, st1) :=
    Server.analyzeImage rt env firstKey moreKeys imageBuffer mimeType st in
  let '(res2, st2) :=
    Server.analyzeImage rt env firstKey moreKeys imageBuffer mimeType st1 in
  res1 = Ok (result cached)
  /\ fetches st1 = fetches st
  /\ (timestamp <$> getCachedResult (Server.generateImageHash imageBuffer) st1)
     = Some (timestamp cached)
  /\ (fetches st1 < fetches st2)%nat.
Proof.
  intros Hc Hfresh Hstale.
  rewrite (analyzeImage_hit rt env firstKey moreKeys imageBuffer mimeType st cached
             Hc Hfresh).
  set (st1 := afterHit env (Server.generateImageHash imageBuffer) cached st).
  assert (getCachedResult (Server.generateImageHash imageBuffer) st1
          = Some (mkEntry (result cached) (timestamp cached) (accessCount cached + 1)
                          (Some (clock env (S (clockReads st)))))) as Hc1.
  { unfold getCachedResult, st1, afterHit. cbn [usageStats imageHashes].
    by rewrite lookup_insert_eq. }
  pose proof (analyzeImage_cache_expiry rt env firstKey moreKeys imageBuffer mimeType
                st1 _ Hc1) as H2.
  cbv zeta in H2.
  destruct (Server.analyzeImage rt env firstKey moreKeys imageBuffer mimeType st1)
    as [res2 st2].
  destruct H2 as [_ H2].
  split; [done|]. split; [done|]. split; [by rewrite Hc1|].
  apply H2. exact Hstale.
Qed.

(** A JSON member [k: v] with a string value, and an analysis object as
    the model is asked to write it. *)
Definition jsonMember (k v : jsstring) : jsstring :=
  [34%N] ++ k ++ [34%N] ++ js ":" ++ [34%N] ++ v ++ [34%N].

Definition analysisJson : jsstring :=
  js "{" ++ jsonMember (js "mainSubject") (js "orange cat") ++ js ","
  ++ jsonMember (js "description") (js "an orange cat asleep on a sofa") ++ js "}".

Definition analysisResponse : Response :=
  mkResponse 200 (js "OK")
    (Ok (VObj [(js "choices",
                VArr [VObj [(js "message",
                             VObj [(js "content", VStr analysisJson)])]] [])]))
    (Ok analysisJson).

(** An upstream that answers every request with [analysisJson]; the clock
    shows one second at the first two readings and 25 hours afterwards. *)
Definition describing : Env :=
  mkEnv (fun _ _ _ => Responded analysisResponse)
        (fun n => if (n <? 2)%nat then 1000 else 90000000) (fun _ => true).

(** The same upstream with a clock that stands still. *)
Definition describingAtOnce : Env :=
  mkEnv (fun _ _ _ => Responded analysisResponse) (fun _ => 1000) (fun _ => true).

(** Whether an evaluation returned. *)
Definition returned {A} (x : Exc A) : bool :=
  match x with Ok _ => true | Throw _ => false end.

Lemma analyzeImage_repeat_witness :
  let '(res1, st1) :=
    Server.analyzeImage Node.runtime describingAtOnce (js "k1") [] (buffer pngUpload)
      (js "image/png") initialState in
  let '(res2, st2) :=
    Server.analyzeImage Node.runtime describingAtOnce (js "k1") [] (buffer pngUpload)
      (js "image/jpeg") st1 in
  res2 = res1 /\ fetches st2 = fetches st1.
Proof.
  assert (returned (fst (Server.analyzeImage Node.runtime describingAtOnce (js "k1") []
                           (buffer pngUpload) (js "image/png") initialState)) = true)
    as Hok by (vm_compute; reflexivity).
  destruct (Server.analyzeImage Node.runtime describingAtOnce (js "k1") [] (buffer pngUpload)
              (js "image/png") initialState) as [[analysis|e] st1] eqn:E.
  - assert (st1 = snd (Server.analyzeImage Node.runtime describingAtOnce (js "k1") []
                         (buffer pngUpload) (js "image/png") initialState)) as Hst
      by (by rewrite E).
    apply (analyzeImage_repeat Node.runtime describingAtOnce (js "k1") [] (buffer pngUpload)
             (js "image/png") (js "image/jpeg") initialState st1 analysis E).
    + rewrite Hst. vm_compute. lia.
    + rewrite Hst. vm_compute. reflexivity.
  - discriminate Hok.
Defined.

Lemma analyzeImage_hit_keeps_expiry_witness :
  let '(res1, st1) :=
    Server.analyzeImage Node.runtime describing (js "k1") [] (buffer pngUpload)
      (js "image/png") staleState in
  let '(res2, st2) :=
    Server.analyzeImage Node.runtime describing (js "k1") [] (buffer pngUpload)
      (js "image/png") st1 in
  res1 = Ok (result staleEntry)
  /\ fetches st1 = fetches staleState
  /\ (timestamp <$> getCachedResult (Server.generateImageHash (buffer pngUpload)) st1)
     = Some (timestamp staleEntry)
  /\ (fetches st1 < fetches st2)%nat.
Proof.
  apply (analyzeImage_hit_keeps_expiry Node.runtime describing (js "k1") []
           (buffer pngUpload) (js "image/png") staleState staleEntry).
  - vm_compute. reflexivity.
  - vm_compute. reflexivity.
  - vm_compute. discriminate.
Defined.

(** ** The analysis object returned by [analyzeImage] *)

Lemma isObject_getProp (a : JsVal) (k : jsstring) :
  isObject a -> exists v, getProp a k = Some v.
Proof. destruct a; cbn; try done; eauto. Qed.

Lemma withDefault_isObject (k : jsstring) (d a : JsVal) :
  isObject a -> isObject (Server.withDefault k d a).
Proof. apply setProp_isObject. Qed.

Lemma withDefault_keeps (k k' : jsstring) (d a v : JsVal) :
  getProp a k' = Some v -> truthy v = true ->
  getProp (Server.withDefault k d a) k' = Some v.
Proof.
  intros Hv Ht. unfold Server.withDefault.
  destruct (decide (k = k')) as [->|Hne].
  - rewrite getProp_setProp_eq by (by eapply getProp_truthy_isObject).
    rewrite Hv. cbn [default from_option id]. unfold orElse. by rewrite Ht.
  - by rewrite getProp_setProp_ne.
Qed.

Lemma withDefault_fills (k : jsstring) (d a : JsVal) :
  isObject a -> truthy d = true -> hasField (Server.withDefault k d a) k.
Proof.
  intros Ha Hd. unfold hasField, Server.withDefault.
  rewrite getProp_setProp_eq by done. eexists. split; [done|].
  unfold orElse. by destruct (truthy (default VUndefined (getProp a k))) eqn:E.
Qed.

(** Filling in a list of defaults, all truthy. *)
Lemma defaults_fold (defaults : list (jsstring * JsVal)) :
  Forall (fun kv => truthy kv.2 = true) defaults ->
  forall a,
    isObject a ->
    let a' := fold_left (fun a kv => Server.withDefault kv.1 kv.2 a) defaults a in
    isObject a'
    /\ (forall k v, getProp a k = Some v -> truthy v = true -> getProp a' k = Some v)
    /\ (forall k d, (k, d) ∈ defaults -> hasField a' k).
Proof.
  induction 1 as [|[k d] defaults Hd _ IH]; intros a Ha; cbn [fold_left].
  - split; [done|]. split; [done|]. intros k d Hin. by apply elem_of_nil in Hin.
  - cbn [fst snd] in *.
    destruct (IH (Server.withDefault k d a) (withDefault_isObject k d a Ha))
      as (Hobj & Hkeep & Hfill).
    split; [done|]. split.
    + intros k' v Hv Ht. apply Hkeep; [|done]. by apply withDefault_keeps.
    + intros k' d' Hin. apply elem_of_cons in Hin as [[= -> ->]|Hin].
      * destruct (withDefault_fills k d a Ha Hd) as (v & Hv & Ht).
        exists v. split; [|done]. by apply Hkeep.
      * by eapply Hfill.
Qed.

(** What the inner [try] block of [analyzeImage] hands on: the parsed
    object with every field of [analysisDefaults] truthy, a main subject
    and a description that are non-empty strings, and every truthy field
    of the parsed reply as the model wrote it. *)
Theorem parseAnalysis_defaults (rt : Runtime) (analysisText analysis : JsVal) :
  Server.parseAnalysis rt analysisText = Ok analysis ->
  (forall k d, (k, d) ∈ Server.analysisDefaults -> hasField analysis k)
  /\ (exists s, getProp analysis (js "mainSubject") = Some (VStr s)
                /\ nonEmpty s = true)
  /\ (exists s, getProp analysis (js "description") = Some (VStr s)
                /\ nonEmpty s = true)
  /\ exists text cleaned parsed,
       analysisText = VStr text
       /\ Server.cleanResponseText text = Some cleaned
       /\ JSON_parse rt cleaned = Ok parsed
       /\ forall k v, getProp parsed k = Some v -> truthy v = true ->
                      getProp analysis k = Some v.
Proof.
  unfold Server.parseAnalysis.
  destruct analysisText as [| |b|nz lx|text|items props|props]; cbn [exc_bind]; try done.
  destruct (Server.cleanResponseText text) as [cleaned|] eqn:Ec; cbn [exc_bind]; [|done].
  destruct (JSON_parse rt cleaned) as [parsed|e] eqn:Ep; cbn [exc_bind]; [|done].
  assert (Forall (fun kv : jsstring * JsVal => truthy kv.2 = true)
                 Server.analysisDefaults) as Hd
    by (apply Forall_forall; intros [k d] Hin;
        repeat (apply elem_of_cons in Hin as [[= -> ->]|Hin]; [reflexivity|]);
        by apply elem_of_nil in Hin).
  assert (isObject parsed ->
          (try checked <- Server.validateImageAnalysis rt
                            (fold_left (fun a kv => Server.withDefault kv.1 kv.2 a)
                               Server.analysisDefaults parsed) ;;
           Ok (fold_left (fun a kv => Server.withDefault kv.1 kv.2 a)
                 Server.analysisDefaults parsed))%exc = Ok analysis ->
          (forall k d, (k, d) ∈ Server.analysisDefaults -> hasField analysis k)
          /\ (exists s, getProp analysis (js "mainSubject") = Some (VStr s)
                        /\ nonEmpty s = true)
          /\ (exists s, getProp analysis (js "description") = Some (VStr s)
                        /\ nonEmpty s = true)
          /\ exists text0 cleaned0 parsed0,
               VStr text = VStr text0
               /\ Server.cleanResponseText text0 = Some cleaned0
               /\ JSON_parse rt cleaned0 = Ok parsed0
               /\ forall k v, getProp parsed0 k = Some v -> truthy v = true ->
                              getProp analysis k = Some v) as Hmain.
  { intros Hobj.
    destruct (defaults_fold Server.analysisDefaults Hd parsed Hobj)
      as (Hobj' & Hkeep & Hfill).
    set (a' := fold_left (fun a kv => Server.withDefault kv.1 kv.2 a)
                 Server.analysisDefaults parsed) in *.
    unfold Server.validateImageAnalysis, Server.prop.
    destruct (Hfill (js "mainSubject") (VStr (js "unknown subject")))
      as (ms & Hms & Tms); [apply list_elem_of_here|].
    destruct (Hfill (js "description") (VStr (js "No description available")))
      as (ds & Hds & Tds); [do 2 apply list_elem_of_further; apply list_elem_of_here|].
    rewrite Hms. cbn [exc_bind].
    destruct ms as [| |b|nz lx|s|items props|props]; cbn [Server.lowerCased exc_bind];
      try (intros Hx; discriminate Hx).
    rewrite Hds. cbn [exc_bind].
    destruct ds as [| |b|nz lx|s'|items props|props]; cbn [Server.lowerCased exc_bind];
      try (intros Hx; discriminate Hx).
    intros Hx. injection Hx as <-.
    split; [exact Hfill|].
    split; [exists s; split; [exact Hms|exact Tms]|].
    split; [exists s'; split; [exact Hds|exact Tds]|].
    exists text, cleaned, parsed.
    split; [reflexivity|]. split; [exact Ec|]. split; [exact Ep|]. exact Hkeep. }
  destruct parsed as [| |b|nz lx|s|items props|props]; try done; by apply Hmain.
Qed.

Lemma parseAnalysis_defaults_witness :
  exists analysis,
    Server.parseAnalysis Node.runtime (VStr analysisJson) = Ok analysis
    /\ hasField analysis (js "keywords")
    /\ getProp analysis (js "mainSubject") = Some (VStr (js "orange cat")).
Proof.
  destruct (Server.parseAnalysis Node.runtime (VStr analysisJson))
    as [analysis|e] eqn:E.
  - exists analysis. split; [done|].
    destruct (parseAnalysis_defaults Node.runtime (VStr analysisJson) analysis E)
      as (Hfill & _ & _ & _).
    split.
    + apply (Hfill (js "keywords") (VArr [] [])).
      unfold Server.analysisDefaults.
      do 9 apply list_elem_of_further. apply list_elem_of_here.
    + vm_compute in E. injection E as <-. vm_compute. reflexivity.
  - vm_compute in E. discriminate E.
Defined.

(** ** The image route of [server.js] *)

(** An upload that is not an image, or an empty one, is answered from the
    [catch] block: status 500 under the generic error, the reason in
    [message], with no request sent and the state as it was. *)
Theorem postAnalyzeImage_invalid_upload (rt : Runtime) (env : Env)
    (firstKey : jsstring) (moreKeys : list jsstring) (f : Upload) (st : State) :
  (startsWith (js "image/") (mimetype f) = false ->
   Server.postAnalyzeImage rt env firstKey moreKeys (Some f) st
   = (mkReply 500
        (VObj [(js "error", VStr (js "Failed to process image"));
               (js "message",
                VStr (js "Invalid file type. Please upload an image file."));
               (js "technicalDetails",
                VStr (js "Invalid file type. Please upload an image file."))]), st))
  /\ (startsWith (js "image/") (mimetype f) = true ->
      buffer f = [] ->
      Server.postAnalyzeImage rt env firstKey moreKeys (Some f) st
      = (mkReply 500
           (VObj [(js "error", VStr (js "Failed to process image"));
                  (js "message",
                   VStr (js "Empty file. Please upload a valid image."));
                  (js "technicalDetails",
                   VStr (js "Empty file. Please upload a valid image."))]), st)).
Proof.
  split.
  - intros Hs. unfold Server.postAnalyzeImage. rewrite Hs. cbn [negb throw].
    by f_equal.
  - intros Hs He. unfold Server.postAnalyzeImage, size. rewrite Hs, He.
    cbn [negb length Z.of_nat Z.eqb throw]. by f_equal.
Qed.

Lemma postAnalyzeImage_invalid_upload_witness :
  code (fst (Server.postAnalyzeImage Node.runtime refusing (js "k1") []
               (Some (mkUpload (bufferFrom "abc") (js "text/plain"))) initialState))
  = 500
  /\ fetches (snd (Server.postAnalyzeImage Node.runtime refusing (js "k1") []
                     (Some (mkUpload [] (js "image/png"))) initialState)) = 0%nat.
Proof.
  split.
  - rewrite (proj1 (postAnalyzeImage_invalid_upload Node.runtime refusing (js "k1") []
                      (mkUpload (bufferFrom "abc") (js "text/plain")) initialState))
      by (vm_compute; reflexivity).
    reflexivity.
  - rewrite (proj2 (postAnalyzeImage_invalid_upload Node.runtime refusing (js "k1") []
                      (mkUpload [] (js "image/png")) initialState))
      by (vm_compute; reflexivity).
    reflexivity.
Defined.

(** A caption as [validateCaptions] of [server.js] lets it through. *)
Definition validCaption (c : JsVal) : Prop :=
  hasField c (js "chinese") /\ hasField c (js "pinyin")
  /\ hasField c (js "english") /\ notLow c.

Lemma server_validateCaptions_valid (rt : Runtime) (captions : JsVal)
    (r : list JsVal) :
  Server.validateCaptions rt captions = Ok r ->
  (length r <= 3)%nat /\ Forall validCaption r.
Proof.
  unfold Server.validateCaptions.
  destruct (iterate captions) as [items|]; [|done].
  destruct (Server.validateLoop rt items) as [validated|e] eqn:E; cbn [exc_bind]; [|done].
  intros [= <-]. split; [rewrite length_take; lia|].
  apply Forall_take.
  destruct (server_validateLoop_spec rt items validated E) as [_ Hk].
  eapply Forall_impl; [exact Hk|]. intros c Hc. by apply keepCaption_true in Hc.
Qed.

Section ServerRoute.
Context (rt : Runtime) (env : Env).
Context (firstKey : jsstring) (moreKeys : list jsstring).

Lemma analyzeImage_fetches_mono (imageBuffer : list byte) (mimeType : jsstring)
    (st : State) :
  (fetches st
   <= fetches (snd (Server.analyzeImage rt env firstKey moreKeys imageBuffer
                      mimeType st)))%nat.
Proof.
  assert (forall h s,
            (fetches s
             <= fetches (snd (Server.analyzeFresh rt env firstKey moreKeys imageBuffer
                                mimeType h s)))%nat) as Hfresh.
  { intros h s. rewrite (analyzeFresh_fetches rt env firstKey moreKeys).
    pose proof (makeApiRequestWithFallback_sends rt env firstKey moreKeys
                  (AnalysisRequest mimeType imageBuffer) s). lia. }
  unfold Server.analyzeImage, catch.
  destruct (getCachedResult (Server.generateImageHash imageBuffer) st)
    as [cached|] eqn:Ec.
  - unfold bind at 1. cbn [dateNow].
    destruct (clock env (clockReads st) - timestamp cached <? Server.dayMillis).
    + unfold bind at 1, updateCacheAccess. unfold getCachedResult in *.
      cbn [usageStats]. rewrite Ec. run_m. done.
    + match goal with
      | |- context [Server.analyzeFresh rt env firstKey moreKeys ?b ?m ?h ?s] =>
        pose proof (Hfresh h s) as Hm;
        destruct (Server.analyzeFresh rt env firstKey moreKeys b m h s) as [[a|e] st']
      end; cbn [snd fetches throw] in *; lia.
  - pose proof (Hfresh (Server.generateImageHash imageBuffer) st) as Hm.
    destruct (Server.analyzeFresh rt env firstKey moreKeys imageBuffer mimeType
                (Server.generateImageHash imageBuffer) st) as [[a|e] st'];
      cbn [snd fetches throw] in *; lia.
Qed.

(** The captions [generateChineseDescriptions] returns have passed
    [validateCaptions], and a request has been sent for them. *)
Lemma generateChineseDescriptions_returns (analysis : JsVal) (st st' : State)
    (captions : list JsVal) :
  Server.generateChineseDescriptions rt env firstKey moreKeys analysis st
  = (Ok captions, st') ->
  (fetches st < fetches st')%nat
  /\ (length captions <= 3)%nat /\ Forall validCaption captions.
Proof.
  unfold Server.generateChineseDescriptions. unfold bind at 1, lift at 1.
  destruct (Server.buildCaptionRequest rt analysis) as [requestBody|e]; [|done].
  unfold bind at 1.
  pose proof (makeApiRequestWithFallback_sends rt env firstKey moreKeys requestBody st)
    as Hs.
  destruct (Server.makeApiRequestWithFallback rt env firstKey moreKeys requestBody
              None st) as [[data|e] st1]; [|done].
  unfold bind at 1, lift at 1.
  destruct (messageContent rt data) as [responseText|e]; [|done].
  unfold catch, lift.
  destruct (Server.parseCaptions rt responseText) as [r|e] eqn:Ep; [|done].
  intros [= <- <-]. split; [exact Hs|].
  revert Ep. unfold Server.parseCaptions.
  destruct responseText as [| |b|nz lx|text|items props|props]; cbn [exc_bind]; try done.
  destruct (Server.cleanResponseText text) as [t|]; cbn [exc_bind]; [|done].
  destruct (JSON_parse rt t) as [parsed|e]; cbn [exc_bind]; [|done].
  destruct (Server.prop rt parsed (js "captions")) as [listed|e]; cbn [exc_bind]; [|done].
  destruct (lengthIsZero (orElse listed (VArr [] []))); [done|].
  apply server_validateCaptions_valid.
Qed.

End ServerRoute.

(** The image route of [server.js] answers an upload with status 200 or
    500.  A 200 reply carries [success: true], the analysis, at most three
    captions that have all passed [validateCaptions], and [cached: false];
    at least one request has been sent upstream for it, also when the
    analysis came from the cache, since the captions are asked for anew. *)
Theorem postAnalyzeImage_reply_shape (rt : Runtime) (env : Env)
    (firstKey : jsstring) (moreKeys : list jsstring) (f : Upload) (st : State) :
  let '(reply, st') :=
    Server.postAnalyzeImage rt env firstKey moreKeys (Some f) st in
  (code reply = 200 \/ code reply = 500)
  /\ (code reply = 200 ->
      exists analysis captions,
        body reply = VObj [(js "success", VBool true);
                           (js "analysis", analysis);
                           (js "captions", VArr captions []);
                           (js "cached", VBool false)]
        /\ (length captions <= 3)%nat
        /\ Forall validCaption captions
        /\ (fetches st < fetches st')%nat).
Proof.
  unfold Server.postAnalyzeImage.
  assert (forall e, code (Server.errorReply e) = 200 -> False) as Herr
    by (intros e; rewrite (proj1 (errorReply_shape e)); done).
  assert (forall e, code (Server.errorReply e) = 200 \/ code (Server.errorReply e) = 500)
    as Herr' by (intros e; right; apply errorReply_shape).
  destruct (negb (startsWith (js "image/") (mimetype f))).
  { cbn [throw]. split; [apply Herr'|]. intros H. by destruct (Herr _ H). }
  destruct (size f =? 0).
  { cbn [throw]. split; [apply Herr'|]. intros H. by destruct (Herr _ H). }
  unfold bind at 1.
  pose proof (analyzeImage_fetches_mono rt env firstKey moreKeys (buffer f) (mimetype f)
                st) as Hmono.
  destruct (Server.analyzeImage rt env firstKey moreKeys (buffer f) (mimetype f) st)
    as [[analysis|e] st1].
  2:{ split; [apply Herr'|]. intros H. by destruct (Herr _ H). }
  unfold bind at 1.
  destruct (Server.generateChineseDescriptions rt env firstKey moreKeys analysis st1)
    as [[captions|e] st2] eqn:Eg.
  2:{ split; [apply Herr'|]. intros H. by destruct (Herr _ H). }
  destruct (generateChineseDescriptions_returns rt env firstKey moreKeys analysis st1 st2
              captions Eg) as (Hs & Hl & Hv).
  cbn [ret code body snd] in *. split; [by left|]. intros _.
  exists analysis, captions. repeat split; try done. lia.
Qed.

Definition captionsJson : jsstring :=
  js "{" ++ [34%N] ++ js "captions" ++ [34%N] ++ js ":[{"
  ++ jsonMember (js "chinese") (js "橘猫在沙发上睡觉。") ++ js ","
  ++ jsonMember (js "pinyin") (js "jú māo zài shā fā shàng shuì jiào") ++ js ","
  ++ jsonMember (js "english") (js "The orange cat sleeps on the sofa.") ++ js ","
  ++ jsonMember (js "relevance") (js "high") ++ js "}]}".

Definition captionsResponse : Response :=
  mkResponse 200 (js "OK")
    (Ok (VObj [(js "choices",
                VArr [VObj [(js "message",
                             VObj [(js "content", VStr captionsJson)])]] [])]))
    (Ok captionsJson).

(** An upstream that answers a caption request with [captionsJson] and
    any other request with [analysisJson]. *)
Definition captioning : Env :=
  mkEnv (fun _ _ requestBody =>
           match requestBody with
           | CaptionRequest _ => Responded captionsResponse
           | _ => Responded analysisResponse
           end)
        (fun _ => 1000) (fun _ => true).

Lemma postAnalyzeImage_reply_shape_witness :
  exists analysis captions,
    body (fst (Server.postAnalyzeImage Node.runtime captioning (js "k1") []
                 (Some pngUpload) initialState))
    = VObj [(js "success", VBool true);
            (js "analysis", analysis);
            (js "captions", VArr captions []);
            (js "cached", VBool false)]
    /\ (length captions <= 3)%nat
    /\ Forall validCaption captions.
Proof.
  pose proof (postAnalyzeImage_reply_shape Node.runtime captioning (js "k1") []
                pngUpload initialState) as H.
  destruct (Server.postAnalyzeImage Node.runtime captioning (js "k1") []
              (Some pngUpload) initialState) as [reply st'] eqn:E.
  destruct H as [_ H].
  assert (reply = fst (Server.postAnalyzeImage Node.runtime captioning (js "k1") []
                         (Some pngUpload) initialState)) as Hr by (by rewrite E).
  destruct H as (analysis & captions & Hb & Hl & Hv & _).
  { rewrite Hr. vm_compute. reflexivity. }
  exists analysis, captions. by repeat split.
Defined.

(** ** The connectivity test of [server.js] *)

(** [GET /api/test] sends exactly one request, with the current key, and
    never switches the key or touches the cache, however many keys are
    configured.  It answers 200 or 500; when the request gets no ok
    response the answer is 500 and the usage statistics are as before. *)
Theorem getApiTest_one_request (rt : Runtime) (env : Env) (firstKey : jsstring)
    (moreKeys : list jsstring) (st : State) :
  let '(reply, st') := Server.getApiTest rt env firstKey moreKeys st in
  fetches st' = S (fetches st)
  /\ currentApiKeyIndex st' = currentApiKeyIndex st
  /\ imageHashes (usageStats st') = imageHashes (usageStats st)
  /\ (code reply = 200 \/ code reply = 500)
  /\ (refused (fetch env (fetches st) (Server.getCurrentApiKey firstKey moreKeys st)
                     TestRequest) ->
      code reply = 500 /\ usageStats st' = usageStats st
      /\ usageFile st' = usageFile st).
Proof.
  unfold Server.getApiTest, Server.makeApiRequestWithFallback.
  cbn [default from_option id]. unfold bind at 1.
  rewrite (attemptLoop_unfold rt env firstKey moreKeys).
  pose proof (tryAttempt_spec rt env firstKey moreKeys TestRequest st) as Hstep.
  pose proof (tryAttempt_frame rt env firstKey moreKeys TestRequest st) as Hframe.
  cbv zeta in Hstep, Hframe.
  destruct (Server.tryAttempt rt env firstKey moreKeys TestRequest st) as [res1 st1].
  destruct Hstep as (Hf & Hi & _). destruct Hframe as [Hc Href].
  assert (Server.switchUnlessLast firstKey moreKeys 0 1 = ret tt) as Hlast
    by reflexivity.
  destruct res1 as [[data|e]|e].
  - unfold bind, lift. destruct (messageContent rt data) as [content|e]; cbn [ret code].
    + split; [done|]. split; [done|]. split; [done|]. split; [by left|].
      intros Hr. destruct (Href Hr) as [_ Hn]. by destruct (Hn data).
    + split; [done|]. split; [done|]. split; [done|]. split; [by right|].
      intros Hr. destruct (Href Hr) as [_ Hn]. by destruct (Hn data).
  - unfold bind at 1. rewrite Hlast. cbn [ret Server.attemptLoop throw code].
    split; [done|]. split; [done|]. split; [done|]. split; [by right|].
    intros Hr. destruct (Href Hr) as [-> _]. done.
  - unfold bind at 1. rewrite Hlast. cbn [ret Server.attemptLoop throw code].
    split; [done|]. split; [done|]. split; [done|]. split; [by right|].
    intros Hr. destruct (Href Hr) as [-> _]. done.
Qed.

Lemma getApiTest_one_request_witness :
  let '(reply, st') :=
    Server.getApiTest Node.runtime unauthorizedThenOk (js "k1") [js "k2"]
      initialState in
  code reply = 500 /\ fetches st' = 1%nat /\ usageStats st' = usageStats initialState.
Proof.
  pose proof (getApiTest_one_request Node.runtime unauthorizedThenOk (js "k1") [js "k2"]
                initialState) as H.
  destruct (Server.getApiTest Node.runtime unauthorizedThenOk (js "k1") [js "k2"]
              initialState) as [reply st'].
  destruct H as (Hf & _ & _ & _ & Hr).
  destruct Hr as (Hc & Hu & _); [vm_compute; reflexivity|].
  by rewrite Hf.
Defined.

(** ** What the client is told when the upstream fails *)

Lemma includes_intro (sep a b : jsstring) : includes sep (a ++ sep ++ b) = true.
Proof.
  unfold includes. induction a as [|c a IH].
  - cbn [app]. rewrite breakOn_head by (apply startsWith_spec; eauto). done.
  - change ((c :: a) ++ sep ++ b) with (c :: (a ++ sep ++ b)).
    destruct (startsWith sep (c :: (a ++ sep ++ b))) eqn:E.
    + by rewrite breakOn_head.
    + rewrite breakOn_step by done.
      by destruct (breakOn sep (a ++ sep ++ b)) as [[x y]|].
Qed.

Lemma refused_recorded (rt : Runtime) (requestBody : Request) (o : FetchOutcome) :
  refused o -> recorded rt requestBody o <> None.
Proof.
  destruct o as [e|r]; cbn [refused recorded]; [done|].
  intros ->. by destruct (World.text r).
Qed.

(** The prefix [analyzeImage] puts before the message of what it caught. *)
Definition analysisFailed : jsstring :=
  js "AI analysis failed - unable to generate personalized captions: ".

Section UpstreamFailure.
Context (rt : Runtime) (env : Env).
Context (firstKey : jsstring) (moreKeys : list jsstring).

Lemma all_refused_throws (requestBody : Request) (st : State) :
  (forall i, (i < S (length moreKeys))%nat ->
     refused (attemptOutcome env firstKey moreKeys st requestBody i)) ->
  exists e,
    recorded rt requestBody
      (attemptOutcome env firstKey moreKeys st requestBody (length moreKeys)) = Some e
    /\ fst (Server.makeApiRequestWithFallback rt env firstKey moreKeys requestBody
              None st) = Throw e.
Proof.
  intros Href.
  pose proof (makeApiRequestWithFallback_scan rt env firstKey moreKeys requestBody
                None st) as Hscan.
  cbv zeta in Hscan. cbn [default from_option id Server.OPENROUTER_API_KEYS length]
    in Hscan.
  destruct (Server.makeApiRequestWithFallback rt env firstKey moreKeys requestBody
              None st) as [res st'].
  rewrite scanAttempts_all_fail in Hscan
    by (intros i Hi; apply refused_recorded, Href; cbn; lia).
  destruct Hscan as [-> _]. cbn [Nat.add fst].
  destruct (recorded rt requestBody
              (attemptOutcome env firstKey moreKeys st requestBody (length moreKeys)))
    as [e|] eqn:E.
  - exists e. by split.
  - exfalso. revert E. apply refused_recorded, Href. lia.
Qed.

Lemma server_upstream_failure (f : Upload) (st : State) (e : JsError) :
  startsWith (js "image/") (mimetype f) = true ->
  size f <> 0 ->
  getCachedResult (Server.generateImageHash (buffer f)) st = None ->
  fst (Server.makeApiRequestWithFallback rt env firstKey moreKeys
         (AnalysisRequest (mimetype f) (buffer f)) None st) = Throw e ->
  fst (Server.postAnalyzeImage rt env firstKey moreKeys (Some f) st)
  = Server.errorReply (newError (analysisFailed ++ err_message e)).
Proof.
  intros Hs Hz Hc Hreq.
  unfold Server.postAnalyzeImage. rewrite Hs. cbn [negb].
  destruct (Z.eqb_spec (size f) 0) as [|_]; [done|].
  unfold bind at 1. unfold Server.analyzeImage, catch. rewrite Hc.
  unfold Server.analyzeFresh. unfold bind at 1.
  destruct (Server.makeApiRequestWithFallback rt env firstKey moreKeys
              (AnalysisRequest (mimetype f) (buffer f)) None st) as [res st1].
  cbn [fst] in Hreq. subst res. unfold analysisFailed. reflexivity.
Qed.

End UpstreamFailure.

(** The [error] and [message] fields of a reply. *)
Definition shown (reply : Reply) : option JsVal * option JsVal :=
  (getProp (body reply) (js "error"), getProp (body reply) (js "message")).


(** The only key is answered with 429. *)
Definition rateLimited : Env :=
  mkEnv (fun _ _ _ =>
           Responded (mkResponse 429 (js "Too Many Requests") (Ok (VObj []))
                        (Ok (js "slow down"))))
        (fun _ => 1000) (fun _ => true).


(** ** Cleanup of a fenced JSON object *)

Lemma trimStart_blank (w s : jsstring) :
  Forall (fun c => isWhiteSpace c = true) w -> trimStart (w ++ s) = trimStart s.
Proof. induction 1 as [|c w Hc _ IH]; [done|]. cbn [app trimStart]. by rewrite Hc. Qed.

Lemma trimStart_head (c : N) (s : jsstring) :
  isWhiteSpace c = false -> trimStart (c :: s) = c :: s.
Proof. intros Hc. cbn [trimStart]. by rewrite Hc. Qed.

Lemma trimEnd_blank (s w : jsstring) :
  Forall (fun c => isWhiteSpace c = true) w -> trimEnd (s ++ w) = trimEnd s.
Proof.
  intros Hw. unfold trimEnd. rewrite rev_app_distr.
  rewrite trimStart_blank; [done|]. by apply Forall_rev.
Qed.

Lemma trimEnd_last (s : jsstring) (c : N) :
  isWhiteSpace c = false -> trimEnd (s ++ [c]) = s ++ [c].
Proof.
  intros Hc. unfold trimEnd. rewrite rev_app_distr. cbn [rev app].
  rewrite trimStart_head by done. cbn [rev]. by rewrite rev_involutive.
Qed.

(** A text that starts and ends with something other than white space is
    left alone by [trim]. *)
Lemma trim_tight (c d : N) (s : jsstring) :
  isWhiteSpace c = false -> isWhiteSpace d = false ->
  trim (c :: s ++ [d]) = c :: s ++ [d].
Proof.
  intros Hc Hd. unfold trim. rewrite trimStart_head by done.
  change (c :: s ++ [d]) with ((c :: s) ++ [d]). by apply trimEnd_last.
Qed.

Lemma trim_padded (w1 w2 : jsstring) (c d : N) (s : jsstring) :
  Forall (fun x => isWhiteSpace x = true) w1 ->
  Forall (fun x => isWhiteSpace x = true) w2 ->
  isWhiteSpace c = false -> isWhiteSpace d = false ->
  trim (w1 ++ (c :: s ++ [d]) ++ w2) = c :: s ++ [d].
Proof.
  intros H1 H2 Hc Hd. unfold trim. rewrite trimStart_blank by done.
  cbn [app]. rewrite trimStart_head by done.
  change (c :: (s ++ [d]) ++ w2) with ((c :: s ++ [d]) ++ w2).
  rewrite trimEnd_blank by done.
  change (c :: s ++ [d]) with ((c :: s) ++ [d]). by apply trimEnd_last.
Qed.

(** A text between braces is what [extractJson] keeps of itself. *)
Lemma extractJson_object (body : jsstring) :
  Server.extractJson (123%N :: body ++ [125%N]) = 123%N :: body ++ [125%N].
Proof.
  set (t := 123%N :: body ++ [125%N]).
  assert (indexOf Server.openBrace t = 0) as Hi.
  { unfold indexOf. by rewrite breakOn_head. }
  assert (0 < lastIndexOf Server.closeBrace t) as Hl.
  { unfold lastIndexOf, Server.closeBrace.
    destruct (lastIndexOf_from_unit 125%N t 0 (-1))
      as [[Hno _]|(a & b & Ht & Hb & ->)].
    - exfalso. apply Hno. unfold t. set_solver.
    - destruct a as [|x a]; [|cbn [length]; lia].
      unfold t in Ht. discriminate Ht. }
  destruct (extractJson_braces t) as (a & body' & b & Ht & Ha & Hb & _ & _ & ->).
  { rewrite Hi. done. }
  { rewrite Hi. done. }
  destruct a as [|x a].
  2:{ exfalso. unfold t in Ht. injection Ht as <- _. apply Ha. set_solver. }
  destruct b as [|y b _] using rev_ind.
  - exact (eq_sym Ht).
  - exfalso. unfold t in Ht.
    change ([] ++ 123%N :: body' ++ 125%N :: b ++ [y])
      with (123%N :: body' ++ 125%N :: b ++ [y]) in Ht.
    injection Ht as Ht.
    change (body' ++ 125%N :: b ++ [y]) with (body' ++ (125%N :: b) ++ [y]) in Ht.
    rewrite app_assoc in Ht. apply app_inj_tail in Ht as [_ <-].
    apply Hb. set_solver.
Qed.

Section Fenced.
Variables (w1 w2 body : jsstring).
Hypothesis Hw1 : Forall (fun c => isWhiteSpace c = true) w1.
Hypothesis Hw2 : Forall (fun c => isWhiteSpace c = true) w2.
Hypothesis Hbody : 96%N ∉ body.

Local Abbreviation object := (123%N :: body ++ [125%N]).
Local Abbreviation inner := (w1 ++ object ++ w2).

Lemma inner_no_backtick : 96%N ∉ inner.
Proof using Hw1 Hw2 Hbody.
  assert (forall w, Forall (fun c => isWhiteSpace c = true) w -> 96%N ∉ w) as Hw.
  { intros w H Hin. rewrite Forall_forall in H. by specialize (H _ Hin). }
  rewrite !elem_of_app, elem_of_cons, elem_of_app, elem_of_cons.
  intros [H|[[H|[H|[H|H]]]|H]]; try done.
  - by apply (Hw w1).
  - by apply elem_of_nil in H.
  - by apply (Hw w2).
Qed.

Lemma drop_inner_head (i : nat) (tail : jsstring) :
  (i < length inner)%nat ->
  exists c r, drop i (inner ++ tail) = c :: r /\ c <> 96%N.
Proof using Hw1 Hw2 Hbody.
  intros Hi. destruct (lookup_lt_is_Some_2 inner i Hi) as [c Hc].
  exists c, (drop (S i) (inner ++ tail)). split.
  - apply drop_S. by apply lookup_app_l_Some.
  - intros ->. apply inner_no_backtick. by eapply list_elem_of_lookup_2.
Qed.

Lemma inner_head (tail : jsstring) :
  exists c r, inner ++ tail = c :: r /\ c <> 96%N /\ c <> 106%N.
Proof using Hw1 Hw2 Hbody.
  destruct w1 as [|c w].
  - eexists _, _. split; [reflexivity|]. done.
  - rewrite Forall_cons in Hw1. destruct Hw1 as [Hc _].
    eexists _, _. split; [reflexivity|]. split; intros ->; discriminate Hc.
Qed.

Lemma inner_breakOn_fence : breakOn Server.fence (inner ++ Server.fence) = Some (inner, []).
Proof using Hw1 Hw2 Hbody.
  rewrite <- (app_nil_r Server.fence) at 2.
  apply breakOn_intro. intros i Hi.
  destruct (drop_inner_head i (Server.fence ++ []) Hi) as (c & r & -> & Hc).
  unfold Server.fence. cbn [startsWith].
  destruct (N.eqb_spec 96 c) as [<-|_]; done.
Qed.

Lemma inner_breakOn_fenceJson : breakOn Server.fenceJson (inner ++ Server.fence) = None.
Proof using Hw1 Hw2 Hbody.
  apply breakOn_none_intro. intros i.
  destruct (decide (i < length inner)%nat) as [Hi|Hi].
  - destruct (drop_inner_head i Server.fence Hi) as (c & r & -> & Hc).
    unfold Server.fenceJson. cbn [startsWith].
    destruct (N.eqb_spec 96 c) as [<-|_]; done.
  - rewrite drop_app_ge by lia.
    generalize (i - length inner)%nat. intros [|[|[|[|k]]]]; reflexivity.
Qed.

Lemma inner_no_fence : breakOn Server.fence inner = None.
Proof using Hw1 Hw2 Hbody.
  apply breakOn_none_intro. intros i.
  destruct (decide (i < length inner)%nat) as [Hi|Hi].
  - destruct (drop_inner_head i [] Hi) as (c & r & Hd & Hc).
    rewrite app_nil_r in Hd. rewrite Hd.
    unfold Server.fence. cbn [startsWith].
    destruct (N.eqb_spec 96 c) as [<-|_]; done.
  - by rewrite drop_ge by lia.
Qed.

(** The fence step on the object wrapped in a fence, tagged or not. *)
Lemma stripFence_fenced (tagged : bool) :
  Server.stripFence
    ((if tagged then Server.fenceJson else Server.fence) ++ inner ++ Server.fence)
  = Some object.
Proof using Hw1 Hw2 Hbody.
  assert (trim inner = object) as Htrim by (by apply trim_padded).
  unfold Server.stripFence. destruct tagged.
  - rewrite (includes_intro Server.fenceJson [] (inner ++ Server.fence)
             : includes Server.fenceJson (Server.fenceJson ++ inner ++ Server.fence)
               = true).
    rewrite split_lookup_1 by done.
    rewrite breakOn_head by (apply startsWith_spec; eauto).
    rewrite drop_app_length. rewrite inner_breakOn_fenceJson.
    rewrite split_lookup_0 by done. rewrite inner_breakOn_fence. by rewrite Htrim.
  - assert (includes Server.fenceJson (Server.fence ++ inner ++ Server.fence) = false)
      as ->.
    { unfold includes. rewrite breakOn_none_intro; [done|]. intros i.
      destruct (inner_head Server.fence) as (c & r & Hd & Hc & Hj).
      destruct i as [|[|[|i]]].
      - rewrite Hd. unfold Server.fence, Server.fenceJson. cbn [app drop startsWith].
        destruct (N.eqb_spec 106 c) as [<-|_]; [done|].
        by rewrite !N.eqb_refl.
      - rewrite Hd. unfold Server.fence, Server.fenceJson. cbn [app drop startsWith].
        destruct (N.eqb_spec 96 c) as [<-|_]; [done|].
        by rewrite !N.eqb_refl.
      - rewrite Hd. unfold Server.fence, Server.fenceJson. cbn [app drop startsWith].
        destruct (N.eqb_spec 96 c) as [<-|_]; [done|].
        by rewrite !N.eqb_refl.
      - change (drop (S (S (S i))) (Server.fence ++ inner ++ Server.fence))
          with (drop i (inner ++ Server.fence)).
        apply (breakOn_None _ _ inner_breakOn_fenceJson). }
    rewrite (includes_intro Server.fence [] (inner ++ Server.fence)
             : includes Server.fence (Server.fence ++ inner ++ Server.fence) = true).
    rewrite split_lookup_1 by done.
    rewrite breakOn_head by (apply startsWith_spec; eauto).
    rewrite drop_app_length. rewrite inner_breakOn_fence.
    rewrite split_lookup_0 by done. rewrite inner_no_fence. by rewrite Htrim.
Qed.

End Fenced.

Lemma no_fence_no_fenceJson (s : jsstring) :
  breakOn Server.fence s = None -> breakOn Server.fenceJson s = None.
Proof.
  intros Hn. apply breakOn_none_intro. intros i.
  destruct (startsWith Server.fenceJson (drop i s)) eqn:E; [|done].
  rewrite fenceJson_fence in E. apply startsWith_app_l in E.
  by rewrite (breakOn_None _ _ Hn i) in E.
Qed.

(** Wrapping a JSON object in a markdown fence does not change what is
    handed to [JSON.parse]: for a text between braces that holds no
    backtick, the cleanup returns the text itself, and it returns the same
    when the text is put in a fence, with or without the [json] tag and
    with any white space around it inside the fence. *)
Theorem cleanResponseText_fenced_object (w1 w2 body : jsstring) (tagged : bool) :
  Forall (fun c => isWhiteSpace c = true) w1 ->
  Forall (fun c => isWhiteSpace c = true) w2 ->
  96%N ∉ body ->
  let object := 123%N :: body ++ [125%N] in
  Server.cleanResponseText object = Some object
  /\ Server.cleanResponseText
       ((if tagged then Server.fenceJson else Server.fence)
        ++ (w1 ++ object ++ w2) ++ Server.fence)
     = Some object.
Proof.
  intros Hw1 Hw2 Hbody. cbv zeta. split.
  - unfold Server.cleanResponseText.
    rewrite trim_tight by done.
    pose proof (inner_no_fence [] [] body (Forall_nil_2 _) (Forall_nil_2 _) Hbody) as Hn.
    cbn [app] in Hn. rewrite app_nil_r in Hn.
    unfold Server.stripFence, includes.
    rewrite (no_fence_no_fenceJson _ Hn), Hn.
    by rewrite extractJson_object.
  - unfold Server.cleanResponseText.
    assert (trim ((if tagged then Server.fenceJson else Server.fence)
                  ++ (w1 ++ (123%N :: body ++ [125%N]) ++ w2) ++ Server.fence)
            = (if tagged then Server.fenceJson else Server.fence)
              ++ (w1 ++ (123%N :: body ++ [125%N]) ++ w2) ++ Server.fence) as ->.
    { assert (exists s, (if tagged then Server.fenceJson else Server.fence)
                        ++ (w1 ++ (123%N :: body ++ [125%N]) ++ w2) ++ Server.fence
                        = 96%N :: s ++ [96%N]) as [s ->].
      { destruct tagged.
        - exists ([96; 96; 106; 115; 111; 110]%N
                  ++ (w1 ++ (123%N :: body ++ [125%N]) ++ w2) ++ [96; 96]%N).
          unfold Server.fenceJson, Server.fence. cbn [app].
          rewrite <- !app_assoc. reflexivity.
        - exists ([96; 96]%N ++ (w1 ++ (123%N :: body ++ [125%N]) ++ w2) ++ [96; 96]%N).
          unfold Server.fence. cbn [app]. rewrite <- !app_assoc. reflexivity. }
      by apply trim_tight. }
    rewrite (stripFence_fenced w1 w2 body Hw1 Hw2 Hbody tagged).
    by rewrite extractJson_object.
Qed.

Lemma cleanResponseText_fenced_object_witness :
  Server.cleanResponseText
    (Server.fenceJson ++ ([10%N] ++ analysisJson ++ [10%N]) ++ Server.fence)
  = Some analysisJson.
Proof.
  assert (exists body, analysisJson = 123%N :: body ++ [125%N] /\ 96%N ∉ body)
    as (body & Hb & Hn).
  { exists (removelast (tl analysisJson)). split; [vm_compute; reflexivity|].
    apply (bool_decide_unpack _). vm_compute. exact I. }
  rewrite Hb.
  apply (proj2 (cleanResponseText_fenced_object [10%N] [10%N] body true
                  ltac:(by repeat constructor) ltac:(by repeat constructor) Hn)).
Defined.

(** ** The captions parsed from the reply in the OpenAI revision *)

(** A text without a line break. *)
Definition oneLine (s : jsstring) : Prop :=
  Forall (fun c => isLineTerminator c = false) s.

Lemma trimStart_suffix (s : jsstring) : trimStart s `suffix_of` s.
Proof.
  induction s as [|c s IH]; cbn [trimStart]; [done|].
  destruct (isWhiteSpace c); [by apply suffix_cons_r | done].
Qed.

Lemma trim_Forall (P : N -> Prop) (s : jsstring) : Forall P s -> Forall P (trim s).
Proof.
  intros H. unfold trim, trimEnd. apply Forall_rev.
  assert (forall t, Forall P t -> Forall P (trimStart t)) as Hs.
  { intros t Ht. destruct (trimStart_suffix t) as [k Hk].
    rewrite Hk in Ht. by apply Forall_app in Ht as [_ ?]. }
  apply Hs, Forall_rev, Hs, H.
Qed.

Lemma spanWhile_fst (p : N -> bool) (s : jsstring) :
  Forall (fun c => p c = true) (fst (OpenAI.spanWhile p s)).
Proof.
  induction s as [|c s IH]; cbn [OpenAI.spanWhile]; [constructor|].
  destruct (p c) eqn:E; [|constructor].
  destruct (OpenAI.spanWhile p s) as [a b]. cbn [fst] in *. by constructor.
Qed.

Lemma fieldGroup_oneLine (rest g : jsstring) :
  OpenAI.fieldGroup rest = Some g -> oneLine g.
Proof.
  unfold OpenAI.fieldGroup, oneLine.
  destruct (OpenAI.spanWhile isWhiteSpace rest) as [blank r].
  destruct r as [|c r].
  - destruct (last (List.filter (fun c => negb (isLineTerminator c)) blank))
      as [c|] eqn:E; [|done].
    intros [= <-]. constructor; [|constructor].
    apply last_Some in E as [l' E].
    assert (c ∈ List.filter (fun c => negb (isLineTerminator c)) blank) as Hin
      by (rewrite E; set_solver).
    apply list_elem_of_In, filter_In in Hin as [_ Hc].
    by apply negb_true_iff in Hc.
  - pose proof (spanWhile_fst (fun c => negb (isLineTerminator c)) (c :: r)) as Hs.
    intros [= <-].
    eapply Forall_impl; [exact Hs|].
    intros x Hx. by apply negb_true_iff in Hx.
Qed.

Lemma matchField_oneLine (label s g : jsstring) :
  OpenAI.matchField label s = Some g -> oneLine g.
Proof.
  induction s as [|c s IH]; cbn [OpenAI.matchField].
  - destruct (OpenAI.startsWithCI label []); [|done].
    destruct (OpenAI.fieldGroup (drop (length label) [])) as [g'|] eqn:E; [|done].
    intros [= <-]. by eapply fieldGroup_oneLine.
  - destruct (if OpenAI.startsWithCI label (c :: s)
              then OpenAI.fieldGroup (drop (length label) (c :: s))
              else None) as [g'|] eqn:E.
    + intros [= <-]. destruct (OpenAI.startsWithCI label (c :: s)); [|done].
      by eapply fieldGroup_oneLine.
    + exact IH.
Qed.

(** A caption as the route parses it out of the reply text. *)
Definition parsedCaption (c : JsVal) : Prop :=
  exists chinese pinyin english,
    c = OpenAI.caption chinese pinyin english (js "high")
    /\ nonEmpty chinese = true
    /\ oneLine chinese /\ oneLine pinyin /\ oneLine english.

Lemma extractCaption_parsed (label next responseText : jsstring) (c : JsVal) :
  OpenAI.extractCaption label next responseText = Some c -> parsedCaption c.
Proof.
  unfold OpenAI.extractCaption.
  destruct (OpenAI.sectionAfter OpenAI.startsWithCI label next responseText)
    as [captionText|]; [|done].
  destruct (OpenAI.matchField (js "Chinese:") captionText) as [chinese|] eqn:Ec; [|done].
  destruct (nonEmpty (trim chinese)) eqn:En; [|done].
  intros [= <-]. eexists _, _, _. split; [reflexivity|]. split; [exact En|].
  split; [apply trim_Forall; by eapply matchField_oneLine|].
  split.
  - destruct (OpenAI.matchField (js "Pinyin:") captionText) as [g|] eqn:Ep.
    + apply trim_Forall. by eapply matchField_oneLine.
    + unfold oneLine. apply (bool_decide_unpack _). vm_compute. exact I.
  - destruct (OpenAI.matchField (js "English:") captionText) as [g|] eqn:Ee.
    + apply trim_Forall. by eapply matchField_oneLine.
    + unfold oneLine. apply (bool_decide_unpack _). vm_compute. exact I.
Qed.

(** Whatever the reply text, the route parses at most three captions out
    of it, each with a non-empty Chinese text and relevance ['high'], and
    with Chinese, pinyin and English texts that hold no line break. *)
Theorem extractCaptions_shape (responseText : jsstring) :
  (length (OpenAI.extractCaptions responseText) <= 3)%nat
  /\ Forall parsedCaption (OpenAI.extractCaptions responseText).
Proof.
  unfold OpenAI.extractCaptions. cbn [omap list_omap].
  pose proof (extractCaption_parsed (js "CAPTION1:") (js "CAPTION2:") responseText) as H1.
  pose proof (extractCaption_parsed (js "CAPTION2:") (js "CAPTION3:") responseText) as H2.
  pose proof (extractCaption_parsed (js "CAPTION3:") (js "CAPTION4:") responseText) as H3.
  destruct (OpenAI.extractCaption (js "CAPTION1:") (js "CAPTION2:") responseText);
    destruct (OpenAI.extractCaption (js "CAPTION2:") (js "CAPTION3:") responseText);
    destruct (OpenAI.extractCaption (js "CAPTION3:") (js "CAPTION4:") responseText);
    cbn [length]; (split; [lia|]); repeat constructor; eauto.
Qed.

(** ** Requests and caching of the image route in the OpenAI revision *)

Section OpenAIRoute.
Context (rt : Runtime) (env : Env) (key : option jsstring).

(** What the [try] block leaves in the cache: the analysis and captions
    it replies with, or nothing when it throws. *)
Lemma analyzeUncached_cache (f : Upload) (imageHash : jsstring) (st : State) :
  getCachedResult imageHash st = None ->
  let '(res, st') := OpenAI.analyzeUncached rt env key f imageHash st in
  fetches st' = S (fetches st)
  /\ match res with
     | Ok reply =>
       exists analysis captions t,
         getProp (body reply) (js "analysis") = Some analysis
         /\ getProp (body reply) (js "captions") = Some captions
         /\ getProp (body reply) (js "fallbackUsed") = Some VUndefined
         /\ getCachedResult imageHash st'
            = Some (mkEntry (VObj [(js "analysis", analysis);
                                   (js "captions", captions)]) t 1 None)
     | Throw _ => getCachedResult imageHash st' = None
     end.
Proof.
  intros Hmiss. unfold OpenAI.analyzeUncached. unfold bind at 1, doFetch.
  destruct (fetch env (fetches st) key _) as [e|r]; [by split|].
  destruct (negb (ok r)).
  - unfold bind at 1, lift at 1. destruct (json r) as [errorData|e]; [|by split].
    unfold bind at 1, lift at 1.
    destruct (OpenAI.isQuotaError rt r errorData) as [[|]|e]; [| |by split].
    + unfold cacheResult, OpenAI.object. run_m. cbn [body]. split; [done|].
      eexists _, _, _. split; [rewrite !getProp_skip by key_ne; apply getProp_here|].
      split; [rewrite !getProp_skip by key_ne; apply getProp_here|].
      split; [rewrite !getProp_skip by key_ne; reflexivity|].
      unfold getCachedResult. cbn [usageStats imageHashes]. by rewrite lookup_insert_eq.
    + unfold bind at 1, lift at 1.
      by destruct (OpenAI.requestFailed rt errorData).
  - unfold bind at 1, lift at 1. destruct (json r) as [data|e]; [|by split].
    unfold bind at 1, lift at 1. destruct (messageContent rt data) as [content|e];
      [|by split].
    unfold bind at 1, lift at 1.
    destruct (OpenAI.matchable rt content) as [responseText|e]; [|by split].
    cbv zeta. unfold cacheResult, OpenAI.object. run_m. cbn [body]. split; [done|].
    eexists _, _, _. split; [rewrite !getProp_skip by key_ne; apply getProp_here|].
    split; [rewrite !getProp_skip by key_ne; apply getProp_here|].
    split; [rewrite !getProp_skip by key_ne; reflexivity|].
    unfold getCachedResult. cbn [usageStats imageHashes]. by rewrite lookup_insert_eq.
Qed.

End OpenAIRoute.

(** The image route of the OpenAI revision sends at most one request per
    upload, and when it sends none (no file, a type that is not allowed, or
    a cache hit) it leaves the state exactly as it was. *)
Theorem openai_route_one_request (rt : Runtime) (env : Env)
    (key : option jsstring) (file : option Upload) (st : State) :
  let '(reply, st') := OpenAI.postAnalyzeImage rt env key file st in
  (fetches st' = fetches st /\ st' = st) \/ fetches st' = S (fetches st).
Proof.
  unfold OpenAI.postAnalyzeImage. destruct file as [f|]; [|by left].
  destruct (negb (bool_decide (mimetype f ∈ OpenAI.allowedTypes))); [by left|].
  cbv zeta.
  destruct (getCachedResult (OpenAI.generateImageHash (buffer f)) st) as [cached|] eqn:Ec;
    [by left|].
  pose proof (analyzeUncached_cache rt env key f _ st Ec) as H.
  destruct (OpenAI.analyzeUncached rt env key f (OpenAI.generateImageHash (buffer f)) st)
    as [[reply|e] st'].
  - right. by destruct H.
  - right. by destruct H.
Qed.

(** A reply that came out of the [try] block of the route is cached, one
    from the [catch] block is not, and [fallbackUsed] tells them apart: it
    is [true] in the replies of the [catch] block and absent from all
    others.  So after a reply with [fallbackUsed] nothing is cached for
    the image and the next upload of it is sent upstream again; after a
    reply without it the image is cached and the next upload of it is
    answered from the cache with no request and no change of state.  What
    the cached answer gives as [captions] is then the cache entry, which
    holds the first reply's analysis and captions under [result], and its
    [analysis] is empty. *)
Theorem openai_route_repeat (rt : Runtime) (env : Env) (key : option jsstring)
    (f : Upload) (st : State) :
  mimetype f ∈ OpenAI.allowedTypes ->
  getCachedResult (OpenAI.generateImageHash (buffer f)) st = None ->
  let '(reply1, st1) := OpenAI.postAnalyzeImage rt env key (Some f) st in
  let '(reply2, st2) := OpenAI.postAnalyzeImage rt env key (Some f) st1 in
  (getProp (body reply1) (js "fallbackUsed") = Some (VBool true)
   /\ getCachedResult (OpenAI.generateImageHash (buffer f)) st1 = None
   /\ fetches st2 = S (fetches st1))
  \/ (getProp (body reply1) (js "fallbackUsed") = Some VUndefined
      /\ exists analysis captions entry,
           getProp (body reply1) (js "analysis") = Some analysis
           /\ getProp (body reply1) (js "captions") = Some captions
           /\ getCachedResult (OpenAI.generateImageHash (buffer f)) st1 = Some entry
           /\ result entry
              = VObj [(js "analysis", analysis); (js "captions", captions)]
           /\ reply2 = mkReply 200
                         (VObj [(js "success", VBool true);
                                (js "analysis", VObj []);
                                (js "captions", OpenAI.entryValue entry);
                                (js "cached", VBool true)])
           /\ st2 = st1).
Proof.
  intros Hm Hmiss.
  assert (forall s,
            getCachedResult (OpenAI.generateImageHash (buffer f)) s = None ->
            OpenAI.postAnalyzeImage rt env key (Some f) s
            = match OpenAI.analyzeUncached rt env key f
                      (OpenAI.generateImageHash (buffer f)) s with
              | (Ok reply, s') => (reply, s')
              | (Throw error, s') => (OpenAI.fallbackReply f error, s')
              end) as Hroute.
  { intros s Hs. unfold OpenAI.postAnalyzeImage.
    rewrite bool_decide_eq_true_2 by done. cbn [negb]. by rewrite Hs. }
  rewrite (Hroute st Hmiss).
  pose proof (analyzeUncached_cache rt env key f _ st Hmiss) as H.
  destruct (OpenAI.analyzeUncached rt env key f (OpenAI.generateImageHash (buffer f)) st)
    as [[reply|e] st1].
  - destruct H as (_ & analysis & captions & t & Ha & Hc & Hfb & Hentry).
    rewrite (openai_cache_hit rt env key f st1 _ Hm Hentry).
    right. split; [exact Hfb|].
    eexists analysis, captions, _. repeat split; done.
  - destruct H as [_ Hnone]. rewrite (Hroute st1 Hnone).
    pose proof (analyzeUncached_cache rt env key f _ st1 Hnone) as H2.
    destruct (OpenAI.analyzeUncached rt env key f (OpenAI.generateImageHash (buffer f))
                st1) as [[reply2|e2] st2]; destruct H2 as [Hf _].
    + left. split; [|by split].
      unfold OpenAI.fallbackReply, OpenAI.object. cbn [body].
      rewrite !getProp_skip by key_ne. apply getProp_here.
    + left. split; [|by split].
      unfold OpenAI.fallbackReply, OpenAI.object. cbn [body].
      rewrite !getProp_skip by key_ne. apply getProp_here.
Qed.

(** An upstream that cannot be reached: every request is rejected. *)
Definition unreachable : Env :=
  mkEnv (fun _ _ _ => Rejected (newError (js "fetch failed")))
        (fun _ => 1000) (fun _ => true).

Lemma openai_route_repeat_witness :
  (let '(reply1, st1) :=
     OpenAI.postAnalyzeImage Node.runtime rateLimited (Some (js "sk-test"))
       (Some pngUpload) initialState in
   let '(reply2, st2) :=
     OpenAI.postAnalyzeImage Node.runtime rateLimited (Some (js "sk-test"))
       (Some pngUpload) st1 in
   getProp (body reply1) (js "quotaExceeded") = Some (VBool true)
   /\ getProp (body reply1) (js "fallbackUsed") = Some VUndefined
   /\ getProp (body reply2) (js "cached") = Some (VBool true)
   /\ st2 = st1)
  /\ (let '(reply1, st1) :=
        OpenAI.postAnalyzeImage Node.runtime unreachable (Some (js "sk-test"))
          (Some pngUpload) initialState in
      let '(reply2, st2) :=
        OpenAI.postAnalyzeImage Node.runtime unreachable (Some (js "sk-test"))
          (Some pngUpload) st1 in
      getProp (body reply1) (js "fallbackUsed") = Some (VBool true)
      /\ getCachedResult (OpenAI.generateImageHash (buffer pngUpload)) st1 = None
      /\ fetches st2 = S (fetches st1)).
Proof.
  assert (mimetype pngUpload ∈ OpenAI.allowedTypes) as Hm
    by (apply (bool_decide_eq_true_1 (mimetype pngUpload ∈ OpenAI.allowedTypes));
        vm_compute; reflexivity).
  split.
  - pose proof (openai_route_repeat Node.runtime rateLimited (Some (js "sk-test"))
                  pngUpload initialState Hm ltac:(vm_compute; reflexivity)) as H.
    assert (getProp (body (fst (OpenAI.postAnalyzeImage Node.runtime rateLimited
                                  (Some (js "sk-test")) (Some pngUpload) initialState)))
              (js "quotaExceeded") = Some (VBool true)
            /\ getProp (body (fst (OpenAI.postAnalyzeImage Node.runtime rateLimited
                                     (Some (js "sk-test")) (Some pngUpload)
                                     initialState)))
                 (js "fallbackUsed") = Some VUndefined) as [Hq Hnf]
      by (split; vm_compute; reflexivity).
    destruct (OpenAI.postAnalyzeImage Node.runtime rateLimited (Some (js "sk-test"))
                (Some pngUpload) initialState) as [reply1 st1].
    destruct (OpenAI.postAnalyzeImage Node.runtime rateLimited (Some (js "sk-test"))
                (Some pngUpload) st1) as [reply2 st2].
    cbn [fst] in Hq, Hnf.
    destruct H as [(Hfb & _)
                  |(_ & analysis & captions & entry & _ & _ & _ & _ & -> & ->)].
    + rewrite Hfb in Hnf. discriminate Hnf.
    + split; [exact Hq|]. split; [exact Hnf|]. split; [|reflexivity].
      cbn [body]. rewrite !getProp_skip by key_ne. apply getProp_here.
  - pose proof (openai_route_repeat Node.runtime unreachable (Some (js "sk-test"))
                  pngUpload initialState Hm ltac:(vm_compute; reflexivity)) as H.
    assert (getProp (body (fst (OpenAI.postAnalyzeImage Node.runtime unreachable
                                  (Some (js "sk-test")) (Some pngUpload) initialState)))
              (js "fallbackUsed") = Some (VBool true)) as Hq
      by (vm_compute; reflexivity).
    destruct (OpenAI.postAnalyzeImage Node.runtime unreachable (Some (js "sk-test"))
                (Some pngUpload) initialState) as [reply1 st1].
    destruct (OpenAI.postAnalyzeImage Node.runtime unreachable (Some (js "sk-test"))
                (Some pngUpload) st1) as [reply2 st2].
    cbn [fst] in Hq.
    destruct H as [H | (Hfb & _)]; [exact H|].
    rewrite Hq in Hfb. discriminate Hfb.
Defined.

(** ** The canned captions *)

(** The Chinese text of a caption record. *)
Definition chineseOf (c : JsVal) : jsstring :=
  match getProp c (js "chinese") with
  | Some (VStr s) => s
  | _ => []
  end.

(** No table holds the same Chinese sentence twice. *)
Lemma fallbackCaptions_distinct (name : jsstring) (table : list JsVal) :
  (name, table) ∈ OpenAI.fallbackCaptions -> NoDup table /\ length table = 3%nat.
Proof.
  intros Hin.
  assert (NoDup (chineseOf <$> table) /\ length table = 3%nat) as [Hd Hl].
  { unfold OpenAI.fallbackCaptions in Hin.
    repeat (apply elem_of_cons in Hin as [[= -> ->]|Hin];
            [split; [apply (bool_decide_unpack _); vm_compute; exact I|reflexivity]|]).
    by apply elem_of_nil in Hin. }
  split; [|done]. by eapply NoDup_fmap_1.
Qed.

(** The entries [selectCaptions] picks, by their index in the table. *)
Lemma selectCaptions_lookup (n : nat) (i0 h : N) (captions : list JsVal) (j : nat) :
  captions <> [] ->
  (j < n)%nat ->
  OpenAI.selectCaptions n i0 h captions !! j
  = captions !! N.to_nat ((h + i0 + N.of_nat j) mod N.of_nat (length captions)).
Proof.
  intros Hne. revert i0 j. induction n as [|n IH]; intros i0 j Hj; [lia|].
  cbn [OpenAI.selectCaptions].
  assert (forall a, N.to_nat (a mod N.of_nat (length captions)) < length captions)%nat
    as Hlt.
  { intros a.
    assert (N.of_nat (length captions) <> 0%N) as Hz
      by (destruct captions; [done|cbn; lia]).
    pose proof (N.mod_lt a _ Hz). lia. }
  destruct j as [|j].
  - cbn [lookup list_lookup]. rewrite N.add_0_r.
    destruct (lookup_lt_is_Some_2 captions _ (Hlt (h + i0)%N)) as [c Hc].
    by rewrite Hc.
  - cbn [lookup list_lookup]. rewrite IH by lia. do 3 f_equal. lia.
Qed.

Lemma selectCaptions_NoDup (n : nat) (h : N) (captions : list JsVal) :
  NoDup captions -> captions <> [] -> (n <= length captions)%nat ->
  NoDup (OpenAI.selectCaptions n 0 h captions).
Proof.
  intros Hd Hne Hn. apply NoDup_alt. intros i j x Hi Hj.
  destruct (selectCaptions_spec n 0 h captions Hne) as [Hl _].
  assert (i < n)%nat as Hi' by (rewrite <- Hl; by eapply lookup_lt_Some).
  assert (j < n)%nat as Hj' by (rewrite <- Hl; by eapply lookup_lt_Some).
  rewrite selectCaptions_lookup in Hi, Hj by done.
  pose proof (NoDup_lookup _ _ _ _ Hd Hi Hj) as Heq.
  assert (N.of_nat (length captions) <> 0%N) as Hz
    by (destruct captions; [done|cbn; lia]).
  assert (N.of_nat i < N.of_nat (length captions))%N as Bi by lia.
  assert (N.of_nat j < N.of_nat (length captions))%N as Bj by lia.
  set (L := N.of_nat (length captions)) in *.
  pose proof (N.div_mod (h + 0 + N.of_nat i) L Hz) as Di.
  pose proof (N.div_mod (h + 0 + N.of_nat j) L Hz) as Dj.
  clearbody L. revert Heq Di Dj.
  generalize ((h + 0 + N.of_nat i) mod L)%N ((h + 0 + N.of_nat i) / L)%N
             ((h + 0 + N.of_nat j) mod L)%N ((h + 0 + N.of_nat j) / L)%N.
  intros ri qi rj qj Heq Di Dj.
  assert (ri = rj) as -> by lia.
  assert (qi = qj) as -> by nia.
  lia.
Qed.

(** The canned captions of one reply are two or three different entries
    of one and the same hardcoded table, chosen by the image bytes alone. *)
Theorem generateFallbackCaptions_distinct (imageBuffer : list byte) :
  exists name table,
    (name, table) ∈ OpenAI.fallbackCaptions
    /\ Forall (fun c => c ∈ table) (OpenAI.generateFallbackCaptions imageBuffer)
    /\ NoDup (OpenAI.generateFallbackCaptions imageBuffer)
    /\ (2 <= length (OpenAI.generateFallbackCaptions imageBuffer) <= 3)%nat.
Proof.
  unfold OpenAI.generateFallbackCaptions. cbv zeta.
  set (h := OpenAI.hashNum imageBuffer).
  change (length (map fst OpenAI.fallbackCaptions)) with 6%nat.
  assert (N.to_nat (h mod N.of_nat 6) < 6)%nat as Hi.
  { pose proof (N.mod_lt h (N.of_nat 6)). lia. }
  destruct (category_at _ Hi) as (name & table & Hn & Ha & Hin & Hne).
  repeat match goal with
  | |- context [assoc (default [] ?x) _] =>
    replace x with (Some name) by (symmetry; exact Hn)
  end.
  cbn [default from_option id]. rewrite Ha. cbn [default from_option id].
  destruct (fallbackCaptions_distinct name table Hin) as [Hd Hl].
  destruct (selectCaptions_spec (N.to_nat (2 + h mod 2)) 0 h table Hne) as [Hlen Hf].
  assert (h mod 2 < 2)%N as Hm by (by apply N.mod_lt).
  exists name, table. split; [done|]. split; [done|]. split.
  - apply selectCaptions_NoDup; [done | done |]. rewrite Hl.
    revert Hm. generalize (h mod 2)%N. intros m Hm. lia.
  - rewrite Hlen. revert Hm. generalize (h mod 2)%N. intros m Hm. lia.
Qed.

(** ** The two revisions of the request loop *)

Section Revisions.
Context (rt : Runtime) (env : Env).
Context (firstKey : jsstring) (moreKeys : list jsstring).

(** One attempt in the two revisions: the same state, and the same body
    when it returns one. *)
Lemma tryAttempt_revisions (requestBody : Request) (st : State) :
  let '(res1, st1) := Rotation.tryAttempt rt env firstKey moreKeys requestBody st in
  let '(res2, st2) := Server.tryAttempt rt env firstKey moreKeys requestBody st in
  st1 = st2
  /\ match res1, res2 with
     | Ok (Server.Returned d1), Ok (Server.Returned d2) => d1 = d2
     | Ok (Server.Failed _), Ok (Server.Failed _) => True
     | Throw e1, Throw e2 => e1 = e2
     | _, _ => False
     end.
Proof.
  unfold Rotation.tryAttempt, Server.tryAttempt. run_m.
  destruct (fetch env (fetches st) (Server.getCurrentApiKey firstKey moreKeys st)
                  requestBody) as [e|r]; run_m; [done|].
  destruct (ok r); run_m.
  - destruct (json r) as [data|e]; run_m; [|done].
    unfold trackUsage, bind, setStats, lift, dateNow, saveUsageStats.
    cbn [usageStats]. by destruct (estimateApiCost rt requestBody data).
  - by destruct (World.text r).
Qed.

Lemma attemptLoop_revisions (requestBody : Request) (maxRetries : nat) :
  forall remaining attempt lastError1 lastError2 st,
    let '(res1, st1) :=
      Rotation.attemptLoop rt env firstKey moreKeys remaining attempt maxRetries
        requestBody lastError1 st in
    let '(res2, st2) :=
      Server.attemptLoop rt env firstKey moreKeys remaining attempt maxRetries
        requestBody lastError2 st in
    st1 = st2
    /\ match res1, res2 with
       | Ok d1, Ok d2 => d1 = d2
       | Throw _, Throw _ => True
       | _, _ => False
       end.
Proof.
  induction remaining as [|remaining IH]; intros attempt lastError1 lastError2 st.
  - cbn [Rotation.attemptLoop Server.attemptLoop throw]. done.
  - cbn [Rotation.attemptLoop Server.attemptLoop].
    pose proof (tryAttempt_revisions requestBody st) as Hstep.
    destruct (Rotation.tryAttempt rt env firstKey moreKeys requestBody st)
      as [res1 st1].
    destruct (Server.tryAttempt rt env firstKey moreKeys requestBody st)
      as [res2 st2].
    destruct Hstep as [<- Hres].
    destruct res1 as [[d1|e1]|e1], res2 as [[d2|e2]|e2]; try done.
    + unfold bind.
      destruct (Server.switchUnlessLast firstKey moreKeys attempt maxRetries st1)
        as [[[]|e] s]; [apply IH | done].
    + unfold bind.
      destruct (Server.switchUnlessLast firstKey moreKeys attempt maxRetries st1)
        as [[[]|e] s]; [apply IH | done].
Qed.

End Revisions.

Section Timer.
Context (rt : Runtime) (env : Env).
Context (aborted : JsError) (delay : nat -> option jsstring -> Request -> Z).
Context (firstKey : jsstring) (moreKeys : list jsstring).
Hypothesis Hdelay : forall n key body, delay n key body < Rotation.requestTimeout.

(** While every answer comes before the timer fires, the timer changes
    nothing. *)
Lemma tryAttempt_in_time (requestBody : Request) (st : State) :
  Server.tryAttempt rt (Rotation.withTimer aborted delay env) firstKey moreKeys
    requestBody st
  = Server.tryAttempt rt env firstKey moreKeys requestBody st.
Proof using Hdelay.
  unfold Server.tryAttempt, bind at 1 3, doFetch.
  unfold Rotation.withTimer at 1. cbn [fetch].
  destruct (Z.ltb_spec (delay (fetches st)
                          (Server.getCurrentApiKey firstKey moreKeys st) requestBody)
                       Rotation.requestTimeout) as [_|Hge].
  - reflexivity.
  - pose proof (Hdelay (fetches st) (Server.getCurrentApiKey firstKey moreKeys st)
                  requestBody). lia.
Qed.

Lemma attemptLoop_in_time (requestBody : Request) (maxRetries : nat) :
  forall remaining attempt lastError st,
    Server.attemptLoop rt (Rotation.withTimer aborted delay env) firstKey moreKeys
      remaining attempt maxRetries requestBody lastError st
    = Server.attemptLoop rt env firstKey moreKeys remaining attempt maxRetries
        requestBody lastError st.
Proof using Hdelay.
  induction remaining as [|remaining IH]; intros attempt lastError st.
  - reflexivity.
  - cbn [Server.attemptLoop]. rewrite tryAttempt_in_time.
    destruct (Server.tryAttempt rt env firstKey moreKeys requestBody st)
      as [[[data|e]|e] st1].
    + reflexivity.
    + unfold bind.
      destruct (Server.switchUnlessLast firstKey moreKeys attempt maxRetries st1)
        as [[[]|e0] s]; [apply IH | reflexivity].
    + unfold bind.
      destruct (Server.switchUnlessLast firstKey moreKeys attempt maxRetries st1)
        as [[[]|e0] s]; [apply IH | reflexivity].
Qed.

End Timer.



(** In the two-key revision a response that is not ok is recorded with
    its status, whatever the status, and a rejected request is recorded as
    it was thrown: with one key, the call throws exactly that. *)
Lemma rotation_single_key_error (rt : Runtime) (env : Env) (key : jsstring)
    (requestBody : Request) (st : State) :
  currentApiKeyIndex st = 0%nat ->
  let outcome := fetch env (fetches st) (Some key) requestBody in
  let res := fst (Rotation.makeApiRequestWithFallback rt env key [] requestBody
                    None st) in
  (forall r t, outcome = Responded r -> ok r = false -> World.text r = Ok t ->
     res = Throw (newError (js "API request failed: " ++ showZ (status r) ++ js " "
                            ++ statusText r ++ js " - " ++ t)))
  /\ (forall e, outcome = Rejected e -> res = Throw e).
Proof.
  intros Hi. cbv zeta.
  unfold Rotation.makeApiRequestWithFallback.
  cbn [default from_option id Server.OPENROUTER_API_KEYS length Rotation.attemptLoop].
  unfold Rotation.tryAttempt, Server.getCurrentApiKey, Server.OPENROUTER_API_KEYS.
  rewrite Hi. cbn [lookup list_lookup].
  split.
  - intros r t Hout Hok Ht. unfold bind at 1, doFetch. rewrite Hout, Hok.
    unfold bind at 1, lift at 1. rewrite Ht. reflexivity.
  - intros e Hout. unfold bind at 1, doFetch. rewrite Hout. reflexivity.
Qed.

(** The only key is answered with 401. *)
Definition unauthorized : Env :=
  mkEnv (fun _ _ _ =>
           Responded (mkResponse 401 (js "Unauthorized") (Ok (VObj []))
                        (Ok (js "bad key"))))
        (fun _ => 1000) (fun _ => true).

Lemma rotation_single_key_error_witness :
  fst (Rotation.makeApiRequestWithFallback Node.runtime unauthorized (js "k1") []
         TestRequest None initialState)
  = Throw (newError (js "API request failed: 401 Unauthorized - bad key")).
Proof.
  destruct (rotation_single_key_error Node.runtime unauthorized (js "k1") TestRequest
              initialState eq_refl) as [H _].
  rewrite (H (mkResponse 401 (js "Unauthorized") (Ok (VObj [])) (Ok (js "bad key")))
             (js "bad key") eq_refl eq_refl eq_refl).
  vm_compute. reflexivity.
Defined.

(** ** Captions recovered from a malformed reply *)

Lemma isCJK_not_space (c : N) : Recovery.isCJK c = true -> c <> 32%N.
Proof. intros H ->. discriminate H. Qed.

Lemma cjkRunsFrom_runs (s run : jsstring) :
  Forall (fun c => Recovery.isCJK c = true) run ->
  Forall (fun t => t <> [] /\ Forall (fun c => Recovery.isCJK c = true) t)
         (Recovery.cjkRunsFrom run s).
Proof.
  revert run. induction s as [|c s IH]; intros run Hrun; cbn [Recovery.cjkRunsFrom].
  - destruct run as [|x run]; [constructor|].
    constructor; [|constructor]. split.
    + cbn [rev]. by destruct (rev run).
    + by apply Forall_rev.
  - destruct (Recovery.isCJK c) eqn:Ec.
    + apply IH. by constructor.
    + destruct run as [|x run]; [by apply IH|].
      constructor; [|by apply IH]. split.
      * cbn [rev]. by destruct (rev run).
      * by apply Forall_rev.
Qed.

(** The pinyin of a text without a space has one syllable per code unit. *)
Lemma pinyin_syllables (chinese : jsstring) :
  chinese <> [] -> (32%N ∉ chinese) ->
  length (split OpenAI.space (OpenAI.generatePinyinFallback chinese)) = length chinese.
Proof.
  intros Hne Hsp.
  assert (split OpenAI.space (OpenAI.generatePinyinFallback chinese)
          = map OpenAI.pinyinOf chinese) as ->.
  { unfold OpenAI.generatePinyinFallback, split, OpenAI.space.
    apply split_fuel_join_unit.
    - destruct chinese; [done | discriminate].
    - apply Forall_map, Forall_forall. intros c Hc.
      apply pinyinOf_spaceFree. intros ->. done.
    - apply (join_length_ge [32%N]). discriminate. }
  by rewrite length_map.
Qed.

(** A caption recovered from the text of a reply. *)
Definition recoveredCaption (c : JsVal) : Prop :=
  exists chinese english keywords,
    c = VObj [(js "chinese", VStr chinese);
              (js "pinyin", VStr (OpenAI.generatePinyinFallback chinese));
              (js "english", VStr english);
              (js "relevance", VStr (js "medium"));
              (js "keywordsUsed", keywords)]
    /\ chinese <> []
    /\ Forall (fun u => Recovery.isCJK u = true) chinese
    /\ length (split OpenAI.space (OpenAI.generatePinyinFallback chinese))
       = length chinese.

Section RecoveryFacts.
Context (rt : Runtime).

Lemma recovered_caption (prefix fallback : jsstring) (analysis : JsVal)
    (chinese : jsstring) (c : JsVal) :
  chinese <> [] ->
  Forall (fun u => Recovery.isCJK u = true) chinese ->
  Recovery.recovered rt prefix fallback analysis chinese = Ok c ->
  recoveredCaption c.
Proof.
  intros Hne Hcjk. unfold Recovery.recovered.
  destruct (Recovery.about rt prefix fallback analysis) as [english|e]; cbn [exc_bind];
    [|done].
  destruct (Server.prop rt analysis (js "keywords")) as [keywords|e]; cbn [exc_bind];
    [|done].
  intros [= <-]. eexists _, _, _. split; [reflexivity|]. split; [done|]. split; [done|].
  apply pinyin_syllables; [done|].
  intros Hin. rewrite Forall_forall in Hcjk. by apply (isCJK_not_space _ (Hcjk _ Hin)).
Qed.

Lemma pushCaptions_recovered (prefix fallback : jsstring) (analysis : JsVal) :
  forall texts captions,
    Forall (fun t => t <> [] /\ Forall (fun c => Recovery.isCJK c = true) t) texts ->
    Forall recoveredCaption captions ->
    Forall recoveredCaption
      (fst (Recovery.pushCaptions (Recovery.recovered rt prefix fallback analysis)
              texts captions)).
Proof.
  induction texts as [|t texts IH]; intros captions Ht Hc; cbn [Recovery.pushCaptions].
  - done.
  - apply Forall_cons in Ht as [[Hne Hcjk] Ht].
    destruct (Z.of_nat (length t) >? 2); [|by apply IH].
    destruct (Recovery.recovered rt prefix fallback analysis t) as [c|e] eqn:E; [|done].
    apply IH; [done|]. apply Forall_app. split; [done|].
    constructor; [|constructor]. by eapply recovered_caption.
Qed.

Lemma pushLines_recovered (prefix fallback : jsstring) (analysis : JsVal) :
  forall lines captions,
    Forall recoveredCaption captions ->
    Forall recoveredCaption
      (fst (Recovery.pushLines (Recovery.recovered rt prefix fallback analysis)
              lines captions)).
Proof.
  induction lines as [|line lines IH]; intros captions Hc; cbn [Recovery.pushLines].
  - done.
  - destruct (includes (js "chinese") line || includes (js "Chinese") line);
      [|by apply IH].
    destruct (head (Recovery.cjkRuns line)) as [chinese|] eqn:Eh; [|by apply IH].
    destruct (Recovery.recovered rt prefix fallback analysis chinese) as [c|e] eqn:E;
      [|done].
    apply IH. apply Forall_app. split; [done|].
    constructor; [|constructor].
    assert (chinese <> [] /\ Forall (fun c => Recovery.isCJK c = true) chinese)
      as [Hne Hcjk].
    { pose proof (cjkRunsFrom_runs line [] (Forall_nil_2 _)) as Hr.
      fold (Recovery.cjkRuns line) in Hr.
      destruct (Recovery.cjkRuns line) as [|x l]; [done|].
      cbn [head] in Eh. injection Eh as <-. by apply Forall_cons in Hr as [? _]. }
    by eapply recovered_caption.
Qed.

End RecoveryFacts.

(** [extractCaptionsFromText] never throws and returns at most three
    captions, whatever it is given.  Each of them has relevance
    ['medium'] and a Chinese text that is a non-empty run of CJK code
    units, and its pinyin, made by [generatePinyinFallback], has exactly
    one syllable per code unit of that text. *)
Theorem extractCaptionsFromText_shape (rt : Runtime) (text analysis : JsVal) :
  (length (Recovery.extractCaptionsFromText rt text analysis) <= 3)%nat
  /\ Forall recoveredCaption (Recovery.extractCaptionsFromText rt text analysis).
Proof.
  unfold Recovery.extractCaptionsFromText.
  destruct text as [| |b|nz lx|s|items props|props];
    try (split; [cbn; lia | constructor]).
  pose proof (pushCaptions_recovered rt (js "This appears to be about ")
                (js "the image content") analysis (take 3 (Recovery.cjkRuns s)) []) as H1.
  pose proof (pushLines_recovered rt (js "Description of ") (js "the image") analysis
                (split [10%N] s) [] (Forall_nil_2 _)) as H2.
  destruct (Recovery.pushCaptions _ (take 3 (Recovery.cjkRuns s)) [])
    as [captions thrown].
  destruct (Recovery.pushLines _ (split [10%N] s) []) as [captions' thrown'].
  cbn [fst] in H1, H2.
  assert (Forall recoveredCaption captions) as Hc.
  { apply H1; [|constructor]. apply Forall_take.
    apply (cjkRunsFrom_runs s []). constructor. }
  assert (forall l : list JsVal, length (take 3 l) <= 3)%nat as Hl
    by (intros l; rewrite length_take; lia).
  destruct thrown; [split; [apply Hl | by apply Forall_take]|].
  destruct captions as [|c captions].
  - split; [apply Hl | by apply Forall_take].
  - split; [apply Hl | by apply Forall_take].
Qed.

Example extractCaptionsFromText_sample :
  Recovery.extractCaptionsFromText Node.runtime
    (VStr (js "Sure! 1. 橘猫在睡觉 (the cat sleeps) 2. 猫 3. 沙发很软"))
    (VObj [(js "mainSubject", VStr (js "a cat"))])
  = [VObj [(js "chinese", VStr (js "橘猫在睡觉"));
           (js "pinyin", VStr (OpenAI.generatePinyinFallback (js "橘猫在睡觉")));
           (js "english", VStr (js "This appears to be about a cat"));
           (js "relevance", VStr (js "medium"));
           (js "keywordsUsed", VArr [] [])];
     VObj [(js "chinese", VStr (js "沙发很软"));
           (js "pinyin", VStr (OpenAI.generatePinyinFallback (js "沙发很软")));
           (js "english", VStr (js "This appears to be about a cat"));
           (js "relevance", VStr (js "medium"));
           (js "keywordsUsed", VArr [] [])]].
Proof. vm_compute. reflexivity. Qed.

(** ** Captions of a fresh upload in the OpenAI revision *)

(** A caption object with its four texts and a Chinese text that is not
    empty. *)
Definition wellFormedCaption (c : JsVal) : Prop :=
  exists chinese pinyin english relevance,
    c = OpenAI.caption chinese pinyin english relevance /\ chinese <> [].

Definition isWellFormed (c : JsVal) : bool :=
  match c with
  | VObj [(k1, VStr chinese); (k2, VStr _); (k3, VStr _); (k4, VStr _)] =>
    bool_decide (k1 = js "chinese") && bool_decide (k2 = js "pinyin")
    && bool_decide (k3 = js "english") && bool_decide (k4 = js "relevance")
    && negb (bool_decide (chinese = []))
  | _ => false
  end.

Lemma isWellFormed_spec (c : JsVal) : isWellFormed c = true -> wellFormedCaption c.
Proof.
  unfold isWellFormed.
  destruct c as [| |b|nz lx|s|items props|props]; try discriminate.
  destruct props as [|[k1 [| |?|? ?|chinese|? ?|?]] props]; try discriminate.
  destruct props as [|[k2 [| |?|? ?|pinyin|? ?|?]] props]; try discriminate.
  destruct props as [|[k3 [| |?|? ?|english|? ?|?]] props]; try discriminate.
  destruct props as [|[k4 [| |?|? ?|relevance|? ?|?]] props]; try discriminate.
  destruct props; try discriminate.
  rewrite !andb_true_iff, !bool_decide_eq_true, negb_true_iff, bool_decide_eq_false.
  intros ((((-> & ->) & ->) & ->) & Hne).
  by exists chinese, pinyin, english, relevance.
Qed.

Lemma canned_wellFormed (c : JsVal) : canned c -> wellFormedCaption c.
Proof.
  intros (name & table & Hin & Hc).
  assert (forallb (fun entry => forallb isWellFormed (snd entry))
            OpenAI.fallbackCaptions = true) as Hall by (vm_compute; reflexivity).
  rewrite forallb_forall in Hall.
  apply list_elem_of_In in Hin. specialize (Hall _ Hin). cbn [snd] in Hall.
  rewrite forallb_forall in Hall. apply isWellFormed_spec, Hall.
  by apply list_elem_of_In.
Qed.

Lemma parsedCaption_wellFormed (c : JsVal) : parsedCaption c -> wellFormedCaption c.
Proof.
  intros (chinese & pinyin & english & -> & Hne & _).
  exists chinese, pinyin, english, (js "high"). split; [done|].
  intros ->. discriminate Hne.
Qed.

(** The captions of a reply: one to three well-formed captions. *)
Definition captioned (reply : Reply) : Prop :=
  exists captions,
    getProp (body reply) (js "captions") = Some (VArr captions [])
    /\ (1 <= length captions <= 3)%nat
    /\ Forall wellFormedCaption captions.

Lemma fallbackCaptions_captioned (imageBuffer : list byte) :
  (1 <= length (OpenAI.generateFallbackCaptions imageBuffer) <= 3)%nat
  /\ Forall wellFormedCaption (OpenAI.generateFallbackCaptions imageBuffer).
Proof.
  destruct (generateFallbackCaptions_canned imageBuffer) as [Hl Hc].
  split; [lia|]. eapply Forall_impl; [exact Hc|]. apply canned_wellFormed.
Qed.

Lemma extractCaptions_captioned (responseText : jsstring) :
  (length (OpenAI.extractCaptions responseText) <= 3)%nat
  /\ Forall wellFormedCaption (OpenAI.extractCaptions responseText).
Proof.
  unfold OpenAI.extractCaptions. cbn [omap list_omap].
  pose proof (extractCaption_parsed (js "CAPTION1:") (js "CAPTION2:") responseText) as H1.
  pose proof (extractCaption_parsed (js "CAPTION2:") (js "CAPTION3:") responseText) as H2.
  pose proof (extractCaption_parsed (js "CAPTION3:") (js "CAPTION4:") responseText) as H3.
  destruct (OpenAI.extractCaption (js "CAPTION1:") (js "CAPTION2:") responseText);
    destruct (OpenAI.extractCaption (js "CAPTION2:") (js "CAPTION3:") responseText);
    destruct (OpenAI.extractCaption (js "CAPTION3:") (js "CAPTION4:") responseText);
    cbn [length]; (split; [lia|]); repeat constructor;
    apply parsedCaption_wellFormed; eauto.
Qed.

Section FreshUpload.
Context (rt : Runtime) (env : Env) (key : option jsstring).

Lemma analyzeUncached_captioned (f : Upload) (imageHash : jsstring) (st : State) :
  match OpenAI.analyzeUncached rt env key f imageHash st with
  | (Ok reply, _) => captioned reply
  | (Throw _, _) => True
  end.
Proof.
  unfold OpenAI.analyzeUncached. unfold bind at 1, doFetch.
  destruct (fetch env (fetches st) key _) as [e|r]; [done|].
  destruct (negb (ok r)).
  - unfold bind at 1, lift at 1. destruct (json r) as [errorData|e]; [|done].
    unfold bind at 1, lift at 1.
    destruct (OpenAI.isQuotaError rt r errorData) as [[|]|e]; [| |done].
    + unfold cacheResult, OpenAI.object, captioned. run_m. cbn [body].
      eexists. split; [rewrite !getProp_skip by key_ne; apply getProp_here|].
      split; [cbn [length]; lia|].
      constructor; [|constructor]. eexists _, _, _, _. split; [reflexivity|].
      discriminate.
    + unfold bind at 1, lift at 1.
      by destruct (OpenAI.requestFailed rt errorData).
  - unfold bind at 1, lift at 1. destruct (json r) as [data|e]; [|done].
    unfold bind at 1, lift at 1. destruct (messageContent rt data) as [content|e];
      [|done].
    unfold bind at 1, lift at 1.
    destruct (OpenAI.matchable rt content) as [responseText|e]; [|done].
    cbv zeta. unfold cacheResult, OpenAI.object, captioned. run_m. cbn [body].
    eexists. split; [rewrite !getProp_skip by key_ne; apply getProp_here|].
    destruct (extractCaptions_captioned responseText) as [Hl Hw].
    destruct (fallbackCaptions_captioned (buffer f)) as [Hl' Hw'].
    destruct (OpenAI.extractCaptions responseText) as [|c parsed]; [done|].
    split; [cbn [length] in *; lia | done].
Qed.

End FreshUpload.

(** In the OpenAI revision an upload of an allowed type that is not in
    the cache always gets captions, whatever the upstream service does:
    the reply has status 200 and its [captions] is an array of one to
    three caption objects, each with the four texts [chinese], [pinyin],
    [english] and [relevance] and a Chinese text that is not empty. *)
Theorem openai_route_captions (rt : Runtime) (env : Env) (key : option jsstring)
    (f : Upload) (st : State) :
  mimetype f ∈ OpenAI.allowedTypes ->
  getCachedResult (OpenAI.generateImageHash (buffer f)) st = None ->
  let reply := fst (OpenAI.postAnalyzeImage rt env key (Some f) st) in
  code reply = 200 /\ captioned reply.
Proof.
  intros Hm Hmiss reply. subst reply. unfold OpenAI.postAnalyzeImage.
  rewrite bool_decide_eq_true_2 by done. cbn [negb]. rewrite Hmiss.
  pose proof (analyzeUncached_succeeds rt env key f
                (OpenAI.generateImageHash (buffer f)) st) as Hs.
  pose proof (analyzeUncached_captioned rt env key f
                (OpenAI.generateImageHash (buffer f)) st) as Hc.
  destruct (OpenAI.analyzeUncached rt env key f _ st) as [[reply|e] st'].
  - cbn [fst]. split; [by destruct Hs | exact Hc].
  - cbn [fst]. split; [done|].
    unfold OpenAI.fallbackReply, OpenAI.object, captioned. cbn [body].
    eexists. split; [rewrite !getProp_skip by key_ne; apply getProp_here|].
    apply fallbackCaptions_captioned.
Qed.

Lemma openai_route_captions_witness :
  let reply :=
    fst (OpenAI.postAnalyzeImage Node.runtime rateLimited (Some (js "sk-test"))
           (Some pngUpload) initialState) in
  code reply = 200 /\ captioned reply.
Proof.
  apply (openai_route_captions Node.runtime rateLimited (Some (js "sk-test"))
           pngUpload initialState).
  - apply (bool_decide_eq_true_1 (mimetype pngUpload ∈ OpenAI.allowedTypes)).
    vm_compute. reflexivity.
  - vm_compute. reflexivity.
Defined.
